(** * bsv-agent: a job queue over a ledger, verified against its sources

    The development embeds three programs of the repository:
    - the agent ([agent.cjs], module [Agent]): poller, tagged-data decoder,
      inference step, settlement builder, job processor and job store;
    - the bridge front-end (module [Bridge]): the read side that looks for
      the [RES] output answering a submitted job;
    - the chat front-end ([web.cjs], module [Web]): the conversation store
      and the pending-entry protocol of the [POST /api/chat] handler.

    Conventions.
    - A JavaScript string is modelled by its UTF-8 encoding, a Rocq
      [string]; [Buffer.from(s, 'utf8')] is then the list of its bytes and
      [buf.toString('utf8')] reads the bytes back (ill-formed sequences,
      which Node decodes to replacement characters, are kept as they are).
    - Amounts are satoshis, integers in [Z]; JavaScript numbers are exact on
      them below 2^53.  [Math.round(vout.value * 1e8)] is carried by the
      ledger record as the integer it evaluates to.
    - Everything asynchronous that the code awaits (ledger gateway,
      inference backend) is an oracle of the environment whose outcome is
      either a value or a rejection. *)

From Stdlib Require Import ZArith NArith Ascii String List Lia Bool.
From Stdlib Require Import Init.Byte Strings.Byte.
From stdpp Require Import base option list gmap strings.
Import ListNotations.

Set Default Proof Using "Type".
(* [set_solver] clears hypotheses that may be gone already. *)
Set Warnings "-clear-no-such-hyp".
Local Open Scope string_scope.
Local Open Scope list_scope.

(** ** Outcomes of fallible calls *)

(** A call either returns a value or throws an [Error] with a message
    (a rejected promise, when awaited, throws in the same way). *)
Inductive Result (A : Type) : Type :=
| Ok (a : A)
| Throw (message : string).
Arguments Ok {A} a.
Arguments Throw {A} message.

#[global] Instance byte_eq_decision : EqDecision byte := Byte.byte_eq_dec.

(** ** Node's [Buffer]: hex and UTF-8 encodings *)

Module Buffer.

Definition t := list byte.

Definition byte_of_N (n : N) : byte :=
  match Byte.of_N n with Some b => b | None => x00 end.

(** [Buffer.from(s, 'utf8')] and [buf.toString('utf8')]. *)
Definition from_utf8 (s : string) : t := list_byte_of_string s.
Definition toString_utf8 (b : t) : string := string_of_list_byte b.

Definition hexchar (n : N) : ascii :=
  match n with
  | 0 => "0" | 1 => "1" | 2 => "2" | 3 => "3" | 4 => "4" | 5 => "5"
  | 6 => "6" | 7 => "7" | 8 => "8" | 9 => "9" | 10 => "a" | 11 => "b"
  | 12 => "c" | 13 => "d" | 14 => "e" | _ => "f"
  end%N%char.

(** Value of a hex digit; both cases of the letters are accepted. *)
Definition hexval (c : ascii) : option N :=
  let n := N_of_ascii c in
  if ((48 <=? n) && (n <=? 57))%N then Some (n - 48)%N
  else if ((97 <=? n) && (n <=? 102))%N then Some (n - 87)%N
  else if ((65 <=? n) && (n <=? 70))%N then Some (n - 55)%N
  else None.

(** [buf.toString('hex')]: two lowercase digits per byte. *)
Fixpoint toString_hex (b : t) : string :=
  match b with
  | [] => ""
  | x :: r =>
      String (hexchar (Byte.to_N x / 16)%N)
        (String (hexchar (Byte.to_N x mod 16)%N) (toString_hex r))
  end.

(** [Buffer.from(s, 'hex')]: pairs of digits are decoded until the first
    pair that is not hex; a trailing single character is dropped. *)
Fixpoint from_hex (s : string) : t :=
  match s with
  | String a (String b rest) =>
      match hexval a, hexval b with
      | Some h, Some l => byte_of_N (16 * h + l)%N :: from_hex rest
      | _, _ => []
      end
  | _ => []
  end.

(** The digits [toString_hex] writes. *)
Definition is_lower_hex (c : ascii) : bool :=
  let n := N_of_ascii c in
  (((48 <=? n) && (n <=? 57)) || ((97 <=? n) && (n <=? 102)))%N.

Definition lower_digits : list ascii :=
  ["0"; "1"; "2"; "3"; "4"; "5"; "6"; "7"; "8"; "9";
   "a"; "b"; "c"; "d"; "e"; "f"]%char.

Fixpoint all_lower_hex (s : string) : bool :=
  match s with
  | "" => true
  | String c r => is_lower_hex c && all_lower_hex r
  end.

End Buffer.

(** ** SHA-256 ([crypto.createHash('sha256')]), after FIPS 180-4

    Words are 32-bit, kept in [Z] and reduced with [w32] after every
    operation that can overflow. *)

Module Sha256.
Local Open Scope Z_scope.

Definition w32 (x : Z) : Z := Z.land x 0xffffffff.
Definition add32 (x y : Z) : Z := w32 (x + y).
Definition rotr (n x : Z) : Z :=
  w32 (Z.lor (Z.shiftr x n) (Z.shiftl x (32 - n))).
Definition shr (n x : Z) : Z := Z.shiftr x n.
Definition not32 (x : Z) : Z := Z.lxor x 0xffffffff.

Definition Ch (x y z : Z) : Z := Z.lxor (Z.land x y) (Z.land (not32 x) z).
Definition Maj (x y z : Z) : Z :=
  Z.lxor (Z.lxor (Z.land x y) (Z.land x z)) (Z.land y z).
Definition Sigma0 (x : Z) : Z :=
  Z.lxor (Z.lxor (rotr 2 x) (rotr 13 x)) (rotr 22 x).
Definition Sigma1 (x : Z) : Z :=
  Z.lxor (Z.lxor (rotr 6 x) (rotr 11 x)) (rotr 25 x).
Definition sigma0 (x : Z) : Z :=
  Z.lxor (Z.lxor (rotr 7 x) (rotr 18 x)) (shr 3 x).
Definition sigma1 (x : Z) : Z :=
  Z.lxor (Z.lxor (rotr 17 x) (rotr 19 x)) (shr 10 x).

(** The round constants are the first 32 bits of the fractional parts of
    the cube roots of the first 64 primes, the initial chaining value
    those of the square roots of the first 8. *)
Definition is_prime (n : Z) : bool :=
  forallb (fun d => negb (n mod Z.of_nat d =? 0)) (seq 2 (Z.to_nat n - 2)).

Definition primes : list Z :=
  firstn 64 (List.filter is_prime (map Z.of_nat (seq 2 400))).

(** The integer cube root, one bit at a time from bit [n - 1] down. *)
Fixpoint cbrt_bits (n : nat) (x r : Z) : Z :=
  match n with
  | O => r
  | S n' =>
      let c := r + 2 ^ Z.of_nat n' in
      cbrt_bits n' x (if c * c * c <=? x then c else r)
  end.

Definition frac_cbrt (p : Z) : Z := w32 (cbrt_bits 40 (p * 2 ^ 96) 0).
Definition frac_sqrt (p : Z) : Z := w32 (Z.sqrt (p * 2 ^ 64)).

Definition K : list Z := Eval vm_compute in map frac_cbrt primes.

(** The eight working variables, also the chaining value. *)
Record state := State { a : Z; b : Z; c : Z; d : Z; e : Z; f : Z; g : Z; h : Z }.

Definition H0 : state :=
  Eval vm_compute in
    match map frac_sqrt primes with
    | p0 :: p1 :: p2 :: p3 :: p4 :: p5 :: p6 :: p7 :: _ =>
        State p0 p1 p2 p3 p4 p5 p6 p7
    | _ => State 0 0 0 0 0 0 0 0
    end.

Definition byteZ (x : byte) : Z := Z.of_N (Byte.to_N x).

(** Padding: a [1] bit, zeros up to 56 modulo 64, the bit length on 8 bytes. *)
Definition be64 (n : Z) : list Z :=
  map (fun i => Z.land (Z.shiftr n (8 * i)) 0xff) [7; 6; 5; 4; 3; 2; 1; 0].

Definition pad (m : list Z) : list Z :=
  let len := Z.of_nat (length m) in
  m ++ [0x80] ++ repeat 0 (Z.to_nat ((55 - len) mod 64)) ++ be64 (8 * len).

Fixpoint words (l : list Z) : list Z :=
  match l with
  | b3 :: b2 :: b1 :: b0 :: r =>
      Z.lor (Z.lor (Z.shiftl b3 24) (Z.shiftl b2 16)) (Z.lor (Z.shiftl b1 8) b0)
      :: words r
  | _ => []
  end.

Fixpoint blocks (n : nat) (ws : list Z) : list (list Z) :=
  match n with
  | O => []
  | S n' => firstn 16 ws :: blocks n' (skipn 16 ws)
  end.

(** Message schedule: [win] holds the sixteen words W[t-16] .. W[t-1];
    each step emits W[t-16] and appends W[t]. *)
Fixpoint schedule (n : nat) (win : list Z) : list Z :=
  match n, win with
  | S n', w0 :: rest =>
      let wt := add32 (add32 (sigma1 (nth 13 rest 0)) (nth 8 rest 0))
                      (add32 (sigma0 (nth 0 rest 0)) w0) in
      w0 :: schedule n' (rest ++ [wt])
  | _, _ => []
  end.

Definition round (s : state) (kw : Z * Z) : state :=
  let T1 := add32 (add32 (add32 (h s) (Sigma1 (e s))) (Ch (e s) (f s) (g s)))
                  (add32 (fst kw) (snd kw)) in
  let T2 := add32 (Sigma0 (a s)) (Maj (a s) (b s) (c s)) in
  State (add32 T1 T2) (a s) (b s) (c s) (add32 (d s) T1) (e s) (f s) (g s).

Definition compress (s : state) (block : list Z) : state :=
  let r := fold_left round (combine K (schedule 64 block)) s in
  State (add32 (a s) (a r)) (add32 (b s) (b r)) (add32 (c s) (c r))
        (add32 (d s) (d r)) (add32 (e s) (e r)) (add32 (f s) (f r))
        (add32 (g s) (g r)) (add32 (h s) (h r)).

Definition be32 (x : Z) : list byte :=
  map (fun i => Buffer.byte_of_N (Z.to_N (Z.land (Z.shiftr x (8 * i)) 0xff)))
      [3; 2; 1; 0].

Definition output (s : state) : list byte :=
  be32 (a s) ++ be32 (b s) ++ be32 (c s) ++ be32 (d s) ++
  be32 (e s) ++ be32 (f s) ++ be32 (g s) ++ be32 (h s).

(** [createHash('sha256').update(buf).digest()]. *)
Definition digest (m : list byte) : list byte :=
  let ws := words (pad (map byteZ m)) in
  output (fold_left compress (blocks (length ws / 16) ws) H0).

(** [createHash('sha256').update(buf).digest('hex')]. *)
Definition hexdigest (m : list byte) : string :=
  Buffer.toString_hex (digest m).

End Sha256.

Arguments Sha256.digest : simpl never.
Arguments Sha256.hexdigest : simpl never.

(** ** The script library at the wire level

    The agent builds scripts with [Script.add] and reads them back with
    [Script.fromHex]; both belong to the external transaction library.  A
    script is its list of chunks; a chunk is an opcode, with a buffer when
    it pushes data.  The wire format is Bitcoin's push-data encoding. *)

Module Script.
Local Open Scope N_scope.

Record chunk := Chunk { buf : option Buffer.t; opcodenum : N }.
Definition t := list chunk.

Definition OP_FALSE : N := 0.
Definition OP_PUSHDATA1 : N := 76.
Definition OP_PUSHDATA2 : N := 77.
Definition OP_PUSHDATA4 : N := 78.
Definition OP_RETURN : N := 106.

Definition empty : t := [].

(** [script.add(opcode)]. *)
Definition add_opcode (s : t) (op : N) : t := s ++ [Chunk None op].

Definition opcode_for (len : N) : N :=
  if len <? OP_PUSHDATA1 then len
  else if len <? 256 then OP_PUSHDATA1
  else if len <? 65536 then OP_PUSHDATA2
  else OP_PUSHDATA4.

(** [script.add(buffer)]: the opcode is chosen from the length.  (The
    library refuses 2^32 bytes or more, which no JavaScript string or
    buffer reaches.) *)
Definition add_buffer (s : t) (b : Buffer.t) : t :=
  s ++ [Chunk (Some b) (opcode_for (N.of_nat (length b)))].

(** Little-endian integers on [k] bytes. *)
Fixpoint le_bytes (k : nat) (n : N) : list byte :=
  match k with
  | O => []
  | S k' => Buffer.byte_of_N (n mod 256) :: le_bytes k' (n / 256)
  end.

Fixpoint le_val (l : list byte) : N :=
  match l with
  | [] => 0
  | x :: r => Byte.to_N x + 256 * le_val r
  end.

Definition chunk_bytes (c : chunk) : list byte :=
  Buffer.byte_of_N (opcodenum c) ::
  match buf c with
  | None => []
  | Some b =>
      let len := N.of_nat (length b) in
      if opcodenum c <? OP_PUSHDATA1 then b
      else if opcodenum c =? OP_PUSHDATA1 then le_bytes 1 len ++ b
      else if opcodenum c =? OP_PUSHDATA2 then le_bytes 2 len ++ b
      else if opcodenum c =? OP_PUSHDATA4 then le_bytes 4 len ++ b
      else []
  end.

(** [script.toBuffer()] and [script.toHex()]. *)
Definition toBuffer (s : t) : list byte := flat_map chunk_bytes s.
Definition toHex (s : t) : string := Buffer.toString_hex (toBuffer s).

Definition invalid_script : string :=
  "Invalid script buffer: can't parse valid script from given buffer".

(** Reading a push: the length prefix must be there (reading it past the
    end is a [RangeError], reported as an invalid script); the data is
    whatever is left, up to the announced length. *)
Definition read_push (k : nat) (op : N) (r : list byte)
  : Result (chunk * list byte) :=
  if (length r <? k)%nat then Throw invalid_script
  else
    let len := N.to_nat (le_val (firstn k r)) in
    let r' := skipn k r in
    Ok (Chunk (Some (firstn len r')) op, skipn len r').

(** One chunk is read per unit of fuel; a chunk takes at least a byte. *)
Fixpoint parse (fuel : nat) (b : list byte) : Result t :=
  match fuel, b with
  | _, [] => Ok []
  | O, _ => Ok []
  | S fuel', x :: r =>
      let op := Byte.to_N x in
      let step :=
        if (0 <? op) && (op <? OP_PUSHDATA1) then
          Ok (Chunk (Some (firstn (N.to_nat op) r)) op, skipn (N.to_nat op) r)
        else if op =? OP_PUSHDATA1 then read_push 1 op r
        else if op =? OP_PUSHDATA2 then read_push 2 op r
        else if op =? OP_PUSHDATA4 then read_push 4 op r
        else Ok (Chunk None op, r) in
      match step with
      | Throw m => Throw m
      | Ok (c, rest) =>
          match parse fuel' rest with
          | Ok cs => Ok (c :: cs)
          | Throw m => Throw m
          end
      end
  end.

(** [Script.fromBuffer(buf)] and [Script.fromHex(str)]. *)
Definition fromBuffer (b : list byte) : Result t := parse (length b) b.
Definition fromHex (s : string) : Result t := fromBuffer (Buffer.from_hex s).

(** A chunk as [add] builds it, which the parser reads back as it is:
    a bare opcode that is not a push, or a non-empty buffer under the
    opcode its length calls for. *)
Definition wf_chunk (c : chunk) : Prop :=
  match buf c with
  | None => opcodenum c = 0 \/ (OP_PUSHDATA4 < opcodenum c /\ opcodenum c < 256)
  | Some b =>
      b <> [] /\ opcodenum c = opcode_for (N.of_nat (length b)) /\
      N.of_nat (length b) < 2 ^ 32
  end.

End Script.

(** ** Transactions of the library *)

Module Transaction.

Record Output := { script : Script.t; satoshis : Z }.

(** An input spends [prevTxId:outputIndex]; [output] is the output it
    spends, [in_script] its unlocking script. *)
Record Input := {
  output : Output;
  prevTxId : string;
  outputIndex : Z;
  in_script : Script.t;
}.

Record t := { inputs : list Input; outputs : list Output }.

Definition new : t := {| inputs := []; outputs := [] |}.
Definition addInput (tx : t) (i : Input) : t :=
  {| inputs := inputs tx ++ [i]; outputs := outputs tx |}.
Definition addOutput (tx : t) (o : Output) : t :=
  {| inputs := inputs tx; outputs := outputs tx ++ [o] |}.

(** [tx.inputs[i].setScript(s)]. *)
Definition setScript (tx : t) (i : nat) (s : Script.t) : t :=
  match inputs tx !! i with
  | Some inp =>
      {| inputs := <[i := {| output := output inp; prevTxId := prevTxId inp;
                             outputIndex := outputIndex inp; in_script := s |}]>
                     (inputs tx);
         outputs := outputs tx |}
  | None => tx
  end.

End Transaction.

(** A private key, as the object the library hands out: what its methods
    return. *)
Record PrivateKey := {
  toWIF : string;
  toPublicKey : Buffer.t;
  toAddress : string;
}.

(** The library functions the agent calls without looking inside: parsing a
    script, the pay-to-address script, and the signature (DER bytes) of one
    input. *)
Record Library := {
  Script_fromHex : string -> Result Script.t;
  Script_buildPublicKeyHashOut : string -> Script.t;
  Sighash_sign :
    Transaction.t -> PrivateKey -> Z -> nat -> Script.t -> Z -> Buffer.t;
}.

(** ** What the ledger gateway returns (JSON) *)

Module Ledger.

Record ScriptPubKey := {
  type : string;
  hex : string;
  addresses : option (list string);
}.

(** [value_sat] stands for [Math.round(vout.value * 1e8)]. *)
Record Vout := {
  value_sat : Z;
  n : Z;
  scriptPubKey : option ScriptPubKey;
}.

Record Tx := { txid : string; vout : option (list Vout) }.

(** A transaction id as the ledger gives it: 64 lowercase hex digits. *)
Definition is_txid (s : string) : Prop :=
  String.length s = 64%nat /\ Buffer.all_lower_hex s = true.

End Ledger.

(** ** The agent ([agent.cjs]) *)

Module Agent.
Local Open Scope Z_scope.

(** *** Configuration and records *)

Definition FEE : Z := 300.

Record Wallet := { wif : string; address : string }.

(** A record of [jobs.json].  [isHashed] and [error] are fields that only
    one of the two kinds of record carries. *)
Record Job := {
  jobTxid : string;
  resTxid : option string;
  prompt : string;
  result : string;
  satsReceived : Z;
  satsKept : Z;
  isHashed : option bool;
  error : option string;
  timestamp : string;
}.

(** A spendable output found in a request transaction. *)
Record Utxo := {
  txid : string;
  vout : Z;
  satoshis : Z;
  script : string;
}.

(** The lines [log] prints, one constructor per call site; the timestamp
    prefix and the truncation of long texts are left out. *)
Inductive LogLine :=
| NewTx (txid : string)
| CouldNotFetch
| NoJobFound
| NoOutputs
| JobPrompt (prompt : string)
| Received (sats : Z)
| Thinking
| ResultIs (result : string)
| Broadcasting
| ResponseTx (resTxid : string)
| Kept (keep : Z)
| HashedWarning
| BroadcastFailed (message : string)
| PollError (message : string).

(** *** State and environment *)

(** What the agent reads and writes: the in-memory set of seen ids, the
    job file, the console, and the transactions handed to the ledger for
    broadcast. *)
Record World := {
  lastSeenTxids : gset string;
  jobs_json : list Job;
  console : list LogLine;
  broadcasts : list Transaction.t;
}.

(** The reply of the inference backend, [JSON.parse]d; an absent field is
    the empty string. *)
Record LlmResponse := { response : string; thinking : string }.

(** The collaborators the agent awaits.  [None] from the gateway is a
    404 or a body that is not JSON ([httpGet] resolves to [null]); for the
    history it also stands for a body that is not an array.  A history
    entry is given by its [tx_hash]. *)
Record Env := {
  get_tx : string -> Result (option Ledger.Tx);
  get_history : string -> Result (option (list string));
  post_generate : string -> Result LlmResponse;
  post_tx_raw : Transaction.t -> Result string;
  now : string;
}.

(** *** Sequencing with state and exceptions *)

Definition M (A : Type) : Type := World -> Result A * World.

Definition ret {A} (a : A) : M A := fun w => (Ok a, w).

Definition bind {A B} (m : M A) (k : A -> M B) : M B :=
  fun w =>
    match m w with
    | (Ok a, w') => k a w'
    | (Throw e, w') => (Throw e, w')
    end.

(** [try { m } catch (err) { h err.message }]. *)
Definition try_catch {A} (m : M A) (h : string -> M A) : M A :=
  fun w =>
    match m w with
    | (Ok a, w') => (Ok a, w')
    | (Throw e, w') => h e w'
    end.

(** [await] of a promise of the environment, or a call that may throw. *)
Definition await {A} (r : Result A) : M A := fun w => (r, w).

Declare Scope agent_scope.
Delimit Scope agent_scope with agent.
Notation "'let!' x ':=' m 'in' k" := (bind m (fun x => k))
  (at level 10, x name, m at level 100, k at level 200) : agent_scope.
Notation "m '>>' k" := (bind m (fun _ => k))
  (at level 100, k at level 200, right associativity) : agent_scope.
Local Open Scope agent_scope.

(** [for (const x of l) body(x)]: an exception leaves the loop. *)
Fixpoint for_of {A} (l : list A) (body : A -> M unit) : M unit :=
  match l with
  | [] => ret tt
  | x :: r => body x >> for_of r body
  end.

(** The same sequencing for code that only computes. *)
Definition rbind {A B} (r : Result A) (k : A -> Result B) : Result B :=
  match r with
  | Ok a => k a
  | Throw e => Throw e
  end.
Notation "'let?' x ':=' r 'in' k" := (rbind r (fun x => k))
  (at level 10, x name, r at level 100, k at level 200) : agent_scope.

(** *** Effects *)

Definition log (l : LogLine) : M unit :=
  fun w => (Ok tt, {| lastSeenTxids := lastSeenTxids w;
                      jobs_json := jobs_json w;
                      console := console w ++ [l];
                      broadcasts := broadcasts w |}).

Definition seen_has (txid : string) : M bool :=
  fun w => (Ok (bool_decide (txid ∈ lastSeenTxids w)), w).

Definition seen_add (txid : string) : M unit :=
  fun w => (Ok tt, {| lastSeenTxids := {[ txid ]} ∪ lastSeenTxids w;
                      jobs_json := jobs_json w;
                      console := console w;
                      broadcasts := broadcasts w |}).

(** *** Jobs log *)

Definition loadJobs : M (list Job) := fun w => (Ok (jobs_json w), w).

Definition writeJobs (jobs : list Job) : M unit :=
  fun w => (Ok tt, {| lastSeenTxids := lastSeenTxids w;
                      jobs_json := jobs;
                      console := console w;
                      broadcasts := broadcasts w |}).

Definition saveJob (job : Job) : M unit :=
  let! jobs := loadJobs in
  writeJobs (jobs ++ [job]).

Definition some_job (txid : string) (jobs : list Job) : bool :=
  existsb (fun j => String.eqb (jobTxid j) txid) jobs.

Definition isJobProcessed (txid : string) : M bool :=
  let! jobs := loadJobs in
  ret (some_job txid jobs).

(** [wocBroadcast]: the transaction is handed to the ledger, which
    answers with its id or refuses it. *)
Definition wocBroadcast (env : Env) (tx : Transaction.t) : M string :=
  fun w => (post_tx_raw env tx,
            {| lastSeenTxids := lastSeenTxids w;
               jobs_json := jobs_json w;
               console := console w;
               broadcasts := broadcasts w ++ [tx] |}).

Section WithLibrary.
Variable lib : Library.

(** *** Parse OP_RETURN for JOB *)

Definition pushes_of (s : Script.t) : list Buffer.t :=
  omap Script.buf s.

(** The body of the [try] for one null-data output: [Ok (Some p)] is
    the [return] of the prompt, [Ok None] falls out of the [if]. *)
Definition job_of_script (hex : string) : Result (option string) :=
  let? script := Script_fromHex lib hex in
  let pushes := pushes_of script in
  match pushes with
  | tag :: p :: _ =>
      if String.eqb (Buffer.toString_utf8 tag) "JOB"
      then Ok (Some (Buffer.toString_utf8 p))
      else Ok None
  | _ => Ok None
  end.

Definition is_nulldata (v : Ledger.Vout) : option Ledger.ScriptPubKey :=
  match Ledger.scriptPubKey v with
  | Some spk =>
      if String.eqb (Ledger.type spk) "nulldata" then Some spk else None
  | None => None
  end.

Fixpoint parseJob_vouts (vs : list Ledger.Vout) : Result (option string) :=
  match vs with
  | [] => Ok None
  | v :: rest =>
      match is_nulldata v with
      | None => parseJob_vouts rest
      | Some spk =>
          match job_of_script (Ledger.hex spk) with
          | Ok (Some p) => Ok (Some p)
          | Ok None => parseJob_vouts rest
          | Throw _ => parseJob_vouts rest
          end
      end
  end.

Definition parseJobFromTx (tx : Ledger.Tx) : Result (option string) :=
  parseJob_vouts (default [] (Ledger.vout tx)).

(** *** Find spendable UTXOs from a tx sent to our address *)

Definition pays (address : string) (v : Ledger.Vout) : option Ledger.ScriptPubKey :=
  match Ledger.scriptPubKey v with
  | Some spk =>
      match Ledger.addresses spk with
      | Some l => if existsb (String.eqb address) l then Some spk else None
      | None => None
      end
  | None => None
  end.

Definition findOurOutputs (tx : Ledger.Tx) (address : string) : list Utxo :=
  omap (fun v =>
          match pays address v with
          | Some spk =>
              Some {| txid := Ledger.txid tx;
                      vout := Ledger.n v;
                      satoshis := Ledger.value_sat v;
                      script := Ledger.hex spk |}
          | None => None
          end)
       (default [] (Ledger.vout tx)).


(** *** LLM *)

(** [s.startsWith(p)], giving what follows [p]. *)
Fixpoint strip_prefix (p s : string) : option string :=
  match p, s with
  | EmptyString, _ => Some s
  | String a p', String b s' =>
      if Ascii.eqb a b then strip_prefix p' s' else None
  | String _ _, EmptyString => None
  end.

(** What follows the first occurrence of [p] in [s]. *)
Fixpoint after_first (p s : string) : option string :=
  match strip_prefix p s with
  | Some r => Some r
  | None =>
      match s with
      | EmptyString => None
      | String _ s' => after_first p s'
      end
  end.

(** [s.replace(/<think>[\s\S]*?<\/think>/g, '')]: from left to right,
    every [<think>] that has a [</think>] after it is removed together
    with the shortest text up to that closing tag. *)
Fixpoint strip_think (fuel : nat) (s : string) : string :=
  match fuel, s with
  | S fuel', String ch s' =>
      match strip_prefix "<think>" s with
      | Some body =>
          match after_first "</think>" body with
          | Some r => strip_think fuel' r
          | None => String ch (strip_think fuel' s')
          end
      | None => String ch (strip_think fuel' s')
      end
  | _, _ => s
  end.

(** White space and line terminators of [String.prototype.trim], in
    UTF-8. *)
Definition white_space : list (list byte) :=
  [ [x09]; [x0a]; [x0b]; [x0c]; [x0d]; [x20]; [xc2; xa0];
    [xe1; x9a; x80];
    [xe2; x80; x80]; [xe2; x80; x81]; [xe2; x80; x82]; [xe2; x80; x83];
    [xe2; x80; x84]; [xe2; x80; x85]; [xe2; x80; x86]; [xe2; x80; x87];
    [xe2; x80; x88]; [xe2; x80; x89]; [xe2; x80; x8a];
    [xe2; x80; xa8]; [xe2; x80; xa9]; [xe2; x80; xaf]; [xe2; x81; x9f];
    [xe3; x80; x80]; [xef; xbb; xbf] ]%byte.

Fixpoint drop_one (pats : list (list byte)) (s : list byte)
  : option (list byte) :=
  match pats with
  | [] => None
  | p :: ps =>
      if bool_decide (firstn (length p) s = p) then Some (skipn (length p) s)
      else drop_one ps s
  end.

Fixpoint drop_leading (pats : list (list byte)) (fuel : nat) (s : list byte)
  : list byte :=
  match fuel with
  | O => s
  | S fuel' =>
      match drop_one pats s with
      | Some s' => drop_leading pats fuel' s'
      | None => s
      end
  end.

Definition trim (s : string) : string :=
  let b := list_byte_of_string s in
  let b1 := drop_leading white_space (length b) b in
  let b2 := drop_leading (map (@rev byte) white_space) (length b1)
              (rev_append b1 []) in
  string_of_list_byte (rev_append b2 []).

(** [a || b] on strings: the empty string is falsy. *)
Definition or_else (a b : string) : string :=
  if String.eqb a "" then b else a.

Definition askLLM (env : Env) (prompt : string) : string :=
  match post_generate env prompt with
  | Ok resp =>
      let answer := or_else (response resp) "" in
      let answer :=
        if negb (String.eqb (thinking resp) "") && String.eqb answer ""
        then thinking resp else answer in
      let answer := trim (strip_think (String.length answer) answer) in
      or_else answer "(no response)"
  | Throw message => "Error: " +:+ message
  end.

(** *** Build response TX *)

Definition SIGHASH_ALL : Z := 0x01.
Definition SIGHASH_FORKID : Z := 0x40.

(** What [buildResponseTx] returns: [{ tx, isHashed, keep }]. *)
Record Response := { res_tx : Transaction.t; res_isHashed : bool; res_keep : Z }.

(** The payload of the data output and whether it is a hash. *)
Definition resultBuf (resultText : string) : Buffer.t * bool :=
  let buf := Buffer.from_utf8 resultText in
  if (50000 <? Z.of_nat (length buf)) then
    let hash := Sha256.hexdigest buf in
    (Buffer.from_utf8 ("HASH:" +:+ hash), true)
  else (buf, false).

Definition opReturn (jobTxid : string) (payload : Buffer.t) : Script.t :=
  let s := Script.empty in
  let s := Script.add_opcode s Script.OP_FALSE in
  let s := Script.add_opcode s Script.OP_RETURN in
  let s := Script.add_buffer s (Buffer.from_utf8 "RES") in
  let s := Script.add_buffer s (rev (Buffer.from_hex jobTxid)) in
  Script.add_buffer s payload.

(** The loop over the UTXOs: each becomes an input, its amount is
    added to [totalIn]. *)
Fixpoint add_inputs (utxos : list Utxo) (acc : Transaction.t * Z)
  : Result (Transaction.t * Z) :=
  match utxos with
  | [] => Ok acc
  | utxo :: rest =>
      let? funding := Script_fromHex lib (script utxo) in
      let input :=
        {| Transaction.output :=
             {| Transaction.script := funding;
                Transaction.satoshis := satoshis utxo |};
           Transaction.prevTxId := txid utxo;
           Transaction.outputIndex := vout utxo;
           Transaction.in_script := Script.empty |} in
      add_inputs rest (Transaction.addInput (fst acc) input,
                       snd acc + satoshis utxo)
  end.

Definition sign_input (privKey : PrivateKey) (sighashType : Z)
    (t : Transaction.t) (i : nat) : Transaction.t :=
  match Transaction.inputs t !! i with
  | Some inp =>
      let sig := Sighash_sign lib t privKey sighashType i
                   (Transaction.script (Transaction.output inp))
                   (Transaction.satoshis (Transaction.output inp)) in
      let scriptSig := Script.empty in
      let scriptSig :=
        Script.add_buffer scriptSig
          (sig ++ [Buffer.byte_of_N (Z.to_N (Z.land sighashType 0xff))]) in
      let scriptSig := Script.add_buffer scriptSig (toPublicKey privKey) in
      Transaction.setScript t i scriptSig
  | None => t
  end.

Definition buildResponseTx (privKey : PrivateKey) (utxos : list Utxo)
    (jobTxid resultText : string) : Result Response :=
  let address := toAddress privKey in
  let '(payload, isHashed) := resultBuf resultText in
  let opReturn := opReturn jobTxid payload in
  let? r := add_inputs utxos (Transaction.new, 0) in
  let '(t, totalIn) := r in
  (* Output 0: OP_RETURN *)
  let t := Transaction.addOutput t
             {| Transaction.script := opReturn; Transaction.satoshis := 0 |} in
  (* Output 1: keep the sats (minus fee) *)
  let keep := totalIn - FEE in
  let t :=
    if 0 <? keep then
      Transaction.addOutput t
        {| Transaction.script := Script_buildPublicKeyHashOut lib address;
           Transaction.satoshis := keep |}
    else t in
  (* Sign *)
  let sighashType := Z.lor SIGHASH_ALL SIGHASH_FORKID in
  let t := fold_left (sign_input privKey sighashType)
             (seq 0 (length (Transaction.inputs t))) t in
  Ok {| res_tx := t; res_isHashed := isHashed; res_keep := keep |}.

(** *** Main loop *)

Definition hashed_marker : string :=
  string_of_list_byte
    (list_byte_of_string "(hashed " ++ [xe2; x80; x94]%byte
     ++ list_byte_of_string " see follow-up tx)").

Definition processJob (env : Env) (wallet : Wallet) (privKey : PrivateKey)
    (txid : string) : M unit :=
  let address := address wallet in
  log (NewTx txid) >>
  (* Fetch full tx *)
  let! tx := await (get_tx env txid) in
  match tx with
  | None => log CouldNotFetch
  | Some tx =>
  (* Parse JOB from OP_RETURN *)
  let! prompt := await (parseJobFromTx tx) in
  match prompt with
  | None | Some EmptyString => log NoJobFound
  | Some prompt =>
  (* Find our UTXOs in this tx *)
  let utxos := findOurOutputs tx address in
  match utxos with
  | [] => log NoOutputs
  | _ =>
  let satsReceived := fold_left (fun s u => s + satoshis u) utxos 0 in
  log (JobPrompt prompt) >>
  log (Received satsReceived) >>
  (* Do the work *)
  log Thinking >>
  let result := askLLM env prompt in
  log (ResultIs result) >>
  (* Build and broadcast response *)
  let! built := await (buildResponseTx privKey utxos txid result) in
  let resTx := res_tx built in
  let isHashed := res_isHashed built in
  let keep := res_keep built in
  log Broadcasting >>
  try_catch
    (let! resTxid := wocBroadcast env resTx in
     log (ResponseTx resTxid) >>
     log (Kept keep) >>
     (* Save job *)
     saveJob {| jobTxid := txid;
                resTxid := Some resTxid;
                prompt := prompt;
                result := if isHashed then hashed_marker else result;
                satsReceived := satsReceived;
                satsKept := keep;
                isHashed := Some isHashed;
                error := None;
                timestamp := now env |} >>
     if isHashed then log HashedWarning else ret tt)
    (fun message =>
     log (BroadcastFailed message) >>
     (* Still save the job attempt *)
     saveJob {| jobTxid := txid;
                resTxid := None;
                prompt := prompt;
                result := result;
                satsReceived := satsReceived;
                satsKept := 0;
                isHashed := None;
                error := Some message;
                timestamp := now env |})
  end end end.

(** The body of the loop of [pollForJobs] for one history entry. *)
Definition poll_entry (env : Env) (wallet : Wallet) (privKey : PrivateKey)
    (txid : string) : M unit :=
  let! seen := seen_has txid in
  if seen then ret tt else
  seen_add txid >>
  let! processed := isJobProcessed txid in
  if processed then ret tt else
  processJob env wallet privKey txid.

Definition pollForJobs (env : Env) (wallet : Wallet) (privKey : PrivateKey)
  : M unit :=
  try_catch
    (let! history := await (get_history env (address wallet)) in
     match history with
     | None => ret tt
     | Some history => for_of history (poll_entry env wallet privKey)
     end)
    (fun message => log (PollError message)).

(** The part of [main] that fills the set of seen ids before the first
    tick: the ids of the address history (a failure of the gateway is
    ignored), then the ids of the jobs already recorded. *)
Definition main (env : Env) (wallet : Wallet) : M unit :=
  try_catch
    (let! history := await (get_history env (address wallet)) in
     match history with
     | Some history => for_of history seen_add
     | None => ret tt
     end)
    (fun _ => ret tt) >>
  let! existingJobs := loadJobs in
  for_of existingJobs (fun j => seen_add (jobTxid j)).

(** The timer: one call of [pollForJobs] per tick, each tick with the
    answers the environment gives at that time.  A tick is taken to run to
    its end before the next one starts.  (The timer of the code does not
    wait for a slow tick; the test of the seen set and the insertion into
    it are one stretch without [await], so a tick that starts meanwhile
    skips the ids the slow one has taken.) *)
Definition ticks (envs : list Env) (wallet : Wallet) (privKey : PrivateKey)
  : M unit :=
  for_of envs (fun env => pollForJobs env wallet privKey).

End WithLibrary.

(** A new process: the set of seen ids is empty again, the files (and
    what was already printed and broadcast) stay. *)
Definition restart (w : World) : World :=
  {| lastSeenTxids := ∅;
     jobs_json := jobs_json w;
     console := console w;
     broadcasts := broadcasts w |}.

(** The life of the agent as the claims see it: ticks of the timer, and
    restarts, each followed by [main]. *)
Inductive Phase :=
| Tick (env : Env)
| Reboot (env : Env).

Definition phase (lib : Library) (wallet : Wallet) (privKey : PrivateKey)
    (w : World) (p : Phase) : World :=
  match p with
  | Tick env => snd (pollForJobs lib env wallet privKey w)
  | Reboot env => snd (main env wallet (restart w))
  end.

Definition lifetime (lib : Library) (wallet : Wallet) (privKey : PrivateKey)
    (ps : list Phase) (w : World) : World :=
  fold_left (phase lib wallet privKey) ps w.

(** *** Observations *)

(** The world with records, lines and broadcasts added. *)
Definition grow (w : World) (added : list Job) (lines : list LogLine)
    (sent : list Transaction.t) : World :=
  {| lastSeenTxids := lastSeenTxids w;
     jobs_json := jobs_json w ++ added;
     console := console w ++ lines;
     broadcasts := broadcasts w ++ sent |}.

Definition success_record (env : Env) (txid resTxid prompt result : string)
    (received : Z) (built : Response) : Job :=
  {| jobTxid := txid;
     resTxid := Some resTxid;
     prompt := prompt;
     result := if res_isHashed built then hashed_marker else result;
     satsReceived := received;
     satsKept := res_keep built;
     isHashed := Some (res_isHashed built);
     error := None;
     timestamp := now env |}.

Definition failure_record (env : Env) (txid message prompt result : string)
    (received : Z) : Job :=
  {| jobTxid := txid;
     resTxid := None;
     prompt := prompt;
     result := result;
     satsReceived := received;
     satsKept := 0;
     isHashed := None;
     error := Some message;
     timestamp := now env |}.

(** A job that reaches the broadcast: the request is fetched, carries a
    prompt, pays the agent, and the settlement is built. *)
Record reaches_broadcast (lib : Library) (env : Env) (wallet : Wallet)
    (privKey : PrivateKey) (txid : string) (tx : Ledger.Tx) (prompt : string)
    (built : Response) : Prop := {
  rb_fetched : get_tx env txid = Ok (Some tx);
  rb_prompt : parseJobFromTx lib tx = Ok (Some prompt);
  rb_nonempty : prompt <> "";
  rb_funds : findOurOutputs tx (address wallet) <> [];
  rb_built :
    buildResponseTx lib privKey (findOurOutputs tx (address wallet)) txid
      (askLLM env prompt) = Ok built;
}.

(** The records of the job file keyed by [id]. *)
Definition entries_for (id : string) (jobs : list Job) : list Job :=
  List.filter (fun j => String.eqb (jobTxid j) id) jobs.

Definition is_NewTx (id : string) (l : LogLine) : bool :=
  match l with
  | NewTx t => String.eqb t id
  | _ => false
  end.

(** How many times [processJob] was entered for [id]. *)
Definition times_processed (id : string) (console : list LogLine) : nat :=
  length (List.filter (is_NewTx id) console).

(** The world once [id] is in the set of seen ids. *)
Definition mark (id : string) (w : World) : World :=
  {| lastSeenTxids := {[ id ]} ∪ lastSeenTxids w;
     jobs_json := jobs_json w;
     console := console w;
     broadcasts := broadcasts w |}.

(** What the job file and the console say about [id]. *)
Definition about (id : string) (w : World) : list Job * nat :=
  (entries_for id (jobs_json w), times_processed id (console w)).

(** What holds of [id] in a world [w] reached from [w0] by the poll
    loop. *)
Record poll_invariant (id : string) (w0 w : World) : Prop := {
  pi_seen : lastSeenTxids w0 ⊆ lastSeenTxids w;
  pi_jobs : exists added, jobs_json w = jobs_json w0 ++ added;
  pi_unseen : id ∉ lastSeenTxids w -> about id w = about id w0;
  pi_times :
    (times_processed id (console w) <= times_processed id (console w0) + 1)%nat;
  pi_entries :
    (length (entries_for id (jobs_json w))
     <= Nat.max 1 (length (entries_for id (jobs_json w0))))%nat;
  pi_guard :
    id ∈ lastSeenTxids w0 ∨ some_job id (jobs_json w0) = true ->
    about id w = about id w0;
}.

(** The ids a start-up takes from the ledger. *)
Definition seeded_history (env : Env) (wallet : Wallet) : list string :=
  match get_history env (address wallet) with
  | Ok (Some history) => history
  | _ => []
  end.

(** The two outputs a settlement can have. *)
Definition data_output (jobTxid resultText : string) : Transaction.Output :=
  {| Transaction.script := opReturn jobTxid (fst (resultBuf resultText));
     Transaction.satoshis := 0 |}.

Definition change_output (lib : Library) (privKey : PrivateKey) (keep : Z)
  : Transaction.Output :=
  {| Transaction.script := Script_buildPublicKeyHashOut lib (toAddress privKey);
     Transaction.satoshis := keep |}.

(** The library reads the funding script of the UTXO. *)
Definition funded (lib : Library) (u : Utxo) : Prop :=
  exists s, Script_fromHex lib (script u) = Ok s.

Definition sum_satoshis (utxos : list Utxo) : Z :=
  fold_left (fun s u => s + satoshis u) utxos 0.

Definition sum_outputs (outs : list Transaction.Output) : Z :=
  fold_right (fun o s => Transaction.satoshis o + s) 0 outs.

End Agent.

(** ** The bridge front-end: looking for the response on the ledger *)

Module Bridge.
Import Agent.
Local Open Scope agent_scope.

Section WithLibrary.
Variable lib : Library.

(** One null-data output: [Ok (Some r)] is the [return] of the result
    text, [Ok None] falls out of the [if]s. *)
Definition res_of_script (hex jobTxid : string) : Result (option string) :=
  let? script := Script_fromHex lib hex in
  let pushes := pushes_of script in
  match pushes with
  | tag :: ref :: payload :: _ =>
      if String.eqb (Buffer.toString_utf8 tag) "RES" then
        let refTxid := Buffer.toString_hex (rev ref) in
        if String.eqb refTxid jobTxid
        then Ok (Some (Buffer.toString_utf8 payload))
        else Ok None
      else Ok None
  | _ => Ok None
  end.

(** The loop over the outputs of one transaction; an exception of the
    parser leaves it. *)
Fixpoint scan_vouts (vs : list Ledger.Vout) (jobTxid : string)
  : Result (option string) :=
  match vs with
  | [] => Ok None
  | v :: rest =>
      match is_nulldata v with
      | None => scan_vouts rest jobTxid
      | Some spk =>
          let? r := res_of_script (Ledger.hex spk) jobTxid in
          match r with
          | Some text => Ok (Some text)
          | None => scan_vouts rest jobTxid
          end
      end
  end.

(** The [try { ... } catch {}] around one history entry. *)
Definition scan_entry (fetched : Result (option Ledger.Tx)) (jobTxid : string)
  : option string :=
  match
    (let? tx := fetched in
     match tx with
     | Some tx =>
         match Ledger.vout tx with
         | Some vs => scan_vouts vs jobTxid
         | None => Ok None
         end
     | None => Ok None
     end)
  with
  | Ok r => r
  | Throw _ => None
  end.

Fixpoint scan_history (get_tx : string -> Result (option Ledger.Tx))
    (history : list string) (jobTxid : string) : option string :=
  match history with
  | [] => None
  | h :: rest =>
      match scan_entry (get_tx h) jobTxid with
      | Some text => Some text
      | None => scan_history get_tx rest jobTxid
      end
  end.

(** What one round of the wait sees: the job file if it exists, and the
    answers of the gateway. *)
Record Round := {
  jobs_file : option (list Job);
  history_now : Result (option (list string));
  tx_now : string -> Result (option Ledger.Tx);
}.

Definition truthy (s : option string) : bool :=
  match s with
  | Some s => negb (String.eqb s "")
  | None => false
  end.

(** [waitForResponse]: one element of [rounds] per iteration that fits
    in the time allowed. *)
Fixpoint waitForResponse (rounds : list Round) (jobTxid : string)
  : Result (option string) :=
  match rounds with
  | [] => Ok None
  | r :: rest =>
      match
        find (fun j => String.eqb (Agent.jobTxid j) jobTxid
                       && truthy (Agent.resTxid j))
             (default [] (jobs_file r))
      with
      | Some job => Ok (Some (Agent.result job))
      | None =>
          let? history := history_now r in
          match history with
          | None => waitForResponse rest jobTxid
          | Some history =>
              match scan_history (tx_now r) history jobTxid with
              | Some text => Ok (Some text)
              | None => waitForResponse rest jobTxid
              end
          end
      end
  end.

End WithLibrary.

End Bridge.

(** ** The chat front-end ([web.cjs]): conversations *)

Module Web.

Definition CONTEXT_LIMIT : nat := 10.

(** An entry of [history.json]; an entry without the [pending] field has
    [pending = false]. *)
Record Entry := {
  prompt : string;
  result : option string;
  txid : option string;
  timestamp : string;
  pending : bool;
}.

(** The conversation files, by directory. *)
Abbreviation Files := (gmap string (list Entry)).

Definition ipToDir (ip : string) : string :=
  String.substring 0 16 (Sha256.hexdigest (Buffer.from_utf8 ip)).

Definition loadConversation (ip : string) (fs : Files) : list Entry :=
  default [] (fs !! ipToDir ip).

Definition saveConversation (ip : string) (history : list Entry) (fs : Files)
  : Files :=
  <[ipToDir ip := history]> fs.

Definition nl : string := String (ascii_of_nat 10) "".

Definition show (r : option string) : string := default "null" r.

Definition buildContextPrompt (history : list Entry) (newPrompt : string)
  : string :=
  let recent := skipn (length history - CONTEXT_LIMIT) history in
  match recent with
  | [] => newPrompt
  | _ =>
      let context := "Previous conversation:" +:+ nl in
      let context :=
        fold_left (fun context msg =>
                     context +:+ "User: " +:+ prompt msg +:+ nl
                     +:+ "Assistant: " +:+ show (result msg) +:+ nl)
                  recent context in
      context +:+ nl +:+ "User: " +:+ newPrompt
  end.

(** *** The [POST /api/chat] handler, by the stretches it runs without
    yielding *)

(** What a request in flight holds in its local variables. *)
Record Request := {
  ip : string;
  req_prompt : string;
  history : list Entry;
  contextPrompt : string;
}.

(** Up to the first [await] after the body is read: load, push the
    pending entry, save. *)
Definition chat_begin (ip prompt now : string) (fs : Files) : Files * Request :=
  let history := loadConversation ip fs in
  let contextPrompt := buildContextPrompt history prompt in
  let history :=
    history ++ [{| prompt := prompt; result := None; txid := None;
                   timestamp := now; pending := true |}] in
  (saveConversation ip history fs,
   {| ip := ip; req_prompt := prompt; history := history;
      contextPrompt := contextPrompt |}).

(** After the answer is posted on-chain:
    [history[history.length - 1] = { prompt, result, txid, timestamp }]. *)
Definition chat_success (r : Request) (result txid now : string) (fs : Files)
  : Files :=
  let final := {| prompt := req_prompt r; result := Some result;
                  txid := Some txid; timestamp := now; pending := false |} in
  let history := <[length (history r) - 1 := final]> (history r) in
  saveConversation (ip r) history fs.

(** The [catch]: remove pending message on failure. *)
Definition chat_failure (ip : string) (fs : Files) : Files :=
  let h := loadConversation ip fs in
  match last h with
  | Some e => if pending e then saveConversation ip (removelast h) fs else fs
  | None => fs
  end.

(** The two calls the handler awaits: the inference call raced against
    the 120 s timer, then [postOnChain]. *)
Record Env := {
  llm : string -> Result string;
  postOnChain : string -> string -> Result string;
  now : string;
}.

(** A whole request served with nothing else running in between.
    [body] is the prompt of the parsed and trimmed body, or the failure
    of [parseBody]. The answer is the status code. *)
Definition chat (env : Env) (ip : string) (body : Result string) (fs : Files)
  : Files * Z :=
  match body with
  | Throw _ => (chat_failure ip fs, 500%Z)
  | Ok "" => (fs, 400%Z)
  | Ok prompt =>
      let '(fs, r) := chat_begin ip prompt (now env) fs in
      match llm env (contextPrompt r) with
      | Throw _ => (chat_failure ip fs, 500%Z)
      | Ok result =>
          match postOnChain env prompt result with
          | Throw _ => (chat_failure ip fs, 500%Z)
          | Ok txid => (chat_success r result txid (now env) fs, 200%Z)
          end
      end
  end.

(** *** Requests in flight together

    The server starts the handler for every request it receives; a
    handler that awaits lets the others run.  An event is one stretch of
    one handler: the beginning of a request up to its first [await] after
    the pending entry is saved, its successful end, its [catch], or the
    [catch] of a request whose body could not be read. *)
Inductive Event :=
| Begin (id : nat) (ip prompt now : string)
| Succeed (id : nat) (result txid now : string)
| Fail (id : nat)
| Reject (ip : string).

Record State := { files : Files; inflight : gmap nat Request }.

Definition exec (e : Event) (s : State) : option State :=
  match e with
  | Begin id ip prompt now =>
      match inflight s !! id with
      | Some _ => None
      | None =>
          let '(fs, r) := chat_begin ip prompt now (files s) in
          Some {| files := fs; inflight := <[id := r]> (inflight s) |}
      end
  | Succeed id result txid now =>
      match inflight s !! id with
      | Some r =>
          Some {| files := chat_success r result txid now (files s);
                  inflight := delete id (inflight s) |}
      | None => None
      end
  | Fail id =>
      match inflight s !! id with
      | Some r =>
          Some {| files := chat_failure (ip r) (files s);
                  inflight := delete id (inflight s) |}
      | None => None
      end
  | Reject ip =>
      Some {| files := chat_failure ip (files s); inflight := inflight s |}
  end.

Fixpoint run (trace : list Event) (s : State) : option State :=
  match trace with
  | [] => Some s
  | e :: rest =>
      match exec e s with
      | Some s' => run rest s'
      | None => None
      end
  end.

Definition pending_count (h : list Entry) : nat :=
  length (List.filter pending h).

(** The conversation kept in the directory [dir]. *)
Definition conversation (dir : string) (s : State) : list Entry :=
  default [] (files s !! dir).

(** A request of the conversation kept in [dir] is in flight. *)
Definition in_flight_for (dir : string) (s : State) : Prop :=
  exists id r, inflight s !! id = Some r ∧ ipToDir (ip r) = dir.

(** A request comes in only when none of the same conversation is in
    flight. *)
Definition no_overlap (e : Event) (s : State) : Prop :=
  match e with
  | Begin _ ip _ _ | Reject ip => ¬ in_flight_for (ipToDir ip) s
  | _ => True
  end.

(** Traces that run, and in which the requests of one conversation do not
    overlap (those of different conversations may). *)
Fixpoint non_overlapping (trace : list Event) (s : State) : Prop :=
  match trace with
  | [] => True
  | e :: rest =>
      no_overlap e s ∧
      match exec e s with
      | Some s' => non_overlapping rest s'
      | None => False
      end
  end.

(** The same, computed. *)
Definition busy (dir : string) (s : State) : bool :=
  existsb (fun kv => String.eqb (ipToDir (ip kv.2)) dir)
          (map_to_list (inflight s)).

Fixpoint non_overlappingb (trace : list Event) (s : State) : bool :=
  match trace with
  | [] => true
  | e :: rest =>
      match e with
      | Begin _ ip _ _ | Reject ip => negb (busy (ipToDir ip) s)
      | _ => true
      end
      && match exec e s with
         | Some s' => non_overlappingb rest s'
         | None => false
         end
  end.

(** What holds between the stretches of non-overlapping requests. *)
Record served (s : State) : Prop := {
  sv_bound : forall dir, (pending_count (conversation dir s) <= 1)%nat;
  sv_idle :
    forall dir, ¬ in_flight_for dir s ->
                pending_count (conversation dir s) = 0%nat;
  sv_busy :
    forall id r, inflight s !! id = Some r ->
      conversation (ipToDir (ip r)) s = history r ∧
      exists h0 e, history r = h0 ++ [e] ∧ pending e = true ∧
                   pending_count h0 = 0%nat;
  sv_unique :
    forall id id' r r',
      inflight s !! id = Some r -> inflight s !! id' = Some r' ->
      ipToDir (ip r) = ipToDir (ip r') -> id = id';
}.

(** The entries the handler writes. *)
Definition pending_entry (prompt now : string) : Entry :=
  {| prompt := prompt; result := None; txid := None;
     timestamp := now; pending := true |}.

Definition final_entry (prompt result txid now : string) : Entry :=
  {| prompt := prompt; result := Some result; txid := Some txid;
     timestamp := now; pending := false |}.

(** The requests in flight that belong to the conversation directory
    [dir]. *)
Definition inflight_for (dir : string) (s : State) : gmap nat Request :=
  filter (fun kv => ipToDir (ip kv.2) = dir) (inflight s).

End Web.

(** ** A concrete setting

    One library, one wallet and a few ledger answers, on which the
    definitions can be run.  The library parses scripts at the wire level;
    the pay-to-address script and the signature stand for the library's. *)

Module Sample.
Import Agent.
Local Open Scope Z_scope.

Definition p2pkh (address : string) : Script.t :=
  let s := Script.add_opcode Script.empty 118 in
  let s := Script.add_opcode s 169 in
  let s := Script.add_buffer s
             (firstn 20 (Sha256.digest (Buffer.from_utf8 address))) in
  let s := Script.add_opcode s 136 in
  Script.add_opcode s 172.

Definition lib : Library :=
  {| Script_fromHex := Script.fromHex;
     Script_buildPublicKeyHashOut := p2pkh;
     Sighash_sign := fun _ _ _ _ _ _ => [x30; x06; x02; x01; x01; x02; x01; x01]%byte |}.

Definition wallet : Wallet :=
  {| wif := "L1aW4aubDFB7yfras2S1mN3bqg9nwySY8nkoLmJebSLD5BWv3ENZ";
     address := "1BoatSLRHtKNngkdXEeobR76b53LETtpyT" |}.

Definition privKey : PrivateKey :=
  {| toWIF := wif wallet;
     toPublicKey := Buffer.byte_of_N 2 :: repeat x11%byte 32;
     toAddress := address wallet |}.

Definition id1 : string :=
  "aaaaaaaaaaaaaaaaaaaaaaaaaaaaaaaaaaaaaaaaaaaaaaaaaaaaaaaaaaaaaaaa".
Definition id2 : string :=
  "0123456789abcdef0123456789abcdef0123456789abcdef0123456789abcdef".
Definition resid : string :=
  "bbbbbbbbbbbbbbbbbbbbbbbbbbbbbbbbbbbbbbbbbbbbbbbbbbbbbbbbbbbbbbbb".

(** The data output of a request: [OP_FALSE OP_RETURN "JOB" <prompt>]. *)
Definition job_script (prompt : string) : Script.t :=
  let s := Script.add_opcode Script.empty Script.OP_FALSE in
  let s := Script.add_opcode s Script.OP_RETURN in
  let s := Script.add_buffer s (Buffer.from_utf8 "JOB") in
  Script.add_buffer s (Buffer.from_utf8 prompt).

(** A request transaction paying [sats] to the agent. *)
Definition request (id prompt : string) (sats : Z) : Ledger.Tx :=
  {| Ledger.txid := id;
     Ledger.vout := Some
       [ {| Ledger.value_sat := 0; Ledger.n := 0;
            Ledger.scriptPubKey := Some
              {| Ledger.type := "nulldata";
                 Ledger.hex := Script.toHex (job_script prompt);
                 Ledger.addresses := None |} |};
         {| Ledger.value_sat := sats; Ledger.n := 1;
            Ledger.scriptPubKey := Some
              {| Ledger.type := "pubkeyhash";
                 Ledger.hex := Script.toHex (p2pkh (address wallet));
                 Ledger.addresses := Some [address wallet] |} |} ] |}.

Definition utxo (sats : Z) : Utxo :=
  {| txid := id1; vout := 1; satoshis := sats;
     script := Script.toHex (p2pkh (address wallet)) |}.

(** An environment: one transaction [id1] in the history of the address,
    given by [fetched]; the backend and the broadcast answer as told. *)
Definition env (fetched : Result (option Ledger.Tx))
    (llm : Result LlmResponse) (broadcast : Result string) : Env :=
  {| get_tx := fun id => if String.eqb id id1 then fetched else Ok None;
     get_history := fun _ => Ok (Some [id1]);
     post_generate := fun _ => llm;
     post_tx_raw := fun _ => broadcast;
     now := "2026-01-01T00:00:00.000Z" |}.

Definition answer (text : string) : Result LlmResponse :=
  Ok {| response := text; thinking := "" |}.

(** The backend answers the call with an error: a status of 404 or 500
    and a JSON object whose only field is [error].  [httpPost] parses the
    body without reading the status, so the call resolves to an object
    with neither a [response] nor a [thinking] field. *)
Definition error_reply : Result LlmResponse :=
  Ok {| response := ""; thinking := "" |}.

Definition world0 : World :=
  {| lastSeenTxids := ∅; jobs_json := []; console := []; broadcasts := [] |}.

(** The request of [id1]: the prompt ["2+2?"] and 3000 satoshis. *)
Definition request1 : Ledger.Tx := request id1 "2+2?" 3000.

(** The ledger has the request, the backend answers ["4"]. *)
Definition env1 (broadcast : Result string) : Env :=
  env (Ok (Some request1)) (answer "4") broadcast.

(** The result of a call that is known to return. *)
Definition get {A} (r : Result A) (d : A) : A :=
  match r with
  | Ok a => a
  | Throw _ => d
  end.

Definition no_response : Response :=
  {| res_tx := Transaction.new; res_isHashed := false; res_keep := 0 |}.

(** The settlement of the request of [id1] answered by [text]. *)
Definition built (text : string) : Response :=
  get (buildResponseTx lib privKey (findOurOutputs request1 (address wallet))
         id1 text)
      no_response.

(** How the ledger shows an output of a broadcast settlement: the hex of
    its script, typed as null data when it is an [OP_FALSE OP_RETURN]
    script. *)
Definition shown (n : Z) (o : Transaction.Output) : Ledger.Vout :=
  {| Ledger.value_sat := Transaction.satoshis o;
     Ledger.n := n;
     Ledger.scriptPubKey := Some
       {| Ledger.type :=
            match Transaction.script o with
            | {| Script.buf := None; Script.opcodenum := 0%N |}
              :: {| Script.buf := None; Script.opcodenum := 106%N |} :: _ =>
                "nulldata"
            | _ => "pubkeyhash"
            end;
          Ledger.hex := Script.toHex (Transaction.script o);
          Ledger.addresses := None |} |}.

Definition on_ledger (id : string) (t : Transaction.t) : Ledger.Tx :=
  {| Ledger.txid := id;
     Ledger.vout := Some (imap (fun i o => shown (Z.of_nat i) o)
                               (Transaction.outputs t)) |}.

(** A result text of 50 001 bytes. *)
Definition long_text : string := string_of_list_byte (repeat "a"%byte (Z.to_nat 50001)).

End Sample.

(** ** Text helpers of the front-ends *)

Module Text.

Definition double_quote : ascii := ascii_of_nat 34.

(** [s.replace(/c/g, new)] for a single character [c]. *)
Fixpoint replace (c : ascii) (new : string) (s : string) : string :=
  match s with
  | EmptyString => EmptyString
  | String a r =>
      if Ascii.eqb a c then new +:+ replace c new r
      else String a (replace c new r)
  end.

(** [s.includes(c)] for a single character [c]. *)
Fixpoint occurs (c : ascii) (s : string) : bool :=
  match s with
  | EmptyString => false
  | String a r => Ascii.eqb a c || occurs c r
  end.

(** [s.split(c)[0]]: what stands before the first [c]. *)
Fixpoint before (c : ascii) (s : string) : string :=
  match s with
  | EmptyString => EmptyString
  | String a r => if Ascii.eqb a c then EmptyString else String a (before c r)
  end.

(** [a || b] when [a] may be [undefined]. *)
Definition or_default (a : option string) (b : string) : string :=
  match a with
  | Some s => Agent.or_else s b
  | None => b
  end.

End Text.

(** ** The gateway's answer to a broadcast ([wocBroadcast])

    The request ends in a response, with its status code and body, or in
    an error of the connection. *)

Module Gateway.

Inductive Exchange :=
| Responded (statusCode : Z) (d : string)
| Failed (message : string).

Definition wocBroadcast (x : Exchange) : Result string :=
  match x with
  | Responded statusCode d =>
      if (400 <=? statusCode)%Z then Throw ("Broadcast: " +:+ d)
      else Ok (Agent.trim (Text.replace Text.double_quote "" d))
  | Failed message => Throw message
  end.

End Gateway.

(** ** Funding a transaction from the unspent outputs of a wallet

    [sendJobTx], [send-job.cjs] and [postOnChain] run the same loop over
    the unspent outputs the gateway lists, each with its own bound.
    Amounts are integers; the library refuses an output whose amount is
    not a natural number, and what is proved of amounts says where it
    takes them to be so. *)

Module Funding.
Local Open Scope Z_scope.

(** An entry of [/address/<a>/unspent]. *)
Record Unspent := { tx_hash : string; tx_pos : Z; value : Z }.

Section WithLibrary.
Variable lib : Library.

Definition input (address : string) (utxo : Unspent) : Transaction.Input :=
  {| Transaction.output :=
       {| Transaction.script := Script_buildPublicKeyHashOut lib address;
          Transaction.satoshis := value utxo |};
     Transaction.prevTxId := tx_hash utxo;
     Transaction.outputIndex := tx_pos utxo;
     Transaction.in_script := Script.empty |}.

(** [for (const utxo of utxos) { tx.addInput(...); totalIn += utxo.value;
    if (totalIn >= enough) break; }] *)
Fixpoint add_inputs (address : string) (enough : Z) (utxos : list Unspent)
    (acc : Transaction.t * Z) : Transaction.t * Z :=
  match utxos with
  | [] => acc
  | utxo :: rest =>
      let t := Transaction.addInput (fst acc) (input address utxo) in
      let totalIn := snd acc + value utxo in
      if enough <=? totalIn then (t, totalIn)
      else add_inputs address enough rest (t, totalIn)
  end.

(** The signing loop, the same in every builder. *)
Definition sign (privKey : PrivateKey) (t : Transaction.t) : Transaction.t :=
  let sighashType := Z.lor Agent.SIGHASH_ALL Agent.SIGHASH_FORKID in
  fold_left (Agent.sign_input lib privKey sighashType)
    (seq 0 (length (Transaction.inputs t))) t.

End WithLibrary.

Definition total (utxos : list Unspent) : Z :=
  fold_right (fun u s => value u + s) 0 utxos.

(** The unlocking script the signing loop sets: the signature followed
    by the byte of the signature type ([ALL | FORKID], 0x41), then the
    public key. *)
Definition unlocking (privKey : PrivateKey) (sig : Buffer.t) : Script.t :=
  let scriptSig := Script.empty in
  let scriptSig := Script.add_buffer scriptSig (sig ++ [x41]%byte) in
  Script.add_buffer scriptSig (toPublicKey privKey).

(** [after] is the input [before], signed. *)
Definition signed (privKey : PrivateKey) (before after : Transaction.Input)
  : Prop :=
  Transaction.output after = Transaction.output before /\
  Transaction.prevTxId after = Transaction.prevTxId before /\
  Transaction.outputIndex after = Transaction.outputIndex before /\
  exists sig, Transaction.in_script after = unlocking privKey sig.

End Funding.

(** ** Sending a job ([sendJobTx] of the bridge, [send-job.cjs]) *)

Module Sender.
Import Agent.
Local Open Scope Z_scope.
Local Open Scope agent_scope.

Section WithLibrary.
Variable lib : Library.
(** [Address.fromString], which refuses what is not an address. *)
Variable Address_fromString : string -> Result string.

Definition fee : Z := 500.

(** [OP_FALSE OP_RETURN "JOB" <prompt>]. *)
Definition opReturn (prompt : string) : Script.t :=
  let s := Script.empty in
  let s := Script.add_opcode s Script.OP_FALSE in
  let s := Script.add_opcode s Script.OP_RETURN in
  let s := Script.add_buffer s (Buffer.from_utf8 "JOB") in
  Script.add_buffer s (Buffer.from_utf8 prompt).

(** The transaction [sendJobTx] builds from the unspent outputs [utxos]
    (there is one at least) before it signs it. *)
Definition jobTx (privKey : PrivateKey) (AGENT_ADDRESS : string)
    (SATS_PER_JOB : Z) (utxos : list Funding.Unspent) (prompt : string)
  : Result Transaction.t :=
  let address := toAddress privKey in
  let '(t, totalIn) :=
    Funding.add_inputs lib address (SATS_PER_JOB + 1000) utxos
      (Transaction.new, 0) in
  (* OP_RETURN: JOB <prompt> *)
  let t := Transaction.addOutput t
             {| Transaction.script := opReturn prompt;
                Transaction.satoshis := 0 |} in
  (* Payment to agent *)
  let? to := Address_fromString AGENT_ADDRESS in
  let t := Transaction.addOutput t
             {| Transaction.script := Script_buildPublicKeyHashOut lib to;
                Transaction.satoshis := SATS_PER_JOB |} in
  (* Change *)
  let change := totalIn - SATS_PER_JOB - fee in
  let t :=
    if 0 <? change then
      Transaction.addOutput t
        {| Transaction.script := Script_buildPublicKeyHashOut lib address;
           Transaction.satoshis := change |}
    else t in
  Ok t.

(** [unspent] is the answer of the gateway ([None]: a 404 or a body that
    is not JSON), [broadcast] the outcome of handing a transaction to the
    ledger. *)
Definition sendJobTx (privKey : PrivateKey) (AGENT_ADDRESS : string)
    (SATS_PER_JOB : Z) (unspent : Result (option (list Funding.Unspent)))
    (broadcast : Transaction.t -> Result string) (prompt : string)
  : Result string :=
  let? utxos := unspent in
  match utxos with
  | None | Some [] => Throw "No UTXOs to fund job"
  | Some utxos =>
      let? t := jobTx privKey AGENT_ADDRESS SATS_PER_JOB utxos prompt in
      (* Sign *)
      let t := Funding.sign lib privKey t in
      broadcast t
  end.

End WithLibrary.

End Sender.

(** ** Posting a chat on the ledger ([postOnChain] of [web.cjs]) *)

Module Chain.
Import Agent.
Local Open Scope Z_scope.
Local Open Scope agent_scope.

Definition FEE_RATE : Z := 1.
Definition MIN_FEE : Z := 300.

Definition no_funds : string :=
  string_of_list_byte
    (list_byte_of_string "Agent wallet has no funds " ++ [xe2; x80; x94]%byte
     ++ list_byte_of_string " please fund ").

Section WithLibrary.
Variable lib : Library.

(** [OP_FALSE OP_RETURN "CHAT" <prompt> <response>]. *)
Definition opReturn (prompt result : string) : Script.t :=
  let s := Script.empty in
  let s := Script.add_opcode s Script.OP_FALSE in
  let s := Script.add_opcode s Script.OP_RETURN in
  let s := Script.add_buffer s (Buffer.from_utf8 "CHAT") in
  let s := Script.add_buffer s (Buffer.from_utf8 prompt) in
  Script.add_buffer s (Buffer.from_utf8 result).

(** Estimate fee from tx size (rough: inputs*150 + data + overhead). *)
Definition fee (inputs : nat) (prompt result : string) : Z :=
  let dataSize :=
    Z.of_nat (length (Buffer.from_utf8 prompt))
    + Z.of_nat (length (Buffer.from_utf8 result)) + 20 in
  let estimatedSize := Z.of_nat inputs * 150 + dataSize + 50 in
  Z.max MIN_FEE (estimatedSize * FEE_RATE).

(** The transaction [postOnChain] builds from the unspent outputs
    [utxos] before it signs it. *)
Definition chatTx (privKey : PrivateKey) (utxos : list Funding.Unspent)
    (prompt result : string) : Transaction.t :=
  let address := toAddress privKey in
  let '(t, totalIn) :=
    Funding.add_inputs lib address 5000 utxos (Transaction.new, 0) in
  let t := Transaction.addOutput t
             {| Transaction.script := opReturn prompt result;
                Transaction.satoshis := 0 |} in
  let fee := fee (length (Transaction.inputs t)) prompt result in
  (* Change back to self *)
  let change := totalIn - fee in
  if 546 <=? change then
    Transaction.addOutput t
      {| Transaction.script := Script_buildPublicKeyHashOut lib address;
         Transaction.satoshis := change |}
  else t.

Definition postOnChain (privKey : PrivateKey)
    (unspent : Result (option (list Funding.Unspent)))
    (broadcast : Transaction.t -> Result string) (prompt result : string)
  : Result string :=
  let? utxos := unspent in
  match utxos with
  | None | Some [] => Throw (no_funds +:+ toAddress privKey)
  | Some utxos =>
      let t := chatTx privKey utxos prompt result in
      (* Sign *)
      let t := Funding.sign lib privKey t in
      broadcast t
  end.

End WithLibrary.

End Chain.

(** ** The viewer ([viewer.cjs]) *)

Module Viewer.
Import Agent.
Local Open Scope Z_scope.

(** [String(s || '')] with the four replacements, in the order of the
    code. *)
Definition escapeHtml (s : option string) : string :=
  let s := Text.or_default s "" in
  let s := Text.replace "&" "&amp;" s in
  let s := Text.replace "<" "&lt;" s in
  let s := Text.replace ">" "&gt;" s in
  Text.replace Text.double_quote "&quot;" s.

(** What a single character comes out as. *)
Definition entity (a : ascii) : string :=
  if Ascii.eqb a "&" then "&amp;"
  else if Ascii.eqb a "<" then "&lt;"
  else if Ascii.eqb a ">" then "&gt;"
  else if Ascii.eqb a Text.double_quote then "&quot;"
  else String a "".

(** The figures of [renderHTML] and of [/api/status]. *)
Definition totalEarned (jobs : list Job) : Z :=
  fold_left (fun s j => s + satsKept j) jobs 0.

Definition totalReceived (jobs : list Job) : Z :=
  fold_left (fun s j => s + satsReceived j) jobs 0.

Definition successCount (jobs : list Job) : nat :=
  length (List.filter (fun j => Bridge.truthy (resTxid j)) jobs).

Definition failCount (jobs : list Job) : nat :=
  length (List.filter (fun j => negb (Bridge.truthy (resTxid j))) jobs).

End Viewer.

(** ** Who is asking ([getClientIP] of the front-ends) *)

Module Front.

(** What the handler reads of a request: two headers and the address of
    the socket, each of which may be missing. *)
Record Req := {
  x_forwarded_for : option string;
  x_real_ip : option string;
  remoteAddress : option string;
}.

Definition getClientIP (req : Req) : string :=
  Text.or_default
    (option_map (fun s => Agent.trim (Text.before "," s)) (x_forwarded_for req))
    (Text.or_default (x_real_ip req)
       (Text.or_default (remoteAddress req) "0.0.0.0")).

End Front.

(** ** What the agent leaves behind: its job file and its broadcasts *)

Module Books.
Import Agent.
Local Open Scope Z_scope.

(** The two kinds of record [processJob] writes: a settled job, and a
    job whose settlement the ledger refused. *)
Definition settled (j : Job) : bool :=
  match resTxid j, error j, isHashed j with
  | Some _, None, Some _ => satsKept j =? satsReceived j - FEE
  | _, _, _ => false
  end.

Definition refused (j : Job) : bool :=
  match resTxid j, error j, isHashed j with
  | None, Some _, None => satsKept j =? 0
  | _, _, _ => false
  end.

(** The transaction [t] is a settlement of the job of the record [j]:
    its first output is the data output that refers to the job, with the
    text the record holds (or stands for, when it was hashed). *)
Definition answers (j : Job) (t : Transaction.t) : Prop :=
  exists resultText,
    Transaction.outputs t !! 0%nat = Some (data_output (jobTxid j) resultText) /\
    (result j = resultText \/
     (result j = hashed_marker /\ snd (resultBuf resultText) = true)).

(** The input [inp] of a settlement spends the output [u] of the
    request, with the funding script the library read from its hex, and
    is signed. *)
Definition spends (lib : Library) (privKey : PrivateKey) (u : Utxo)
    (inp : Transaction.Input) : Prop :=
  Transaction.prevTxId inp = txid u /\
  Transaction.outputIndex inp = vout u /\
  Transaction.satoshis (Transaction.output inp) = satoshis u /\
  Script_fromHex lib (script u)
  = Ok (Transaction.script (Transaction.output inp)) /\
  exists sig, Transaction.in_script inp = Funding.unlocking privKey sig.

(** [w'] is [w] with records and broadcasts added, one record for each
    broadcast. *)
Definition extends (w w' : World) : Prop :=
  exists added sent,
    jobs_json w' = jobs_json w ++ added /\
    broadcasts w' = broadcasts w ++ sent /\
    Forall2 answers added sent /\
    Forall (fun j => settled j = true \/ refused j = true) added.

(** [w'] is [w] with records added for jobs that had none, one at most
    for each. *)
Definition fresh (w w' : World) : Prop :=
  exists added,
    jobs_json w' = jobs_json w ++ added /\
    NoDup (map jobTxid added) /\
    Forall (fun j => some_job (jobTxid j) (jobs_json w) = false) added.

End Books.

(** ** A customer of the agent

    The wallet of someone who sends a job, for running the sender. *)

Module Customer.
Local Open Scope Z_scope.

Definition privKey : PrivateKey :=
  {| toWIF := "KwDiBf89QgGbjEhKnhXJuH7LrciVrZi3qYjgd9M7rFU73sVHnoWn";
     toPublicKey := Buffer.byte_of_N 3 :: repeat x22%byte 32;
     toAddress := "1EHNa6Q4Jz2uvNExL497mE43ikXhwF6kZm" |}.

(** Every text is taken for an address. *)
Definition Address_fromString (s : string) : Result string := Ok s.

Definition unspent : list Funding.Unspent :=
  [ {| Funding.tx_hash := Sample.id2; Funding.tx_pos := 0;
       Funding.value := 2500 |};
    {| Funding.tx_hash := Sample.id2; Funding.tx_pos := 1;
       Funding.value := 2000 |};
    {| Funding.tx_hash := Sample.resid; Funding.tx_pos := 0;
       Funding.value := 9000 |} ].

End Customer.

(** ** The model behind the chat ([askLLM] of [web.cjs]) *)

Module Chat.
Import Agent.

(** The reply of the backend to [/api/chat], [JSON.parse]d:
    [resp.message?.content], which may be missing, and [resp.thinking],
    the empty string when absent. *)
Record ChatResponse := { content : option string; thinking : string }.

Definition askLLM (post_chat : Result ChatResponse) : string :=
  match post_chat with
  | Ok resp =>
      let answer := Text.or_default (content resp) "" in
      let answer :=
        if String.eqb answer "" && negb (String.eqb (thinking resp) "")
        then thinking resp else answer in
      let answer := trim (strip_think (String.length answer) answer) in
      or_else answer "(no response)"
  | Throw message => "Error: " +:+ message
  end.

Definition llm_timeout : string :=
  string_of_list_byte
    (list_byte_of_string "LLM timeout " ++ [xe2; x80; x94]%byte
     ++ list_byte_of_string " try again").

(** [Promise.race([askLLM(contextPrompt), llmTimeout])]: the answer when
    it comes within 120 s, the rejection of the timer otherwise. *)
Definition raced (in_time : bool) (answer : string) : Result string :=
  if in_time then Ok answer else Throw llm_timeout.

(** The handler with this model behind it: [post_chat] is the outcome of
    the request to the backend for a prompt, [in_time] whether the answer
    comes before the timer, [post] the outcome of [postOnChain]. *)
Definition env (post_chat : string -> Result ChatResponse) (in_time : bool)
    (post : string -> string -> Result string) (now : string) : Web.Env :=
  {| Web.llm :=
       fun contextPrompt => raced in_time (askLLM (post_chat contextPrompt));
     Web.postOnChain := post;
     Web.now := now |}.

End Chat.

(** ** Where an answer of the bridge comes from *)

Module Answers.
Import Agent.

(** The output [v] is a null-data output whose script, as the library
    reads it, pushes the tag [RES], the id [jobTxid] in reverse byte
    order, and the text. *)
Definition is_response (lib : Library) (jobTxid text : string)
    (v : Ledger.Vout) : Prop :=
  exists spk script tag ref payload more,
    Ledger.scriptPubKey v = Some spk /\
    Ledger.type spk = "nulldata" /\
    Script_fromHex lib (Ledger.hex spk) = Ok script /\
    pushes_of script = tag :: ref :: payload :: more /\
    Buffer.toString_utf8 tag = "RES" /\
    Buffer.toString_hex (rev ref) = jobTxid /\
    text = Buffer.toString_utf8 payload.

(** The job file of the round holds a record of the job with a response
    id and the text. *)
Definition in_job_file (r : Bridge.Round) (jobTxid text : string) : Prop :=
  exists j,
    In j (default [] (Bridge.jobs_file r)) /\
    Agent.jobTxid j = jobTxid /\ Bridge.truthy (resTxid j) = true /\
    result j = text.

(** A transaction of the history the round sees has such an output. *)
Definition on_ledger (lib : Library) (r : Bridge.Round) (jobTxid text : string)
  : Prop :=
  exists history h tx vouts v,
    Bridge.history_now r = Ok (Some history) /\ In h history /\
    Bridge.tx_now r h = Ok (Some tx) /\ Ledger.vout tx = Some vouts /\
    In v vouts /\ is_response lib jobTxid text v.

End Answers.

(** * Properties *)

(** The constants as FIPS 180-4 prints them (first and last). *)
Example sha256_constants :
  head Sha256.K = Some 0x428a2f98%Z ∧ last Sha256.K = Some 0xc67178f2%Z ∧
  length Sha256.K = 64%nat ∧
  Sha256.a Sha256.H0 = 0x6a09e667%Z ∧ Sha256.h Sha256.H0 = 0x5be0cd19%Z.
Proof. vm_compute. split_and!; reflexivity. Qed.

(** Known answers (FIPS 180-4 test vectors). *)
Example sha256_abc :
  Sha256.hexdigest (Buffer.from_utf8 "abc")
  = "ba7816bf8f01cfea414140de5dae2223b00361a396177a9cb410ff61f20015ad".
Proof. vm_compute. reflexivity. Qed.

Example sha256_empty :
  Sha256.hexdigest []
  = "e3b0c44298fc1c149afbf4c8996fb92427ae41e4649b934ca495991b7852b855".
Proof. vm_compute. reflexivity. Qed.

Example sha256_two_blocks :
  Sha256.hexdigest (repeat "a"%byte 56)
  = "b35439a4ac6f0948b6d6f9e3c6af0f5f590ce20f1bde7090ef7970686ec6738a".
Proof. vm_compute. reflexivity. Qed.

Example agent_settles_a_job :
  let w := snd (Agent.pollForJobs Sample.lib
                  (Sample.env (Ok (Some (Sample.request Sample.id1 "2+2?" 3000)))
                              (Sample.answer "4") (Ok Sample.resid))
                  Sample.wallet Sample.privKey Sample.world0) in
  map (fun j => (Agent.jobTxid j, Agent.resTxid j, Agent.prompt j, Agent.result j,
                 Agent.satsReceived j, Agent.satsKept j))
      (Agent.jobs_json w)
  = [ (Sample.id1, Some Sample.resid, "2+2?", "4", 3000%Z, 2700%Z) ].
Proof. vm_compute. reflexivity. Qed.

(** The same tick again changes nothing. *)
Example second_tick_is_a_no_op :
  let env := Sample.env1 (Ok Sample.resid) in
  let w1 := snd (Agent.pollForJobs Sample.lib env Sample.wallet Sample.privKey
                   Sample.world0) in
  let w2 := snd (Agent.pollForJobs Sample.lib env Sample.wallet Sample.privKey w1) in
  length (Agent.jobs_json w1) = 1%nat ∧
  Agent.jobs_json w2 = Agent.jobs_json w1 ∧
  Agent.console w2 = Agent.console w1 ∧
  Agent.broadcasts w2 = Agent.broadcasts w1.
Proof. vm_compute. split_and!; reflexivity. Qed.

(** ** Hex encoding *)

Section Hex.
Import Buffer.

Lemma to_N_byte_of_N (n : N) : (n < 256)%N -> Byte.to_N (byte_of_N n) = n.
Proof.
  intros Hn. unfold byte_of_N.
  destruct (Byte.of_N n) as [y|] eqn:E.
  - now apply Byte.to_of_N.
  - apply Byte.of_N_None_iff in E. lia.
Qed.

Lemma byte_of_N_to_N (x : byte) : byte_of_N (Byte.to_N x) = x.
Proof. unfold byte_of_N. now rewrite Byte.of_to_N. Qed.

Lemma hex_of_byte (x : byte) :
  hexval (hexchar (Byte.to_N x / 16)) = Some (Byte.to_N x / 16)%N /\
  hexval (hexchar (Byte.to_N x mod 16)) = Some (Byte.to_N x mod 16)%N.
Proof. destruct x; vm_compute; split; reflexivity. Qed.

(** Decoding what [toString('hex')] wrote gives the bytes back. *)
Lemma from_hex_toString_hex (b : Buffer.t) : from_hex (toString_hex b) = b.
Proof.
  induction b as [|x r IH]; [reflexivity|].
  cbn [toString_hex from_hex].
  destruct (hex_of_byte x) as [-> ->]. rewrite IH. f_equal.
  transitivity (byte_of_N (Byte.to_N x)); [|apply byte_of_N_to_N].
  f_equal. symmetry. apply N.div_mod'.
Qed.

Lemma toString_hex_length (b : Buffer.t) :
  String.length (toString_hex b) = (2 * length b)%nat.
Proof. induction b as [|x r IH]; cbn [toString_hex String.length length]; lia. Qed.

Lemma hexchar_lower (n : N) : (n < 16)%N -> is_lower_hex (hexchar n) = true.
Proof.
  intros Hn.
  assert (In n [0;1;2;3;4;5;6;7;8;9;10;11;12;13;14;15]%N) as Hin.
  { cbn. lia. }
  cbn in Hin. repeat destruct Hin as [<-|Hin]; try reflexivity. contradiction.
Qed.

Lemma toString_hex_lower (b : Buffer.t) : all_lower_hex (toString_hex b) = true.
Proof.
  induction b as [|x r IH]; [reflexivity|].
  cbn [toString_hex all_lower_hex]. rewrite IH.
  pose proof (Byte.to_N_bounded x).
  rewrite !hexchar_lower; [reflexivity| |].
  - apply N.mod_lt. lia.
  - apply N.Div0.div_lt_upper_bound. lia.
Qed.

Lemma lower_hex_digit (a : ascii) : is_lower_hex a = true -> In a lower_digits.
Proof.
  destruct a as [[] [] [] [] [] [] [] []]; vm_compute; intros H;
    try discriminate H; tauto.
Qed.

Lemma lower_hex_value (a : ascii) :
  is_lower_hex a = true ->
  exists h, (h < 16)%N /\ hexval a = Some h /\ hexchar h = a.
Proof.
  intros Ha. apply lower_hex_digit in Ha. cbn in Ha.
  repeat destruct Ha as [<-|Ha]; try contradiction;
    eexists; (split; [|split; [vm_compute; reflexivity | reflexivity]]);
    reflexivity.
Qed.

Lemma nibbles (h l : N) :
  (h < 16)%N -> (l < 16)%N ->
  (Byte.to_N (byte_of_N (16 * h + l)) / 16 = h /\
   Byte.to_N (byte_of_N (16 * h + l)) mod 16 = l)%N.
Proof.
  intros Hh Hl. rewrite to_N_byte_of_N by lia. split.
  - rewrite (N.mul_comm 16 h), N.div_add_l by lia.
    rewrite N.div_small by assumption. lia.
  - rewrite N.add_comm, (N.mul_comm 16 h), N.Div0.mod_add.
    now apply N.mod_small.
Qed.

Lemma hex_pair (a b : ascii) :
  is_lower_hex a = true -> is_lower_hex b = true ->
  exists h l, hexval a = Some h /\ hexval b = Some l /\
    hexchar (Byte.to_N (byte_of_N (16 * h + l)) / 16) = a /\
    hexchar (Byte.to_N (byte_of_N (16 * h + l)) mod 16) = b.
Proof.
  intros Ha Hb.
  destruct (lower_hex_value a Ha) as (h & Hh & Eh & <-).
  destruct (lower_hex_value b Hb) as (l & Hl & El & <-).
  exists h, l. destruct (nibbles h l Hh Hl) as [-> ->]. now split_and!.
Qed.

Lemma toString_hex_from_hex_n (n : nat) (s : string) :
  String.length s = (2 * n)%nat -> all_lower_hex s = true ->
  toString_hex (from_hex s) = s /\ length (from_hex s) = n.
Proof.
  revert s. induction n as [|n IH]; intros s Hlen Hhex.
  - destruct s; [split; reflexivity | discriminate].
  - destruct s as [|a [|b r]]; try (cbn in Hlen; lia).
    cbn [all_lower_hex] in Hhex.
    apply andb_true_iff in Hhex as [Ha Hhex].
    apply andb_true_iff in Hhex as [Hb Hr].
    destruct (hex_pair a b Ha Hb) as (h & l & Eh & El & E1 & E2).
    cbn [from_hex]. rewrite Eh, El. cbn [toString_hex length].
    rewrite E1, E2.
    destruct (IH r) as [-> ->]; [cbn in Hlen; lia | assumption |].
    split; reflexivity.
Qed.

(** Encoding the bytes of a ledger id gives the id back, and an id is 32
    bytes. *)
Lemma txid_hex_roundtrip (s : string) :
  Ledger.is_txid s ->
  toString_hex (from_hex s) = s /\ length (from_hex s) = 32%nat.
Proof. intros [Hlen Hhex]. now apply (toString_hex_from_hex_n 32). Qed.

End Hex.

(** ** Scripts on the wire: parsing what was serialised *)

Section Wire.
Import Script.
Local Open Scope N_scope.

Lemma le_bytes_length (k : nat) (n : N) : length (le_bytes k n) = k.
Proof. revert n. induction k; intros; cbn; [reflexivity | now rewrite IHk]. Qed.

Lemma le_val_le_bytes (k : nat) (n : N) :
  n < 256 ^ N.of_nat k -> le_val (le_bytes k n) = n.
Proof.
  revert n. induction k as [|k IH]; intros n Hn.
  - cbn in *. lia.
  - cbn [le_bytes le_val].
    rewrite to_N_byte_of_N by (apply N.mod_lt; lia).
    rewrite IH.
    + rewrite N.add_comm. symmetry. apply N.div_mod'.
    + apply N.Div0.div_lt_upper_bound.
      replace (N.of_nat (S k)) with (N.succ (N.of_nat k)) in Hn by lia.
      now rewrite N.pow_succ_r' in Hn.
Qed.

Lemma read_push_le (k : nat) (op : N) (b rest : list byte) :
  N.of_nat (length b) < 256 ^ N.of_nat k ->
  read_push k op (le_bytes k (N.of_nat (length b)) ++ b ++ rest)
  = Ok (Chunk (Some b) op, rest).
Proof.
  intros Hlen. unfold read_push.
  rewrite length_app, le_bytes_length.
  destruct (Nat.ltb_spec (k + length (b ++ rest)) k) as [?|_]; [lia|].
  pose proof (eq_sym (le_bytes_length k (N.of_nat (length b)))) as Hk.
  rewrite (take_app_length' _ _ k Hk), (drop_app_length' _ _ k Hk).
  rewrite le_val_le_bytes by assumption.
  rewrite Nat2N.id, take_app_length, drop_app_length. reflexivity.
Qed.

Lemma parse_chunk (c : chunk) (rest : list byte) (fuel : nat) :
  wf_chunk c ->
  parse (S fuel) (chunk_bytes c ++ rest)
  = match parse fuel rest with
    | Ok cs => Ok (c :: cs)
    | Throw m => Throw m
    end.
Proof.
  destruct c as [[b|] op]; unfold wf_chunk, chunk_bytes; cbn [buf opcodenum].
  - intros (Hne & -> & Hlen).
    assert (0 < N.of_nat (length b)) as Hpos.
    { destruct b; [congruence | cbn; lia]. }
    set (len := N.of_nat (length b)) in *.
    unfold opcode_for, OP_PUSHDATA1, OP_PUSHDATA2, OP_PUSHDATA4.
    destruct (N.ltb_spec len 76) as [H1|H1].
    + rewrite (proj2 (N.ltb_lt len 76) H1).
      cbn [app parse]. rewrite to_N_byte_of_N by lia.
      unfold OP_PUSHDATA1.
      rewrite (proj2 (N.ltb_lt 0 len) Hpos), (proj2 (N.ltb_lt len 76) H1).
      cbn [andb]. subst len.
      rewrite Nat2N.id, take_app_length, drop_app_length. reflexivity.
    + destruct (N.ltb_spec len 256) as [H2|H2];
        [|destruct (N.ltb_spec len 65536) as [H3|H3]];
        cbn [N.ltb N.compare Pos.compare Pos.compare_cont N.eqb Pos.eqb];
        cbn [app parse]; rewrite to_N_byte_of_N by lia;
        cbn [N.ltb N.compare Pos.compare Pos.compare_cont N.eqb Pos.eqb andb];
        subst len;
        rewrite <- app_assoc, read_push_le by (cbn; lia); reflexivity.
  - intros Hop. cbn [app parse].
    rewrite to_N_byte_of_N by (unfold OP_PUSHDATA4 in Hop; lia).
    unfold OP_PUSHDATA1, OP_PUSHDATA2, OP_PUSHDATA4 in *.
    destruct (N.ltb_spec 0 op); destruct (N.ltb_spec op 76);
      destruct (N.eqb_spec op 76); destruct (N.eqb_spec op 77);
      destruct (N.eqb_spec op 78); try lia; reflexivity.
Qed.

Lemma parse_toBuffer (cs : Script.t) (fuel : nat) :
  Forall wf_chunk cs -> (length cs <= fuel)%nat ->
  parse fuel (toBuffer cs) = Ok cs.
Proof.
  intros Hwf. revert fuel.
  induction Hwf as [|c cs Hc _ IH]; intros fuel Hfuel.
  - destruct fuel; reflexivity.
  - destruct fuel as [|fuel]; [cbn in Hfuel; lia|].
    unfold toBuffer. cbn [flat_map].
    rewrite parse_chunk by assumption.
    unfold toBuffer in IH. rewrite IH; [reflexivity | cbn in Hfuel; lia].
Qed.

Lemma chunk_bytes_length (c : chunk) : (1 <= length (chunk_bytes c))%nat.
Proof. unfold chunk_bytes. cbn. lia. Qed.

Lemma toBuffer_length (cs : Script.t) : (length cs <= length (toBuffer cs))%nat.
Proof.
  induction cs as [|c cs IH]; [cbn; lia|].
  unfold toBuffer in *. cbn [flat_map]. rewrite length_app.
  pose proof (chunk_bytes_length c). cbn [length]. lia.
Qed.

(** Reading back the hex of a script built from well-formed chunks gives
    the same chunks. *)
Lemma fromHex_toHex (cs : Script.t) :
  Forall wf_chunk cs -> fromHex (toHex cs) = Ok cs.
Proof.
  intros Hwf. unfold fromHex, toHex, fromBuffer.
  rewrite from_hex_toString_hex.
  apply parse_toBuffer; [assumption | apply toBuffer_length].
Qed.

End Wire.

(** ** The agent: what one job does to the world *)

Section Job.
Import Agent.
Local Open Scope Z_scope.

Variable lib : Library.
Variable env : Env.
Variable wallet : Wallet.
Variable privKey : PrivateKey.

Lemma grow_nil (w : World) : grow w [] [] [] = w.
Proof. destruct w. unfold grow. cbn. now rewrite !app_nil_r. Qed.

Lemma processJob_settled txid tx prompt built resTxid w :
  reaches_broadcast lib env wallet privKey txid tx prompt built ->
  post_tx_raw env (res_tx built) = Ok resTxid ->
  let result := askLLM env prompt in
  let received := sum_satoshis (findOurOutputs tx (address wallet)) in
  processJob lib env wallet privKey txid w
  = (Ok tt,
     grow w [success_record env txid resTxid prompt result received built]
       ([NewTx txid; JobPrompt prompt; Received received; Thinking;
         ResultIs result; Broadcasting; ResponseTx resTxid;
         Kept (res_keep built)]
        ++ if res_isHashed built then [HashedWarning] else [])
       [res_tx built]).
Proof.
  intros [Hf Hp Hne Hu Hb] Hpost. cbn zeta.
  unfold processJob, bind, await, log, try_catch, saveJob, wocBroadcast,
    loadJobs, writeJobs, ret. cbn.
  rewrite Hf, Hp. destruct prompt as [|c p]; [congruence|].
  destruct (findOurOutputs tx (address wallet)) as [|u us] eqn:Eu; [congruence|].
  cbn. rewrite Hb, Hpost. unfold grow, success_record, sum_satoshis. cbn.
  destruct (res_isHashed built); cbn; rewrite <- ?app_assoc; reflexivity.
Qed.

Lemma processJob_failed txid tx prompt built message w :
  reaches_broadcast lib env wallet privKey txid tx prompt built ->
  post_tx_raw env (res_tx built) = Throw message ->
  let result := askLLM env prompt in
  let received := sum_satoshis (findOurOutputs tx (address wallet)) in
  processJob lib env wallet privKey txid w
  = (Ok tt,
     grow w [failure_record env txid message prompt result received]
       [NewTx txid; JobPrompt prompt; Received received; Thinking;
        ResultIs result; Broadcasting; BroadcastFailed message]
       [res_tx built]).
Proof.
  intros [Hf Hp Hne Hu Hb] Hpost. cbn zeta.
  unfold processJob, bind, await, log, try_catch, saveJob, wocBroadcast,
    loadJobs, writeJobs, ret. cbn.
  rewrite Hf, Hp. destruct prompt as [|c p]; [congruence|].
  destruct (findOurOutputs tx (address wallet)) as [|u us] eqn:Eu; [congruence|].
  cbn. rewrite Hb, Hpost. unfold grow, failure_record, sum_satoshis. cbn.
  rewrite <- ?app_assoc; reflexivity.
Qed.

Ltac effect_leaf :=
  unfold grow; cbn; rewrite <- ?app_assoc; cbn [app];
  first
    [ solve [ eexists [], _, []; rewrite ?app_nil_r;
              split; [reflexivity|]; split; [now left|]; split;
              [intros id; reflexivity | cbn; lia] ]
    | solve [ eexists [], _, [_]; rewrite ?app_nil_r;
              split; [reflexivity|]; split; [now left|]; split;
              [intros id; reflexivity | cbn; lia] ]
    | solve [ eexists [_], _, [_];
              split; [reflexivity|]; split;
              [right; eexists; split; reflexivity|]; split;
              [intros id; reflexivity | cbn; lia] ] ].

(** Whatever happens, [processJob] leaves the set of seen ids alone, adds
    at most one record, keyed by the id it was given, prints its first
    line once, and hands at most one transaction to the ledger. *)
Lemma processJob_effect txid w :
  exists added lines sent,
    snd (processJob lib env wallet privKey txid w)
    = grow w added (NewTx txid :: lines) sent /\
    (added = [] \/ exists j, added = [j] /\ jobTxid j = txid) /\
    (forall id, List.filter (is_NewTx id) lines = []) /\
    (length sent <= 1)%nat.
Proof.
  unfold processJob, bind, await, log, try_catch, saveJob, wocBroadcast,
    loadJobs, writeJobs, ret. cbn.
  destruct (get_tx env txid) as [[tx|]|m]; cbn; try effect_leaf.
  destruct (parseJobFromTx lib tx) as [[[|c p]|]|m]; cbn; try effect_leaf.
  destruct (findOurOutputs tx (address wallet)) as [|u us]; cbn;
    try effect_leaf.
  match goal with
  | |- context [buildResponseTx ?a ?b ?c ?d ?e] =>
      destruct (buildResponseTx a b c d e) as [built|m]
  end; cbn; try effect_leaf.
  destruct (post_tx_raw env (res_tx built)) as [resTxid|m]; cbn;
    try effect_leaf.
  destruct (res_isHashed built); cbn; effect_leaf.
Qed.

End Job.

(** ** The poll loop *)

Section Poll.
Import Agent.

Variable lib : Library.
Variable wallet : Wallet.
Variable privKey : PrivateKey.

Lemma entries_for_app id (l1 l2 : list Job) :
  entries_for id (l1 ++ l2) = entries_for id l1 ++ entries_for id l2.
Proof. unfold entries_for. apply List.filter_app. Qed.

Lemma some_job_entries id (jobs : list Job) :
  some_job id jobs = false <-> entries_for id jobs = [].
Proof.
  unfold some_job, entries_for.
  induction jobs as [|j r IH]; cbn; [tauto|].
  destruct (String.eqb (jobTxid j) id); cbn; [|exact IH].
  split; discriminate.
Qed.

Lemma some_job_app id (l1 l2 : list Job) :
  some_job id l1 = true -> some_job id (l1 ++ l2) = true.
Proof. unfold some_job. rewrite existsb_app. now intros ->. Qed.

Lemma times_processed_app id (l1 l2 : list LogLine) :
  times_processed id (l1 ++ l2)
  = (times_processed id l1 + times_processed id l2)%nat.
Proof. unfold times_processed. now rewrite List.filter_app, length_app. Qed.

Lemma about_mark id txid w : about id (mark txid w) = about id w.
Proof. reflexivity. Qed.

(** One history entry: nothing happens for an id already seen; an id
    already recorded is only marked; otherwise the job is processed in
    the marked world. *)
Lemma poll_entry_cases env txid w :
  (txid ∈ lastSeenTxids w ∧
   poll_entry lib env wallet privKey txid w = (Ok tt, w)) ∨
  ((txid ∉ lastSeenTxids w) ∧ some_job txid (jobs_json w) = true ∧
   poll_entry lib env wallet privKey txid w = (Ok tt, mark txid w)) ∨
  ((txid ∉ lastSeenTxids w) ∧ some_job txid (jobs_json w) = false ∧
   poll_entry lib env wallet privKey txid w
   = processJob lib env wallet privKey txid (mark txid w)).
Proof.
  unfold poll_entry, seen_has, seen_add, isJobProcessed, loadJobs, ret.
  unfold bind. cbv beta iota. case_bool_decide as Hin.
  - left. split; [exact Hin | reflexivity].
  - right. fold (mark txid w). cbv beta iota.
    change (jobs_json (mark txid w)) with (jobs_json w).
    destruct (some_job txid (jobs_json w)) eqn:Ej.
    + left. split; [exact Hin | split; reflexivity].
    + right. split; [exact Hin | split; reflexivity].
Qed.

(** The effect of one history entry on what is known about [id]. *)
Lemma poll_entry_about env txid id w :
  let w' := snd (poll_entry lib env wallet privKey txid w) in
  lastSeenTxids w ⊆ lastSeenTxids w' ∧
  txid ∈ lastSeenTxids w' ∧
  (id ∈ lastSeenTxids w' → id ∈ lastSeenTxids w ∨ id = txid) ∧
  (∃ added, jobs_json w' = jobs_json w ++ added) ∧
  (about id w' = about id w ∨
   (id = txid ∧ (id ∉ lastSeenTxids w) ∧ some_job id (jobs_json w) = false ∧
    times_processed id (console w')
    = (times_processed id (console w) + 1)%nat ∧
    (length (entries_for id (jobs_json w')) <= 1)%nat)).
Proof.
  cbn zeta.
  destruct (poll_entry_cases env txid w)
    as [[Hin ->] | [(Hout & Hj & ->) | (Hout & Hj & ->)]]; cbn [snd].
  - split_and!; [set_solver | set_solver | set_solver | | now left].
    exists []. now rewrite app_nil_r.
  - split_and!; [cbn; set_solver | cbn; set_solver | cbn; set_solver | | now left].
    exists []. now rewrite app_nil_r.
  - destruct (processJob_effect lib env wallet privKey txid (mark txid w))
      as (added & lines & sent & -> & Hadded & Hlines & _).
    cbn [snd grow mark console jobs_json lastSeenTxids].
    split_and!; [set_solver | set_solver | set_solver | now exists added |].
    destruct (String.eqb_spec txid id) as [->|Hne].
    + right. repeat split; try assumption.
      * rewrite times_processed_app. unfold times_processed at 2.
         cbn [List.filter is_NewTx]. rewrite String.eqb_refl. cbn [length].
         rewrite Hlines. cbn. lia.
      * rewrite entries_for_app.
         apply some_job_entries in Hj. rewrite Hj. cbn [app].
         destruct Hadded as [-> | (j & -> & _)]; cbn;
           [lia | destruct (String.eqb _ _); cbn; lia].
    + left. unfold about. cbn [snd grow mark console jobs_json]. f_equal.
      * rewrite entries_for_app.
         destruct Hadded as [-> | (j & -> & Hid)]; cbn;
           [now rewrite app_nil_r|].
         rewrite Hid. destruct (String.eqb_spec txid id); [congruence|].
         now rewrite app_nil_r.
      * rewrite times_processed_app. unfold times_processed at 2.
         cbn [List.filter is_NewTx].
         destruct (String.eqb_spec txid id); [congruence|].
         rewrite Hlines. cbn. lia.
Qed.

Lemma poll_invariant_refl id w : poll_invariant id w w.
Proof.
  split;
    first [ reflexivity | lia | (exists []; now rewrite app_nil_r)
          | (intros _; reflexivity) ].
Qed.

Lemma poll_entry_invariant env txid id w0 w :
  poll_invariant id w0 w ->
  poll_invariant id w0 (snd (poll_entry lib env wallet privKey txid w)).
Proof.
  intros [Hseen [added0 Hjobs] Hunseen Htimes Hentries Hguard].
  destruct (poll_entry_about env txid id w)
    as (Hs & Hin & Hinv & [added Hj] & Habout).
  set (w' := snd (poll_entry lib env wallet privKey txid w)) in *.
  assert (forall a b, about id a = about id b ->
          (times_processed id (console a) = times_processed id (console b)
           ∧ entries_for id (jobs_json a) = entries_for id (jobs_json b)))
    as Hsplit.
  { unfold about. intros a b [= -> ->]. split; reflexivity. }
  split.
  - set_solver.
  - exists (added0 ++ added). rewrite Hj, Hjobs. now rewrite app_assoc.
  - intros Hout. destruct Habout as [-> | (-> & _)]; [|contradiction].
    apply Hunseen. set_solver.
  - destruct Habout as [E | (-> & Hout & _ & -> & _)].
    + apply Hsplit in E as [-> _]. assumption.
    + destruct (Hsplit _ _ (Hunseen Hout)) as [-> _]. lia.
  - destruct Habout as [E | (-> & Hout & _ & _ & Hle)].
    + apply Hsplit in E as [_ ->]. assumption.
    + lia.
  - intros Hg. destruct Habout as [E | (-> & Hout & Hnj & _)].
    + rewrite E. now apply Hguard.
    + exfalso. destruct Hg as [Hg | Hg]; [set_solver|].
      rewrite Hjobs in Hnj. rewrite (some_job_app _ _ _ Hg) in Hnj.
      discriminate.
Qed.

Lemma for_of_invariant {A} (P : World -> Prop) (body : A -> M unit) l :
  (forall x w, P w -> P (snd (body x w))) ->
  forall w, P w -> P (snd (for_of l body w)).
Proof.
  intros Hbody. induction l as [|x r IH]; intros w Hw; [assumption|].
  cbn [for_of]. unfold bind. specialize (Hbody x w Hw).
  destruct (body x w) as [[[]|m] w1]; cbn [snd] in *.
  - now apply IH.
  - assumption.
Qed.

Lemma poll_invariant_log id w0 w l :
  is_NewTx id l = false ->
  poll_invariant id w0 w -> poll_invariant id w0 (snd (log l w)).
Proof.
  intros Hl [Hseen Hjobs Hunseen Htimes Hentries Hguard].
  assert (times_processed id (console w ++ [l]) = times_processed id (console w))
    as Ht.
  { rewrite times_processed_app. unfold times_processed at 2. cbn.
    rewrite Hl. cbn. lia. }
  unfold log. split; unfold about in *;
    cbn [snd console jobs_json lastSeenTxids] in *; rewrite ?Ht;
    assumption.
Qed.

Lemma pollForJobs_invariant env id w0 w :
  poll_invariant id w0 w ->
  poll_invariant id w0 (snd (pollForJobs lib env wallet privKey w)).
Proof.
  intros Hw. unfold pollForJobs, try_catch, bind, await.
  destruct (get_history env (address wallet)) as [[history|]|m]; cbn.
  - cbn [snd].
    pose proof (for_of_invariant (poll_invariant id w0)
                  (poll_entry lib env wallet privKey) history
                  (fun x w => poll_entry_invariant env x id w0 w) w Hw) as H.
    destruct (for_of history _ w) as [[[]|m] w1]; cbn [snd] in *.
    + assumption.
    + now apply poll_invariant_log.
  - assumption.
  - now apply poll_invariant_log.
Qed.

(** [pollForJobs] catches everything. *)
Lemma pollForJobs_returns env w :
  fst (pollForJobs lib env wallet privKey w) = Ok tt.
Proof.
  unfold pollForJobs, try_catch, bind, await.
  destruct (get_history env (address wallet)) as [[history|]|m]; cbn;
    try reflexivity.
  destruct (for_of history _ w) as [[[]|m] w1]; reflexivity.
Qed.

Lemma ticks_invariant envs id w0 w :
  poll_invariant id w0 w ->
  poll_invariant id w0 (snd (ticks lib envs wallet privKey w)).
Proof.
  unfold ticks. apply for_of_invariant.
  intros env w1. apply pollForJobs_invariant.
Qed.

End Poll.

(** ** Start-up and restarts *)

Section Lifetime.
Import Agent.

Variable lib : Library.
Variable wallet : Wallet.
Variable privKey : PrivateKey.

Lemma for_of_seen_add (l : list string) (w : World) :
  fst (for_of l seen_add w) = Ok tt ∧
  lastSeenTxids (snd (for_of l seen_add w)) = list_to_set l ∪ lastSeenTxids w ∧
  jobs_json (snd (for_of l seen_add w)) = jobs_json w ∧
  console (snd (for_of l seen_add w)) = console w ∧
  broadcasts (snd (for_of l seen_add w)) = broadcasts w.
Proof.
  revert w. induction l as [|x r IH]; intros w.
  - cbn. split_and!; try reflexivity. set_solver.
  - cbn [for_of]. unfold bind. cbn [seen_add].
    destruct (IH {| lastSeenTxids := {[x]} ∪ lastSeenTxids w;
                    jobs_json := jobs_json w; console := console w;
                    broadcasts := broadcasts w |})
      as (-> & -> & -> & -> & ->).
    cbn. split_and!; try reflexivity. set_solver.
Qed.

Lemma main_effect env w :
  lastSeenTxids (snd (main env wallet w))
  = list_to_set (map jobTxid (jobs_json w))
    ∪ list_to_set (seeded_history env wallet) ∪ lastSeenTxids w ∧
  jobs_json (snd (main env wallet w)) = jobs_json w ∧
  console (snd (main env wallet w)) = console w ∧
  broadcasts (snd (main env wallet w)) = broadcasts w.
Proof.
  assert (forall (jobs : list Job) w1,
            for_of jobs (fun j => seen_add (jobTxid j)) w1
            = for_of (map jobTxid jobs) seen_add w1) as Hmap.
  { induction jobs as [|j r IH]; intros w1; [reflexivity|].
    cbn [for_of map]. unfold bind. destruct (seen_add (jobTxid j) w1) as [[[]|] ?].
    - apply IH.
    - reflexivity. }
  unfold main, seeded_history, try_catch, bind, await, loadJobs, ret.
  destruct (get_history env (address wallet)) as [[history|]|m]; cbv beta iota.
  - destruct (for_of_seen_add history w) as (Hr & Hs & Hj & Hc & Hb).
    destruct (for_of history seen_add w) as [r w1]. cbn [fst snd] in *.
    subst r. cbv beta iota. rewrite Hmap.
    destruct (for_of_seen_add (map jobTxid (jobs_json w1)) w1)
      as (_ & -> & -> & -> & ->).
    rewrite Hs, Hj, Hc, Hb. split_and!; try reflexivity. set_solver.
  - rewrite Hmap.
    destruct (for_of_seen_add (map jobTxid (jobs_json w)) w)
      as (_ & -> & -> & -> & ->).
    split_and!; try reflexivity. set_solver.
  - rewrite Hmap.
    destruct (for_of_seen_add (map jobTxid (jobs_json w)) w)
      as (_ & -> & -> & -> & ->).
    split_and!; try reflexivity. set_solver.
Qed.

Lemma some_job_elem id (jobs : list Job) :
  some_job id jobs = true <-> id ∈ map jobTxid jobs.
Proof.
  unfold some_job. rewrite existsb_exists, list_elem_of_In, in_map_iff.
  split; intros (j & H1 & H2); exists j.
  - apply String.eqb_eq in H2. now split.
  - split; [assumption|]. now apply String.eqb_eq.
Qed.

Lemma about_main id env w :
  about id (snd (main env wallet (restart w))) = about id w.
Proof.
  destruct (main_effect env (restart w)) as (_ & Hj & Hc & _).
  unfold about. now rewrite Hj, Hc.
Qed.

(** An id that has a record is never processed again, through ticks and
    restarts alike. *)
Lemma lifetime_recorded (ps : list Phase) id w :
  some_job id (jobs_json w) = true ->
  about id (lifetime lib wallet privKey ps w) = about id w ∧
  some_job id (jobs_json (lifetime lib wallet privKey ps w)) = true.
Proof.
  revert w. induction ps as [|p ps IH]; intros w Hrec; [now split|].
  unfold lifetime in *. cbn [fold_left].
  assert (about id (phase lib wallet privKey w p) = about id w ∧
          some_job id (jobs_json (phase lib wallet privKey w p)) = true)
    as [Ea Hrec'].
  { destruct p as [env|env]; cbn [phase].
    - pose proof (pollForJobs_invariant lib wallet privKey env id w w
                    (poll_invariant_refl id w)) as [? [added Hj] ? ? ? Hg].
      split; [apply Hg; now right|].
      rewrite Hj. now apply some_job_app.
    - split; [apply about_main|].
      destruct (main_effect env (restart w)) as (_ & -> & _). exact Hrec. }
  destruct (IH _ Hrec') as [Eb Hrec''].
  split; [congruence | assumption].
Qed.

End Lifetime.

(** ** Idempotency of the poll loop (C3) *)

(** C3, as stated, fails: an observed id whose transaction the gateway does
    not return (a 404 while the transaction propagates) is processed, and
    the Job Store ends with no entry keyed by it, not one, however often
    the loop runs afterwards. *)
Lemma C3_counterexample :
  let env := Sample.env (Ok None) (Sample.answer "4") (Ok Sample.resid) in
  let w' := snd (Agent.ticks Sample.lib [env; env] Sample.wallet Sample.privKey
                   Sample.world0) in
  Agent.get_history env (Agent.address Sample.wallet) = Ok (Some [Sample.id1]) ∧
  Agent.times_processed Sample.id1 (Agent.console w') = 1%nat ∧
  length (Agent.entries_for Sample.id1 (Agent.jobs_json w')) ≠ 1%nat.
Proof. vm_compute. split_and!; [reflexivity | reflexivity | discriminate]. Qed.

(** C3 (amended): for every id, over any number of ticks of the poll
    loop, the job is processed at most once and the Job Store ends with at
    most one entry keyed by the id (the entries it had, if it had any);
    an id that is in the seen set or in the Job Store is not processed;
    a second invocation with the same id is a no-op; the first one adds
    exactly one entry when the job reaches the broadcast, and none when
    the transaction is not returned by the gateway. *)
Theorem C3_poll_at_most_once (lib : Library) (wallet : Agent.Wallet)
    (privKey : PrivateKey) (envs : list Agent.Env) (w : Agent.World)
    (id : string) :
  let w' := snd (Agent.ticks lib envs wallet privKey w) in
  (Agent.times_processed id (Agent.console w')
   <= Agent.times_processed id (Agent.console w) + 1)%nat ∧
  (length (Agent.entries_for id (Agent.jobs_json w'))
   <= Nat.max 1 (length (Agent.entries_for id (Agent.jobs_json w))))%nat ∧
  (id ∈ Agent.lastSeenTxids w ∨ Agent.some_job id (Agent.jobs_json w) = true →
   Agent.about id w' = Agent.about id w) ∧
  (∀ env env',
     let w1 := snd (Agent.poll_entry lib env wallet privKey id w) in
     Agent.poll_entry lib env' wallet privKey id w1 = (Ok tt, w1)) ∧
  (∀ env tx prompt built,
     id ∉ Agent.lastSeenTxids w → Agent.some_job id (Agent.jobs_json w) = false →
     Agent.reaches_broadcast lib env wallet privKey id tx prompt built →
     length (Agent.entries_for id
               (Agent.jobs_json (snd (Agent.poll_entry lib env wallet privKey id w))))
     = 1%nat) ∧
  (∀ env,
     id ∉ Agent.lastSeenTxids w → Agent.some_job id (Agent.jobs_json w) = false →
     Agent.get_tx env id = Ok None →
     Agent.entries_for id
       (Agent.jobs_json (snd (Agent.poll_entry lib env wallet privKey id w)))
     = []).
Proof.
  cbn zeta.
  pose proof (ticks_invariant lib wallet privKey envs id w w
                (poll_invariant_refl id w)) as [_ _ _ Ht He Hg].
  split_and!; try assumption.
  - intros env env'.
    destruct (poll_entry_about lib wallet privKey env id id w) as (_ & Hin & _).
    destruct (poll_entry_cases lib wallet privKey env' id
                (snd (Agent.poll_entry lib env wallet privKey id w)))
      as [[_ E] | [(Hout & _) | (Hout & _)]]; [exact E | | ]; contradiction.
  - intros env tx prompt built Hout Hj Hreach.
    destruct (poll_entry_cases lib wallet privKey env id w)
      as [[Hin _] | [(_ & Hj' & _) | (_ & _ & ->)]];
      [contradiction | congruence |].
    apply some_job_entries in Hj.
    destruct (Agent.post_tx_raw env (Agent.res_tx built)) as [resTxid|m] eqn:Ep.
    + rewrite (processJob_settled lib env wallet privKey id tx prompt built
                 resTxid _ Hreach Ep).
      cbn [snd Agent.grow Agent.jobs_json Agent.mark].
      rewrite entries_for_app, Hj. cbn. now rewrite String.eqb_refl.
    + rewrite (processJob_failed lib env wallet privKey id tx prompt built
                 m _ Hreach Ep).
      cbn [snd Agent.grow Agent.jobs_json Agent.mark].
      rewrite entries_for_app, Hj. cbn. now rewrite String.eqb_refl.
  - intros env Hout Hj Hf.
    destruct (poll_entry_cases lib wallet privKey env id w)
      as [[Hin _] | [(_ & Hj' & _) | (_ & _ & ->)]];
      [contradiction | congruence |].
    apply some_job_entries in Hj.
    unfold Agent.processJob, Agent.bind, Agent.await, Agent.log. cbn.
    rewrite Hf. cbn. exact Hj.
Qed.

(** ** A failed broadcast is final (C4) *)

(** C4: when the broadcast of the settlement throws, the job processor
    appends a record with [error] set and [resTxid] null, having handed
    the transaction to the ledger once; from then on the id counts as
    processed, and through any later ticks and restarts the job is never
    entered again (so nothing is broadcast for it again) and no record
    keyed by it is added. *)
Theorem C4_failed_broadcast_is_final (lib : Library) (env : Agent.Env)
    (wallet : Agent.Wallet) (privKey : PrivateKey) (txid : string)
    (tx : Ledger.Tx) (prompt : string) (built : Agent.Response)
    (message : string) (w : Agent.World) (later : list Agent.Phase) :
  Agent.reaches_broadcast lib env wallet privKey txid tx prompt built →
  Agent.post_tx_raw env (Agent.res_tx built) = Throw message →
  let w1 := snd (Agent.processJob lib env wallet privKey txid w) in
  let w2 := Agent.lifetime lib wallet privKey later w1 in
  fst (Agent.processJob lib env wallet privKey txid w) = Ok tt ∧
  (∃ j, Agent.jobs_json w1 = Agent.jobs_json w ++ [j] ∧
        Agent.jobTxid j = txid ∧ Agent.resTxid j = None ∧
        Agent.error j = Some message ∧
        Agent.result j = Agent.askLLM env prompt) ∧
  Agent.broadcasts w1 = Agent.broadcasts w ++ [Agent.res_tx built] ∧
  Agent.some_job txid (Agent.jobs_json w1) = true ∧
  Agent.some_job txid (Agent.jobs_json w2) = true ∧
  Agent.times_processed txid (Agent.console w2)
  = Agent.times_processed txid (Agent.console w1) ∧
  Agent.entries_for txid (Agent.jobs_json w2)
  = Agent.entries_for txid (Agent.jobs_json w1).
Proof.
  intros Hreach Hpost. cbn zeta.
  rewrite (processJob_failed lib env wallet privKey txid tx prompt built
             message w Hreach Hpost).
  cbn [fst snd].
  set (w1 := Agent.grow w _ _ _).
  assert (Agent.some_job txid (Agent.jobs_json w1) = true) as Hrec.
  { subst w1. cbn [Agent.grow Agent.jobs_json]. unfold Agent.some_job.
    rewrite existsb_app. cbn. rewrite String.eqb_refl. cbn.
    now rewrite orb_true_r. }
  destruct (lifetime_recorded lib wallet privKey later txid w1 Hrec)
    as [Ha Hrec2].
  unfold Agent.about in Ha. injection Ha as He Ht.
  split_and!; try assumption; try reflexivity.
  eexists. split; [reflexivity|]. cbn. split_and!; reflexivity.
Qed.

(** C4 at work: the settlement of the request of [id1] is refused. *)
Lemma C4_witness :
  let env := Sample.env1 (Throw "Broadcast: 258: txn-mempool-conflict") in
  let w1 := snd (Agent.processJob Sample.lib env Sample.wallet Sample.privKey
                   Sample.id1 Sample.world0) in
  let w2 := Agent.lifetime Sample.lib Sample.wallet Sample.privKey
              [Agent.Tick env; Agent.Reboot env; Agent.Tick env] w1 in
  fst (Agent.processJob Sample.lib env Sample.wallet Sample.privKey
         Sample.id1 Sample.world0) = Ok tt ∧
  (∃ j, Agent.jobs_json w1 = Agent.jobs_json Sample.world0 ++ [j] ∧
        Agent.jobTxid j = Sample.id1 ∧ Agent.resTxid j = None ∧
        Agent.error j = Some "Broadcast: 258: txn-mempool-conflict" ∧
        Agent.result j = Agent.askLLM env "2+2?") ∧
  Agent.broadcasts w1
  = Agent.broadcasts Sample.world0 ++ [Agent.res_tx (Sample.built "4")] ∧
  Agent.some_job Sample.id1 (Agent.jobs_json w1) = true ∧
  Agent.some_job Sample.id1 (Agent.jobs_json w2) = true ∧
  Agent.times_processed Sample.id1 (Agent.console w2)
  = Agent.times_processed Sample.id1 (Agent.console w1) ∧
  Agent.entries_for Sample.id1 (Agent.jobs_json w2)
  = Agent.entries_for Sample.id1 (Agent.jobs_json w1).
Proof.
  apply (C4_failed_broadcast_is_final Sample.lib
           (Sample.env1 (Throw "Broadcast: 258: txn-mempool-conflict"))
           Sample.wallet Sample.privKey Sample.id1 Sample.request1 "2+2?"
           (Sample.built "4")).
  - split; [reflexivity | vm_compute; reflexivity | discriminate
           | vm_compute; discriminate | vm_compute; reflexivity].
  - reflexivity.
Defined.

(** ** What a restart re-evaluates (C6) *)

(** C6, as stated, fails: after a restart, an id that is in the ledger
    history but not in the Job Store is not processed: start-up put it in
    the seen set, and the poll loop skips it (the same request is
    processed when the loop meets it unseeded, see
    [agent_settles_a_job]). *)
Lemma C6_counterexample :
  let env := Sample.env1 (Ok Sample.resid) in
  let w1 := snd (Agent.main env Sample.wallet (Agent.restart Sample.world0)) in
  let w2 := snd (Agent.ticks Sample.lib [env; env] Sample.wallet Sample.privKey w1) in
  Agent.get_history env (Agent.address Sample.wallet) = Ok (Some [Sample.id1]) ∧
  Agent.some_job Sample.id1 (Agent.jobs_json Sample.world0) = false ∧
  Agent.times_processed Sample.id1 (Agent.console w2) = 0%nat ∧
  Agent.jobs_json w2 = [].
Proof. vm_compute. split_and!; reflexivity. Qed.

(** C6 (amended): at start-up the seen set is seeded from both the
    address history the ledger returns and the Job Store: an id is in it
    exactly when it is in that history or has a record; consequently,
    after a restart, no id of the start-up history and no id recorded in
    the Job Store is processed by the poll loop, whether it has a record
    or not: only ids that first show up in the history later are. *)
Theorem C6_startup_seeding (lib : Library) (wallet : Agent.Wallet)
    (privKey : PrivateKey) (env0 : Agent.Env) (envs : list Agent.Env)
    (w : Agent.World) (id : string) :
  let w1 := snd (Agent.main env0 wallet (Agent.restart w)) in
  let w2 := snd (Agent.ticks lib envs wallet privKey w1) in
  (id ∈ Agent.lastSeenTxids w1 ↔
   id ∈ Agent.seeded_history env0 wallet ∨
   Agent.some_job id (Agent.jobs_json w) = true) ∧
  (id ∈ Agent.seeded_history env0 wallet ∨
   Agent.some_job id (Agent.jobs_json w) = true →
   Agent.about id w2 = Agent.about id w) ∧
  (Agent.times_processed id (Agent.console w) <
   Agent.times_processed id (Agent.console w2) →
   (id ∉ Agent.seeded_history env0 wallet) ∧
   Agent.some_job id (Agent.jobs_json w) = false)%nat.
Proof.
  cbn zeta.
  destruct (main_effect wallet env0 (Agent.restart w)) as (Hs & Hj & Hc & Hb).
  set (w1 := snd (Agent.main env0 wallet (Agent.restart w))) in *.
  assert (id ∈ Agent.lastSeenTxids w1 ↔
          id ∈ Agent.seeded_history env0 wallet ∨
          Agent.some_job id (Agent.jobs_json w) = true) as Hseed.
  { rewrite Hs. cbn [Agent.restart Agent.lastSeenTxids Agent.jobs_json].
    rewrite some_job_elem. set_solver. }
  assert (id ∈ Agent.seeded_history env0 wallet ∨
          Agent.some_job id (Agent.jobs_json w) = true →
          Agent.about id (snd (Agent.ticks lib envs wallet privKey w1))
          = Agent.about id w) as Hskip.
  { intros H. apply Hseed in H.
    pose proof (ticks_invariant lib wallet privKey envs id w1 w1
                  (poll_invariant_refl id w1)) as [_ _ _ _ _ Hg].
    rewrite Hg by now left.
    subst w1. apply about_main. }
  split_and!; [exact Hseed | exact Hskip |].
  intros Hlt.
  destruct (decide (id ∈ Agent.seeded_history env0 wallet)) as [Hin|Hout].
  { specialize (Hskip (or_introl Hin)). unfold Agent.about in Hskip.
    injection Hskip as _ Ht. lia. }
  destruct (Agent.some_job id (Agent.jobs_json w)) eqn:Ej.
  { specialize (Hskip (or_intror eq_refl)). unfold Agent.about in Hskip.
    injection Hskip as _ Ht. lia. }
  split; [assumption | reflexivity].
Qed.

(** ** The settlement builder *)

Section Builder.
Import Agent.
Local Open Scope Z_scope.

Variable lib : Library.
Variable privKey : PrivateKey.

Lemma fold_satoshis (utxos : list Utxo) (n : Z) :
  fold_left (fun s u => s + satoshis u) utxos n = n + sum_satoshis utxos.
Proof.
  unfold sum_satoshis. revert n.
  induction utxos as [|u r IH]; intros n; cbn; [lia|].
  rewrite IH, (IH (0 + satoshis u)). lia.
Qed.

Lemma sum_satoshis_nonneg (utxos : list Utxo) :
  Forall (fun u => 0 <= satoshis u) utxos -> 0 <= sum_satoshis utxos.
Proof.
  induction 1 as [|u r Hu _ IH]; [reflexivity|].
  unfold sum_satoshis in *. cbn. rewrite fold_satoshis.
  unfold sum_satoshis. lia.
Qed.

Lemma add_inputs_inv (utxos : list Utxo) acc t n :
  add_inputs lib utxos acc = Ok (t, n) ->
  n = snd acc + sum_satoshis utxos ∧
  Transaction.outputs t = Transaction.outputs (fst acc) ∧
  length (Transaction.inputs t)
  = (length (Transaction.inputs (fst acc)) + length utxos)%nat.
Proof.
  revert acc. induction utxos as [|u r IH]; intros acc; cbn [add_inputs].
  - intros [= ->]. cbn. unfold sum_satoshis. cbn.
    split_and!; [lia | reflexivity | lia].
  - unfold rbind. destruct (Script_fromHex lib (script u)); [|discriminate].
    intros H. apply IH in H as (-> & -> & ->). cbn.
    unfold sum_satoshis. cbn. rewrite (fold_satoshis r (0 + satoshis u)).
    unfold sum_satoshis. rewrite length_app. cbn.
    split_and!; [lia | reflexivity | lia].
Qed.

Lemma add_inputs_ok (utxos : list Utxo) acc :
  Forall (funded lib) utxos -> exists r, add_inputs lib utxos acc = Ok r.
Proof.
  intros H. revert acc. induction H as [|u r [s Hs] _ IH]; intros acc.
  - now exists acc.
  - cbn [add_inputs]. rewrite Hs. cbn [rbind]. apply IH.
Qed.

Lemma setScript_outputs t i s :
  Transaction.outputs (Transaction.setScript t i s) = Transaction.outputs t.
Proof. unfold Transaction.setScript. now destruct (_ !! _). Qed.

Lemma sign_inputs_outputs sighashType (l : list nat) t :
  Transaction.outputs (fold_left (sign_input lib privKey sighashType) l t)
  = Transaction.outputs t.
Proof.
  revert t. induction l as [|i l IH]; intros t; [reflexivity|].
  cbn [fold_left]. rewrite IH. unfold sign_input.
  destruct (_ !! _); [apply setScript_outputs | reflexivity].
Qed.

(** What a settlement that was built looks like: the data output first,
    then the change when something is kept. *)
Lemma buildResponseTx_inv utxos jobTxid resultText r :
  buildResponseTx lib privKey utxos jobTxid resultText = Ok r ->
  res_keep r = sum_satoshis utxos - FEE ∧
  res_isHashed r = snd (resultBuf resultText) ∧
  Transaction.outputs (res_tx r)
  = data_output jobTxid resultText
    :: (if 0 <? res_keep r then [change_output lib privKey (res_keep r)] else []).
Proof.
  unfold buildResponseTx, data_output, change_output.
  destruct (resultBuf resultText) as [payload isHashed]. cbn [fst snd].
  destruct (add_inputs lib utxos (Transaction.new, 0)) as [[t totalIn]|m] eqn:E;
    cbn [rbind]; [|discriminate].
  apply add_inputs_inv in E as (-> & Ho & _). cbn [fst snd] in *.
  intros [= <-]. cbn [res_keep res_isHashed res_tx].
  rewrite sign_inputs_outputs. rewrite Z.add_0_l.
  split_and!; [reflexivity | reflexivity |].
  destruct (0 <? sum_satoshis utxos - FEE); cbn; rewrite Ho; reflexivity.
Qed.

Lemma buildResponseTx_ok utxos jobTxid resultText :
  Forall (funded lib) utxos ->
  exists r, buildResponseTx lib privKey utxos jobTxid resultText = Ok r.
Proof.
  intros H. unfold buildResponseTx.
  destruct (resultBuf resultText) as [payload isHashed].
  destruct (add_inputs_ok utxos (Transaction.new, 0) H) as [[t n] ->].
  cbn [rbind]. eexists. reflexivity.
Qed.

(** The three pushes of the data output: the tag, the id reversed, the
    payload. *)
Lemma pushes_opReturn jobTxid payload :
  pushes_of (opReturn jobTxid payload)
  = [Buffer.from_utf8 "RES"; rev (Buffer.from_hex jobTxid); payload].
Proof. reflexivity. Qed.

End Builder.

(** ** Fee conservation (C1) *)

(** C1: for every call of the builder with UTXOs whose amounts are not
    negative: the builder returns a settlement as soon as the library reads
    the funding scripts, and every settlement it returns has
    [keep = totalIn - FEE]; its outputs are the data output followed by a
    change output of exactly [totalIn - FEE] when that is positive, and the
    data output alone otherwise; with a change output the outputs and the
    fee add up to [totalIn]; in every case the outputs add up to at most
    [totalIn], none is negative, and the data output is at position 0. *)
Theorem C1_fee_conservation (lib : Library) (privKey : PrivateKey)
    (utxos : list Agent.Utxo) (jobTxid resultText : string) :
  Forall (fun u => 0 <= Agent.satoshis u)%Z utxos →
  let totalIn := Agent.sum_satoshis utxos in
  let data := Agent.data_output jobTxid resultText in
  (Forall (Agent.funded lib) utxos →
   ∃ r, Agent.buildResponseTx lib privKey utxos jobTxid resultText = Ok r) ∧
  ∀ r, Agent.buildResponseTx lib privKey utxos jobTxid resultText = Ok r →
    let outs := Transaction.outputs (Agent.res_tx r) in
    Agent.res_keep r = (totalIn - Agent.FEE)%Z ∧
    (0 < totalIn - Agent.FEE →
     outs = [data; Agent.change_output lib privKey (totalIn - Agent.FEE)] ∧
     Agent.sum_outputs outs + Agent.FEE = totalIn)%Z ∧
    (totalIn - Agent.FEE <= 0 → outs = [data])%Z ∧
    (Agent.sum_outputs outs <= totalIn)%Z ∧
    Forall (fun o => 0 <= Transaction.satoshis o)%Z outs ∧
    outs !! 0%nat = Some data ∧
    Agent.pushes_of (Transaction.script data)
    = [Buffer.from_utf8 "RES"; rev (Buffer.from_hex jobTxid);
       fst (Agent.resultBuf resultText)].
Proof.
  intros Hpos. cbn zeta.
  split; [apply buildResponseTx_ok|].
  intros r Hr.
  apply buildResponseTx_inv in Hr as (Hk & _ & ->).
  pose proof (sum_satoshis_nonneg utxos Hpos) as Hsum.
  rewrite Hk. unfold Agent.FEE in *.
  destruct (Z.ltb_spec 0 (Agent.sum_satoshis utxos - 300)) as [Hlt|Hge].
  - split_and!.
    + reflexivity.
    + intros _. split; [reflexivity|]. cbn. lia.
    + intros ?. lia.
    + cbn. lia.
    + repeat constructor; cbn; lia.
    + reflexivity.
    + reflexivity.
  - split_and!.
    + reflexivity.
    + intros ?. lia.
    + intros _. reflexivity.
    + cbn. lia.
    + repeat constructor; cbn; lia.
    + reflexivity.
    + reflexivity.
Qed.

(** C1 at work: one UTXO of 3000 satoshis leaves a change of 2700. *)
Lemma C1_witness :
  let utxos := [Sample.utxo 3000] in
  let totalIn := Agent.sum_satoshis utxos in
  let data := Agent.data_output Sample.id1 "4" in
  (Forall (Agent.funded Sample.lib) utxos →
   ∃ r, Agent.buildResponseTx Sample.lib Sample.privKey utxos Sample.id1 "4"
        = Ok r) ∧
  ∀ r, Agent.buildResponseTx Sample.lib Sample.privKey utxos Sample.id1 "4"
       = Ok r →
    let outs := Transaction.outputs (Agent.res_tx r) in
    Agent.res_keep r = (totalIn - Agent.FEE)%Z ∧
    (0 < totalIn - Agent.FEE →
     outs = [data; Agent.change_output Sample.lib Sample.privKey
                     (totalIn - Agent.FEE)] ∧
     Agent.sum_outputs outs + Agent.FEE = totalIn)%Z ∧
    (totalIn - Agent.FEE <= 0 → outs = [data])%Z ∧
    (Agent.sum_outputs outs <= totalIn)%Z ∧
    Forall (fun o => 0 <= Transaction.satoshis o)%Z outs ∧
    outs !! 0%nat = Some data ∧
    Agent.pushes_of (Transaction.script data)
    = [Buffer.from_utf8 "RES"; rev (Buffer.from_hex Sample.id1);
       fst (Agent.resultBuf "4")].
Proof.
  apply (C1_fee_conservation Sample.lib Sample.privKey [Sample.utxo 3000]
           Sample.id1 "4").
  repeat constructor. cbn. lia.
Defined.

(** The settlement of that UTXO, as built. *)
Example settlement_of_3000 :
  match Agent.buildResponseTx Sample.lib Sample.privKey [Sample.utxo 3000]
          Sample.id1 "4" with
  | Ok r =>
      (Agent.res_keep r, Agent.res_isHashed r,
       map Transaction.satoshis (Transaction.outputs (Agent.res_tx r)),
       length (Transaction.inputs (Agent.res_tx r)))
      = (2700%Z, false, [0%Z; 2700%Z], 1%nat)
  | Throw _ => False
  end.
Proof. vm_compute. reflexivity. Qed.

(** ** Amounts in the job records (C2) *)

(** C2 fails on the success path: a request that pays the agent 100
    satoshis, fewer than the fee, is settled by a transaction that keeps
    nothing (its only output is the data output), and the record written
    says [satsKept = -200]. *)
Lemma C2_satsKept_negative :
  let env := Sample.env (Ok (Some (Sample.request Sample.id1 "2+2?" 100)))
               (Sample.answer "4") (Ok Sample.resid) in
  let w' := snd (Agent.pollForJobs Sample.lib env Sample.wallet Sample.privKey
                   Sample.world0) in
  map (fun j => (Agent.resTxid j, Agent.satsReceived j, Agent.satsKept j))
      (Agent.jobs_json w')
  = [(Some Sample.resid, 100%Z, (-200)%Z)] ∧
  map (fun t => map Transaction.satoshis (Transaction.outputs t))
      (Agent.broadcasts w')
  = [[0%Z]].
Proof. vm_compute. split; reflexivity. Qed.

(** ** Oversized results (C5) *)

Lemma digest_length (m : list byte) : length (Sha256.digest m) = 32%nat.
Proof. reflexivity. Qed.

Lemma hexdigest_shape (m : list byte) :
  String.length (Sha256.hexdigest m) = 64%nat ∧
  Buffer.all_lower_hex (Sha256.hexdigest m) = true.
Proof.
  unfold Sha256.hexdigest. split.
  - now rewrite toString_hex_length, digest_length.
  - apply toString_hex_lower.
Qed.

Lemma resultBuf_cases (resultText : string) :
  let bytes := Buffer.from_utf8 resultText in
  ((50000 < Z.of_nat (length bytes))%Z ∧
   Agent.resultBuf resultText
   = (Buffer.from_utf8 ("HASH:" +:+ Sha256.hexdigest bytes), true)) ∨
  ((Z.of_nat (length bytes) <= 50000)%Z ∧
   Agent.resultBuf resultText = (bytes, false)).
Proof.
  cbn zeta. unfold Agent.resultBuf.
  destruct (Z.ltb_spec 50000 (Z.of_nat (length (Buffer.from_utf8 resultText))));
    [left | right]; split; first [assumption | reflexivity].
Qed.

(** C5, as stated, fails: for a result of 50 001 bytes the record written
    after the broadcast is flagged as hashed, but its [result] field holds
    the fixed text ["(hashed — see follow-up tx)"], not the result. *)
Lemma C5_counterexample :
  let env := Sample.env (Ok (Some Sample.request1))
               (Sample.answer Sample.long_text) (Ok Sample.resid) in
  let w' := snd (Agent.pollForJobs Sample.lib env Sample.wallet Sample.privKey
                   Sample.world0) in
  (50000 < Z.of_nat (length (Buffer.from_utf8 Sample.long_text)))%Z ∧
  map (fun j => (Agent.isHashed j, Agent.result j)) (Agent.jobs_json w')
  = [(Some true, Agent.hashed_marker)] ∧
  Agent.hashed_marker ≠ Sample.long_text.
Proof.
  cbn zeta. split_and!.
  - vm_compute. reflexivity.
  - vm_compute. reflexivity.
  - intros H. apply (f_equal (String.get 0)) in H. vm_compute in H.
    discriminate H.
Qed.

(** C5 (amended): for every job that reaches a successful broadcast, when
    the UTF-8 length of the result exceeds 50 000 bytes the data output
    carries ["HASH:"] followed by the 64 lowercase hex digits of the
    SHA-256 of the result, and the record is flagged as hashed and holds
    the fixed text ["(hashed — see follow-up tx)"] in place of the result;
    a result of at most 50 000 bytes is carried verbatim, and the record
    is not flagged and holds the result. *)
Theorem C5_oversized_result (lib : Library) (env : Agent.Env)
    (wallet : Agent.Wallet) (privKey : PrivateKey) (txid : string)
    (tx : Ledger.Tx) (prompt : string) (built : Agent.Response)
    (resTxid : string) (w : Agent.World) :
  Agent.reaches_broadcast lib env wallet privKey txid tx prompt built →
  Agent.post_tx_raw env (Agent.res_tx built) = Ok resTxid →
  let result := Agent.askLLM env prompt in
  let bytes := Buffer.from_utf8 result in
  let hash := Sha256.hexdigest bytes in
  ∃ payload j,
    Transaction.outputs (Agent.res_tx built) !! 0%nat
    = Some {| Transaction.script := Agent.opReturn txid payload;
              Transaction.satoshis := 0 |} ∧
    Agent.pushes_of (Agent.opReturn txid payload) !! 2%nat = Some payload ∧
    Agent.jobs_json (snd (Agent.processJob lib env wallet privKey txid w))
    = Agent.jobs_json w ++ [j] ∧
    ((50000 < Z.of_nat (length bytes))%Z →
     payload = Buffer.from_utf8 ("HASH:" +:+ hash) ∧
     String.length hash = 64%nat ∧ Buffer.all_lower_hex hash = true ∧
     Agent.isHashed j = Some true ∧ Agent.result j = Agent.hashed_marker) ∧
    ((Z.of_nat (length bytes) <= 50000)%Z →
     payload = bytes ∧
     Agent.isHashed j = Some false ∧ Agent.result j = result).
Proof.
  intros Hreach Hpost. cbn zeta.
  rewrite (processJob_settled lib env wallet privKey txid tx prompt built
             resTxid w Hreach Hpost).
  destruct (buildResponseTx_inv lib privKey _ _ _ _ (Agent.rb_built _ _ _ _ _ _ _ _ Hreach))
    as (_ & Hh & Ho).
  exists (fst (Agent.resultBuf (Agent.askLLM env prompt))). eexists.
  split; [rewrite Ho; reflexivity|].
  split; [reflexivity|].
  split; [reflexivity|].
  cbn [Agent.isHashed Agent.result Agent.success_record]. rewrite Hh.
  destruct (hexdigest_shape (Buffer.from_utf8 (Agent.askLLM env prompt)))
    as [Hlen Hhex].
  destruct (resultBuf_cases (Agent.askLLM env prompt)) as [[Hs ->] | [Hs ->]];
    cbn [fst snd]; split; intros Hs'; try lia; split_and!;
    first [reflexivity | assumption].
Qed.

(** C5 at work: a result of 50 001 bytes. *)
Lemma C5_witness :
  let env := Sample.env (Ok (Some Sample.request1))
               (Sample.answer Sample.long_text) (Ok Sample.resid) in
  let result := Agent.askLLM env "2+2?" in
  let bytes := Buffer.from_utf8 result in
  let hash := Sha256.hexdigest bytes in
  ∃ payload j,
    Transaction.outputs (Agent.res_tx (Sample.built Sample.long_text)) !! 0%nat
    = Some {| Transaction.script := Agent.opReturn Sample.id1 payload;
              Transaction.satoshis := 0 |} ∧
    Agent.pushes_of (Agent.opReturn Sample.id1 payload) !! 2%nat = Some payload ∧
    Agent.jobs_json (snd (Agent.processJob Sample.lib env Sample.wallet
                            Sample.privKey Sample.id1 Sample.world0))
    = Agent.jobs_json Sample.world0 ++ [j] ∧
    ((50000 < Z.of_nat (length bytes))%Z →
     payload = Buffer.from_utf8 ("HASH:" +:+ hash) ∧
     String.length hash = 64%nat ∧ Buffer.all_lower_hex hash = true ∧
     Agent.isHashed j = Some true ∧ Agent.result j = Agent.hashed_marker) ∧
    ((Z.of_nat (length bytes) <= 50000)%Z →
     payload = bytes ∧
     Agent.isHashed j = Some false ∧ Agent.result j = result).
Proof.
  apply (C5_oversized_result Sample.lib
           (Sample.env (Ok (Some Sample.request1))
              (Sample.answer Sample.long_text) (Ok Sample.resid))
           Sample.wallet Sample.privKey Sample.id1 Sample.request1 "2+2?"
           (Sample.built Sample.long_text) Sample.resid Sample.world0).
  - split; [reflexivity | vm_compute; reflexivity | discriminate
           | vm_compute; discriminate | vm_compute; reflexivity].
  - reflexivity.
Defined.

(** ** A failing inference call (C7) *)

(** C7, as stated, fails: the backend fails the inference call with an
    error reply ([Sample.error_reply]).  [httpPost] resolves, since it
    never looks at the status; [askLLM] finds no text in the reply and
    returns ["(no response)"], which does not begin with ["Error: "] and
    carries no failure message; the job is settled and recorded as a
    success holding that text. *)
Lemma C7_counterexample :
  let env := Sample.env (Ok (Some Sample.request1)) Sample.error_reply
               (Ok Sample.resid) in
  let w := snd (Agent.processJob Sample.lib env Sample.wallet Sample.privKey
                  Sample.id1 Sample.world0) in
  Agent.askLLM env "2+2?" = "(no response)" ∧
  String.prefix "Error: " (Agent.askLLM env "2+2?") = false ∧
  Agent.broadcasts w = [Agent.res_tx (Sample.built "(no response)")] ∧
  map (fun j => (Agent.jobTxid j, Agent.resTxid j, Agent.error j,
                 Agent.result j))
      (Agent.jobs_json w)
  = [ (Sample.id1, Some Sample.resid, None, "(no response)") ].
Proof. vm_compute. split_and!; reflexivity. Qed.

(** C7 (amended): when the call to the inference backend is rejected (the
    connection is refused or reset, the socket reports an error or a
    time-out, or the reply is not JSON), [askLLM]
    returns ["Error: "] followed by the message; a job whose request is
    fetched, carries a prompt and pays the agent with outputs the library
    reads is then carried on: the settlement is built from that text (its
    data output carries it, verbatim when it is at most 50 000 bytes), it
    is handed to the ledger, the job processor returns normally and one
    record is written. *)
Theorem C7_inference_failure_is_settled (lib : Library) (env : Agent.Env)
    (wallet : Agent.Wallet) (privKey : PrivateKey) (txid : string)
    (tx : Ledger.Tx) (prompt message : string) (w : Agent.World) :
  Agent.post_generate env prompt = Throw message →
  Agent.get_tx env txid = Ok (Some tx) →
  Agent.parseJobFromTx lib tx = Ok (Some prompt) →
  prompt ≠ "" →
  Agent.findOurOutputs tx (Agent.address wallet) ≠ [] →
  Forall (Agent.funded lib) (Agent.findOurOutputs tx (Agent.address wallet)) →
  let result := "Error: " +:+ message in
  Agent.askLLM env prompt = result ∧
  ∃ built j,
    Agent.buildResponseTx lib privKey
      (Agent.findOurOutputs tx (Agent.address wallet)) txid result = Ok built ∧
    Transaction.outputs (Agent.res_tx built) !! 0%nat
    = Some (Agent.data_output txid result) ∧
    ((Z.of_nat (length (Buffer.from_utf8 result)) <= 50000)%Z →
     Agent.pushes_of (Transaction.script (Agent.data_output txid result)) !! 2%nat
     = Some (Buffer.from_utf8 result)) ∧
    fst (Agent.processJob lib env wallet privKey txid w) = Ok tt ∧
    Agent.broadcasts (snd (Agent.processJob lib env wallet privKey txid w))
    = Agent.broadcasts w ++ [Agent.res_tx built] ∧
    Agent.jobs_json (snd (Agent.processJob lib env wallet privKey txid w))
    = Agent.jobs_json w ++ [j] ∧
    Agent.jobTxid j = txid ∧
    (Agent.res_isHashed built = false → Agent.result j = result).
Proof.
  intros Hllm Hf Hp Hne Hu Hfunded. cbn zeta.
  assert (Agent.askLLM env prompt = "Error: " +:+ message) as Hask.
  { unfold Agent.askLLM. now rewrite Hllm. }
  split; [exact Hask|].
  destruct (buildResponseTx_ok lib privKey
              (Agent.findOurOutputs tx (Agent.address wallet)) txid
              ("Error: " +:+ message) Hfunded) as [built Hb].
  assert (Agent.reaches_broadcast lib env wallet privKey txid tx prompt built)
    as Hreach.
  { split; try assumption. now rewrite Hask. }
  destruct (buildResponseTx_inv lib privKey _ _ _ _ Hb) as (_ & _ & Ho).
  exists built.
  assert (Transaction.outputs (Agent.res_tx built) !! 0%nat
          = Some (Agent.data_output txid ("Error: " +:+ message))) as H0.
  { rewrite Ho. reflexivity. }
  assert ((Z.of_nat (length (Buffer.from_utf8 ("Error: " +:+ message))) <= 50000)%Z →
          Agent.pushes_of (Transaction.script
                             (Agent.data_output txid ("Error: " +:+ message)))
            !! 2%nat
          = Some (Buffer.from_utf8 ("Error: " +:+ message))) as H2.
  { intros Hs. unfold Agent.data_output. cbn [Transaction.script].
    rewrite pushes_opReturn.
    destruct (resultBuf_cases ("Error: " +:+ message)) as [[Hs' _] | [_ ->]];
      [lia | reflexivity]. }
  destruct (Agent.post_tx_raw env (Agent.res_tx built)) as [resTxid|m] eqn:Ep.
  - rewrite (processJob_settled lib env wallet privKey txid tx prompt built
               resTxid w Hreach Ep).
    eexists. split_and!; try first [eassumption | reflexivity].
    cbn. intros ->. exact Hask.
  - rewrite (processJob_failed lib env wallet privKey txid tx prompt built
               m w Hreach Ep).
    eexists. split_and!; try first [eassumption | reflexivity].
    cbn. intros _. exact Hask.
Qed.

(** C7 at work: the backend refuses the connection. *)
Lemma C7_witness :
  let env := Sample.env (Ok (Some Sample.request1))
               (Throw "connect ECONNREFUSED 127.0.0.1:11434")
               (Ok Sample.resid) in
  let result := "Error: " +:+ "connect ECONNREFUSED 127.0.0.1:11434" in
  Agent.askLLM env "2+2?" = result ∧
  ∃ built j,
    Agent.buildResponseTx Sample.lib Sample.privKey
      (Agent.findOurOutputs Sample.request1 (Agent.address Sample.wallet))
      Sample.id1 result = Ok built ∧
    Transaction.outputs (Agent.res_tx built) !! 0%nat
    = Some (Agent.data_output Sample.id1 result) ∧
    ((Z.of_nat (length (Buffer.from_utf8 result)) <= 50000)%Z →
     Agent.pushes_of (Transaction.script (Agent.data_output Sample.id1 result))
       !! 2%nat
     = Some (Buffer.from_utf8 result)) ∧
    fst (Agent.processJob Sample.lib env Sample.wallet Sample.privKey
           Sample.id1 Sample.world0) = Ok tt ∧
    Agent.broadcasts (snd (Agent.processJob Sample.lib env Sample.wallet
                             Sample.privKey Sample.id1 Sample.world0))
    = Agent.broadcasts Sample.world0 ++ [Agent.res_tx built] ∧
    Agent.jobs_json (snd (Agent.processJob Sample.lib env Sample.wallet
                            Sample.privKey Sample.id1 Sample.world0))
    = Agent.jobs_json Sample.world0 ++ [j] ∧
    Agent.jobTxid j = Sample.id1 ∧
    (Agent.res_isHashed built = false → Agent.result j = result).
Proof.
  apply (C7_inference_failure_is_settled Sample.lib
           (Sample.env (Ok (Some Sample.request1))
              (Throw "connect ECONNREFUSED 127.0.0.1:11434") (Ok Sample.resid))
           Sample.wallet Sample.privKey Sample.id1 Sample.request1 "2+2?"
           "connect ECONNREFUSED 127.0.0.1:11434" Sample.world0).
  - reflexivity.
  - reflexivity.
  - vm_compute. reflexivity.
  - discriminate.
  - vm_compute. discriminate.
  - repeat constructor. eexists. vm_compute. reflexivity.
Defined.

(** ** The decoder never throws (C10) *)

Section Decoder.
Import Agent.
Variable lib : Library.

Lemma parseJob_vouts_total (vs : list Ledger.Vout) :
  exists r, parseJob_vouts lib vs = Ok r.
Proof.
  induction vs as [|v rest IH]; cbn [parseJob_vouts]; [now exists None|].
  destruct (is_nulldata v) as [spk|]; [|exact IH].
  destruct (job_of_script lib (Ledger.hex spk)) as [[p|]|m];
    [now exists (Some p) | exact IH | exact IH].
Qed.

Lemma parseJob_vouts_nulldata (vs : list Ledger.Vout) :
  parseJob_vouts lib vs
  = parseJob_vouts lib (List.filter (fun v => bool_decide (is_Some (is_nulldata v))) vs).
Proof.
  induction vs as [|v rest IH]; [reflexivity|].
  cbn [parseJob_vouts List.filter].
  destruct (is_nulldata v) as [spk|] eqn:E.
  - rewrite bool_decide_true by (now exists spk).
    cbn [parseJob_vouts]. rewrite E, IH. reflexivity.
  - rewrite bool_decide_false by (intros [? ?]; discriminate). exact IH.
Qed.

Lemma parseJob_vouts_origin (vs : list Ledger.Vout) (p : string) :
  parseJob_vouts lib vs = Ok (Some p) ->
  exists v spk script tag buf rest,
    v ∈ vs ∧ is_nulldata v = Some spk ∧
    Script_fromHex lib (Ledger.hex spk) = Ok script ∧
    pushes_of script = tag :: buf :: rest ∧
    Buffer.toString_utf8 tag = "JOB" ∧ p = Buffer.toString_utf8 buf.
Proof.
  induction vs as [|v r IH]; cbn [parseJob_vouts]; [discriminate|].
  assert (parseJob_vouts lib r = Ok (Some p) ->
          exists v0 spk script tag buf rest,
            v0 ∈ v :: r ∧ is_nulldata v0 = Some spk ∧
            Script_fromHex lib (Ledger.hex spk) = Ok script ∧
            pushes_of script = tag :: buf :: rest ∧
            Buffer.toString_utf8 tag = "JOB" ∧ p = Buffer.toString_utf8 buf)
    as IH'.
  { intros H. destruct (IH H) as (v0 & spk & script & tag & buf & rest & Hin & Hrest).
    exists v0, spk, script, tag, buf, rest. split; [now right | exact Hrest]. }
  destruct (is_nulldata v) as [spk|] eqn:E; [|exact IH'].
  destruct (job_of_script lib (Ledger.hex spk)) as [[q|]|m] eqn:Ej;
    [|exact IH'|exact IH'].
  intros [= ->]. unfold job_of_script, rbind in Ej.
  destruct (Script_fromHex lib (Ledger.hex spk)) as [script|] eqn:Es;
    [|discriminate].
  destruct (pushes_of script) as [|tag [|buf rest]] eqn:Epu; try discriminate.
  destruct (String.eqb_spec (Buffer.toString_utf8 tag) "JOB") as [Etag|];
    [|discriminate].
  injection Ej as <-.
  exists v, spk, script, tag, buf, rest. split_and!; try assumption;
    first [now left | reflexivity].
Qed.

End Decoder.

(** C10: on every transaction, whatever its outputs and whatever the
    library does with their script bytes (throwing included), the decoder
    returns, and returns either a prompt or null; its answer depends on
    the null-data outputs only; an output whose script the library
    refuses, or which holds fewer than two pushes or another tag, is
    skipped; and a prompt that is returned is the second push of a
    null-data output whose first push is ["JOB"]. *)
Theorem C10_decoder_never_throws (lib : Library) (tx : Ledger.Tx) :
  let vouts := default [] (Ledger.vout tx) in
  (∃ r, Agent.parseJobFromTx lib tx = Ok r) ∧
  Agent.parseJobFromTx lib tx
  = Agent.parseJob_vouts lib
      (List.filter (fun v => bool_decide (is_Some (Agent.is_nulldata v))) vouts) ∧
  (∀ v rest,
     Agent.is_nulldata v = None →
     Agent.parseJob_vouts lib (v :: rest) = Agent.parseJob_vouts lib rest) ∧
  (∀ v spk rest message,
     Agent.is_nulldata v = Some spk →
     Script_fromHex lib (Ledger.hex spk) = Throw message →
     Agent.parseJob_vouts lib (v :: rest) = Agent.parseJob_vouts lib rest) ∧
  (∀ v spk rest script,
     Agent.is_nulldata v = Some spk →
     Script_fromHex lib (Ledger.hex spk) = Ok script →
     (∀ tag buf more, Agent.pushes_of script = tag :: buf :: more →
                      Buffer.toString_utf8 tag ≠ "JOB") →
     Agent.parseJob_vouts lib (v :: rest) = Agent.parseJob_vouts lib rest) ∧
  (∀ p, Agent.parseJobFromTx lib tx = Ok (Some p) →
     ∃ v spk script tag buf rest,
       v ∈ vouts ∧ Agent.is_nulldata v = Some spk ∧
       Script_fromHex lib (Ledger.hex spk) = Ok script ∧
       Agent.pushes_of script = tag :: buf :: rest ∧
       Buffer.toString_utf8 tag = "JOB" ∧ p = Buffer.toString_utf8 buf).
Proof.
  cbn zeta. unfold Agent.parseJobFromTx. split_and!.
  - apply parseJob_vouts_total.
  - apply parseJob_vouts_nulldata.
  - intros v rest E. cbn [Agent.parseJob_vouts]. now rewrite E.
  - intros v spk rest message E Et. cbn [Agent.parseJob_vouts].
    rewrite E. unfold Agent.job_of_script. now rewrite Et.
  - intros v spk rest script E Es Htag. cbn [Agent.parseJob_vouts].
    rewrite E. unfold Agent.job_of_script. rewrite Es. cbn [Agent.rbind].
    destruct (Agent.pushes_of script) as [|tag [|buf more]] eqn:Ep;
      try reflexivity.
    destruct (String.eqb_spec (Buffer.toString_utf8 tag) "JOB") as [Etag|];
      [|reflexivity].
    now destruct (Htag tag buf more eq_refl).
  - apply parseJob_vouts_origin.
Qed.

(** ** The back-reference of a settlement (C8) *)

Lemma length_from_utf8 (s : string) :
  length (Buffer.from_utf8 s) = String.length s.
Proof.
  unfold Buffer.from_utf8, list_byte_of_string. rewrite length_map.
  induction s as [|c s IH]; [reflexivity|].
  cbn [list_ascii_of_string length String.length]. now rewrite IH.
Qed.

Lemma length_append (s1 s2 : string) :
  String.length (s1 +:+ s2) = (String.length s1 + String.length s2)%nat.
Proof. induction s1 as [|c s1 IH]; simpl; [reflexivity | now f_equal]. Qed.

(** The payload of a data output is never more than 50 000 bytes, and is
    empty only for the empty result. *)
Lemma resultBuf_size (resultText : string) :
  (Z.of_nat (length (fst (Agent.resultBuf resultText))) <= 50000)%Z ∧
  (resultText ≠ "" → fst (Agent.resultBuf resultText) ≠ []).
Proof.
  destruct (resultBuf_cases resultText) as [[Hs ->] | [Hs ->]]; cbn [fst].
  - destruct (hexdigest_shape (Buffer.from_utf8 resultText)) as [Hlen _].
    split.
    + rewrite length_from_utf8, length_append, Hlen. cbn. lia.
    + intros _. discriminate.
  - split; [lia|].
    intros Hne. destruct resultText; [congruence | discriminate].
Qed.

(** The inference step never returns the empty string. *)
Lemma askLLM_nonempty (env : Agent.Env) (prompt : string) :
  Agent.askLLM env prompt ≠ "".
Proof.
  unfold Agent.askLLM.
  destruct (Agent.post_generate env prompt) as [resp|m]; [|discriminate].
  cbv zeta.
  match goal with |- Agent.or_else ?a ?b ≠ "" => generalize a end.
  intros a. unfold Agent.or_else.
  destruct (String.eqb_spec a ""); [discriminate | assumption].
Qed.

(** The data output is made of chunks that survive the wire. *)
Lemma opReturn_wf (jobTxid resultText : string) :
  Ledger.is_txid jobTxid → resultText ≠ "" →
  Forall Script.wf_chunk
    (Agent.opReturn jobTxid (fst (Agent.resultBuf resultText))).
Proof.
  intros Hid Hne.
  destruct (txid_hex_roundtrip jobTxid Hid) as [_ Hlen].
  destruct (resultBuf_size resultText) as [Hsize Hpay].
  specialize (Hpay Hne).
  unfold Agent.opReturn, Script.add_buffer, Script.add_opcode, Script.empty.
  cbn [app].
  repeat (apply List.Forall_cons; [|]); [..|apply List.Forall_nil];
    unfold Script.wf_chunk; cbn [Script.buf Script.opcodenum].
  - now left.
  - right. unfold Script.OP_PUSHDATA4, Script.OP_RETURN. lia.
  - split_and!; [discriminate | reflexivity | cbn; lia].
  - split_and!; [|reflexivity|].
    + intros E. apply (f_equal (@length byte)) in E.
      rewrite length_rev, Hlen in E. discriminate.
    + rewrite length_rev, Hlen. cbn. lia.
  - split_and!; [assumption | reflexivity |].
    change (2 ^ 32)%N with 4294967296%N. lia.
Qed.

(** C8: for every ledger id (64 lowercase hex digits) and every result
    that is not empty (the inference step returns none that is), the data
    output stores the bytes of the id in reverse order as its second push;
    read back from its hex, the script has that push again, and reversing
    it and writing it in hex gives the id; so the comparison of the bridge
    with a submitted id succeeds, returning the payload text, exactly when
    the submitted id is the id of the job the settlement answers. *)
Theorem C8_back_reference_roundtrip (lib : Library)
    (jobTxid resultText submitted : string) :
  (∀ hex, Script_fromHex lib hex = Script.fromHex hex) →
  Ledger.is_txid jobTxid →
  resultText ≠ "" →
  let payload := fst (Agent.resultBuf resultText) in
  let script := Agent.opReturn jobTxid payload in
  Agent.pushes_of script !! 1%nat = Some (rev (Buffer.from_hex jobTxid)) ∧
  Script.fromHex (Script.toHex script) = Ok script ∧
  Buffer.toString_hex (rev (rev (Buffer.from_hex jobTxid))) = jobTxid ∧
  Bridge.res_of_script lib (Script.toHex script) submitted
  = Ok (if String.eqb jobTxid submitted
        then Some (Buffer.toString_utf8 payload) else None) ∧
  (Bridge.res_of_script lib (Script.toHex script) submitted
   = Ok (Some (Buffer.toString_utf8 payload))
   ↔ submitted = jobTxid).
Proof.
  intros Hlib Hid Hne. cbn zeta.
  pose proof (fromHex_toHex _ (opReturn_wf jobTxid resultText Hid Hne)) as Hrt.
  destruct (txid_hex_roundtrip jobTxid Hid) as [Hhex _].
  assert (Bridge.res_of_script lib
            (Script.toHex (Agent.opReturn jobTxid (fst (Agent.resultBuf resultText))))
            submitted
          = Ok (if String.eqb jobTxid submitted
                then Some (Buffer.toString_utf8 (fst (Agent.resultBuf resultText)))
                else None)) as Hres.
  { unfold Bridge.res_of_script. rewrite Hlib, Hrt. cbn [Agent.rbind].
    rewrite pushes_opReturn.
    change (String.eqb (Buffer.toString_utf8 (Buffer.from_utf8 "RES")) "RES")
      with true. cbv iota.
    rewrite rev_involutive, Hhex.
    now destruct (String.eqb jobTxid submitted). }
  split_and!.
  - reflexivity.
  - exact Hrt.
  - now rewrite rev_involutive.
  - exact Hres.
  - rewrite Hres. destruct (String.eqb_spec jobTxid submitted) as [->|Hneq].
    + split; reflexivity.
    + split; [discriminate | congruence].
Qed.

(** C8 at work: the settlement of [id2] answering ["4"]. *)
Lemma C8_witness :
  let payload := fst (Agent.resultBuf "4") in
  let script := Agent.opReturn Sample.id2 payload in
  Agent.pushes_of script !! 1%nat = Some (rev (Buffer.from_hex Sample.id2)) ∧
  Script.fromHex (Script.toHex script) = Ok script ∧
  Buffer.toString_hex (rev (rev (Buffer.from_hex Sample.id2))) = Sample.id2 ∧
  Bridge.res_of_script Sample.lib (Script.toHex script) Sample.id1
  = Ok (if String.eqb Sample.id2 Sample.id1
        then Some (Buffer.toString_utf8 payload) else None) ∧
  (Bridge.res_of_script Sample.lib (Script.toHex script) Sample.id1
   = Ok (Some (Buffer.toString_utf8 payload))
   ↔ Sample.id1 = Sample.id2).
Proof.
  apply (C8_back_reference_roundtrip Sample.lib Sample.id2 "4" Sample.id1).
  - intros hex. reflexivity.
  - split; vm_compute; reflexivity.
  - discriminate.
Defined.

(** The whole exchange: the agent settles the request of [id1]; the bridge,
    reading the agent's history from the ledger, finds the answer. *)
Example bridge_finds_the_answer :
  let env := Sample.env1 (Ok Sample.resid) in
  let w := snd (Agent.pollForJobs Sample.lib env Sample.wallet Sample.privKey
                  Sample.world0) in
  let ledger id :=
    if String.eqb id Sample.resid
    then Ok (option_map (Sample.on_ledger Sample.resid) (head (Agent.broadcasts w)))
    else Agent.get_tx env id in
  Bridge.waitForResponse Sample.lib
    [ {| Bridge.jobs_file := None;
         Bridge.history_now := Ok (Some [Sample.id1; Sample.resid]);
         Bridge.tx_now := ledger |} ]
    Sample.id1
  = Ok (Some "4").
Proof. vm_compute. reflexivity. Qed.

(** ** Pending entries of a conversation (C9) *)

Section Conversations.
Import Web.

Lemma load_save ip h (fs : Files) :
  loadConversation ip (saveConversation ip h fs) = h.
Proof.
  unfold loadConversation, saveConversation. now rewrite lookup_insert_eq.
Qed.

Lemma pending_count_app h1 h2 :
  pending_count (h1 ++ h2) = (pending_count h1 + pending_count h2)%nat.
Proof. unfold pending_count. now rewrite List.filter_app, length_app. Qed.

Lemma chat_begin_spec ip prompt now (fs : Files) :
  let h0 := loadConversation ip fs in
  fst (chat_begin ip prompt now fs)
  = saveConversation ip (h0 ++ [pending_entry prompt now]) fs ∧
  Web.ip (snd (chat_begin ip prompt now fs)) = ip ∧
  req_prompt (snd (chat_begin ip prompt now fs)) = prompt ∧
  history (snd (chat_begin ip prompt now fs)) = h0 ++ [pending_entry prompt now].
Proof. cbn zeta. unfold chat_begin. cbn. split_and!; reflexivity. Qed.

(** The [catch] undoes the append. *)
Lemma chat_failure_after_begin ip prompt now (fs : Files) :
  chat_failure ip (fst (chat_begin ip prompt now fs))
  = saveConversation ip (loadConversation ip fs) fs.
Proof.
  destruct (chat_begin_spec ip prompt now fs) as (-> & _).
  unfold chat_failure. rewrite load_save, last_snoc.
  cbn [pending_entry pending]. rewrite removelast_last.
  unfold saveConversation. now rewrite insert_insert_eq.
Qed.

Lemma conversation_save dir ip h (fs : Files) :
  default [] (saveConversation ip h fs !! dir)
  = if decide (ipToDir ip = dir) then h else default [] (fs !! dir).
Proof.
  unfold saveConversation. destruct (decide (ipToDir ip = dir)) as [<-|Hne].
  - now rewrite lookup_insert_eq.
  - now rewrite lookup_insert_ne.
Qed.

(** With no pending entry the [catch] has nothing to remove. *)
Lemma chat_failure_idle ip (fs : Files) :
  pending_count (loadConversation ip fs) = 0%nat → chat_failure ip fs = fs.
Proof.
  intros Hzero. unfold chat_failure.
  destruct (last (loadConversation ip fs)) as [e|] eqn:El; [|reflexivity].
  destruct (pending e) eqn:Ep; [|reflexivity].
  apply last_Some in El as [h Eh]. rewrite Eh in Hzero.
  rewrite pending_count_app in Hzero. unfold pending_count at 2 in Hzero.
  cbn in Hzero. rewrite Ep in Hzero. cbn in Hzero. lia.
Qed.

Lemma served_idle (s : State) :
  inflight s = ∅ →
  (∀ dir, pending_count (conversation dir s) = 0%nat) →
  served s.
Proof.
  intros Hin Hzero. split.
  - intros dir. rewrite Hzero. lia.
  - intros dir _. apply Hzero.
  - intros id r. rewrite Hin, lookup_empty. discriminate.
  - intros id id' r r'. rewrite Hin, lookup_empty. discriminate.
Qed.

(** The end of a request, successful or not, leaves its conversation
    with no pending entry. *)
Lemma served_end (s : State) id r h :
  served s → inflight s !! id = Some r →
  pending_count h = 0%nat →
  served {| files := saveConversation (ip r) h (files s);
            inflight := delete id (inflight s) |}.
Proof.
  intros [Hbound Hidle Hbusy Huniq] Hr Hh.
  assert (∀ dir, conversation dir
                   {| files := saveConversation (ip r) h (files s);
                      inflight := delete id (inflight s) |}
                 = if decide (ipToDir (ip r) = dir) then h
                   else conversation dir s) as Hconv.
  { intros dir. unfold conversation. cbn [files]. apply conversation_save. }
  split.
  - intros dir. rewrite Hconv. destruct (decide _); [lia | apply Hbound].
  - intros dir Hno. rewrite Hconv.
    destruct (decide (ipToDir (ip r) = dir)) as [_|Hne]; [exact Hh|].
    apply Hidle. intros (id' & r' & Hr' & Hd).
    apply Hno. exists id', r'. split; [|exact Hd]. cbn [inflight].
    rewrite lookup_delete_ne; [exact Hr'|]. intros <-. congruence.
  - intros id' r'. cbn [inflight]. intros Hr'.
    apply lookup_delete_Some in Hr' as [Hne Hr'].
    rewrite Hconv.
    destruct (decide (ipToDir (ip r) = ipToDir (ip r'))) as [E|_].
    + destruct Hne. exact (Huniq _ _ _ _ Hr Hr' E).
    + exact (Hbusy _ _ Hr').
  - intros id1 id2 r1 r2. cbn [inflight]. intros H1 H2.
    apply lookup_delete_Some in H1 as [_ H1].
    apply lookup_delete_Some in H2 as [_ H2].
    exact (Huniq _ _ _ _ H1 H2).
Qed.

Lemma exec_served (e : Event) (s s' : State) :
  served s → no_overlap e s → exec e s = Some s' → served s'.
Proof.
  intros Hs Hno He.
  destruct e as [id ip prompt now|id result txid now|id|ip]; cbn [exec] in He.
  - destruct (inflight s !! id) eqn:Hfresh; [discriminate|].
    unfold chat_begin in He. injection He as <-.
    cbn [no_overlap] in Hno.
    destruct Hs as [Hbound Hidle Hbusy Huniq].
    pose proof (Hidle _ Hno) as Hzero.
    set (r := {| Web.ip := ip; req_prompt := prompt;
                 history := loadConversation ip (files s)
                            ++ [{| prompt := prompt; result := None;
                                   txid := None; timestamp := now;
                                   pending := true |}];
                 contextPrompt :=
                   buildContextPrompt (loadConversation ip (files s)) prompt |}).
    assert (∀ dir, conversation dir
                     {| files := saveConversation ip (history r) (files s);
                        inflight := <[id := r]> (inflight s) |}
                   = if decide (ipToDir ip = dir) then history r
                     else conversation dir s) as Hconv.
    { intros dir. unfold conversation. cbn [files]. apply conversation_save. }
    assert (pending_count (history r) = 1%nat) as Hone.
    { subst r. cbn [history]. rewrite pending_count_app.
      unfold conversation, loadConversation in *. rewrite Hzero. reflexivity. }
    split.
    + intros dir. rewrite Hconv. destruct (decide _); [lia | apply Hbound].
    + intros dir Hidle'. rewrite Hconv.
      destruct (decide (ipToDir ip = dir)) as [<-|Hne].
      * destruct Hidle'. exists id, r. cbn [inflight].
        rewrite lookup_insert_eq. split; reflexivity.
      * apply Hidle. intros (id' & r' & Hr' & Hd). apply Hidle'.
        exists id', r'. split; [|exact Hd]. cbn [inflight].
        rewrite lookup_insert_ne; [exact Hr'|]. intros <-. congruence.
    + intros id' r'. cbn [inflight]. intros Hr'.
      apply lookup_insert_Some in Hr' as [[<- <-] | [Hne Hr']].
      * rewrite Hconv. cbn [Web.ip r]. rewrite decide_True by reflexivity.
        split; [reflexivity|].
        eexists _, _. split; [reflexivity|]. split; [reflexivity|].
        unfold conversation, loadConversation in *. exact Hzero.
      * rewrite Hconv.
        destruct (decide (ipToDir ip = ipToDir (Web.ip r'))) as [E|_].
        -- destruct Hno. exists id', r'. split; [exact Hr' | now symmetry].
        -- exact (Hbusy _ _ Hr').
    + intros id1 id2 r1 r2. cbn [inflight]. intros H1 H2 E.
      apply lookup_insert_Some in H1 as [[<- <-] | [Hne1 H1]];
        apply lookup_insert_Some in H2 as [[<- <-] | [Hne2 H2]].
      * reflexivity.
      * destruct Hno. exists id2, r2. split; [exact H2 | now symmetry].
      * destruct Hno. exists id1, r1. split; [exact H1 | exact E].
      * exact (Huniq _ _ _ _ H1 H2 E).
  - destruct (inflight s !! id) as [r|] eqn:Hr; [|discriminate].
    injection He as <-. unfold chat_success.
    destruct (sv_busy s Hs id r Hr) as (_ & h0 & e & -> & _ & Hh0).
    rewrite length_app. cbn [length].
    replace (length h0 + 1 - 1)%nat with (length h0 + 0)%nat by lia.
    rewrite insert_app_r. cbn [insert list_insert].
    apply (served_end s id r _ Hs Hr).
    rewrite pending_count_app, Hh0. reflexivity.
  - destruct (inflight s !! id) as [r|] eqn:Hr; [|discriminate].
    injection He as <-. unfold chat_failure.
    destruct (sv_busy s Hs id r Hr) as (Hc & h0 & e & Hh & He & Hh0).
    unfold conversation, loadConversation in *. rewrite Hc, Hh, last_snoc, He.
    rewrite removelast_last.
    exact (served_end s id r _ Hs Hr Hh0).
  - injection He as <-. cbn [no_overlap] in Hno.
    rewrite (chat_failure_idle ip (files s) (sv_idle s Hs _ Hno)).
    now destruct s.
Qed.

Lemma run_served (trace : list Event) (s : State) :
  served s → non_overlapping trace s →
  ∃ s', run trace s = Some s' ∧ served s'.
Proof.
  revert s. induction trace as [|e rest IH]; intros s Hs Hno.
  - now exists s.
  - cbn [non_overlapping] in Hno. destruct Hno as [He Hrest].
    cbn [run]. destruct (exec e s) as [s1|] eqn:E; [|contradiction].
    apply IH; [|exact Hrest]. exact (exec_served e s s1 Hs He E).
Qed.

End Conversations.

(** The computed check of non-overlap is sound. *)
Lemma busy_spec (dir : string) (s : Web.State) :
  Web.in_flight_for dir s ↔ Web.busy dir s = true.
Proof.
  unfold Web.in_flight_for, Web.busy. rewrite existsb_exists. split.
  - intros (id & r & Hr & Hd). exists (id, r). split.
    + apply list_elem_of_In, elem_of_map_to_list. exact Hr.
    + cbn [snd]. now apply String.eqb_eq.
  - intros ([id r] & Hin & Hd). exists id, r. split.
    + apply elem_of_map_to_list, list_elem_of_In. exact Hin.
    + cbn [snd] in Hd. now apply String.eqb_eq.
Qed.

Lemma non_overlappingb_sound (trace : list Web.Event) (s : Web.State) :
  Web.non_overlappingb trace s = true → Web.non_overlapping trace s.
Proof.
  revert s. induction trace as [|e rest IH]; intros s; [easy|].
  cbn [Web.non_overlappingb Web.non_overlapping].
  intros H. apply andb_true_iff in H as [He Hrest]. split.
  - destruct e as [id ip prompt now| | |ip]; cbn [Web.no_overlap];
      try exact I; rewrite busy_spec;
      now destruct (Web.busy (Web.ipToDir ip) s).
  - destruct (Web.exec e s) as [s'|]; [now apply IH | discriminate].
Qed.

(** C9, as stated, fails: the handler of a second request of the same
    requester runs while the first awaits the inference call, and the
    conversation then holds two pending entries; when the first request
    then fails, its [catch] removes the entry of the second, and the
    conversation is not what it was before the attempt. *)
Lemma C9_counterexample :
  let s0 := {| Web.files := ∅; Web.inflight := ∅ |} in
  let overlap := [Web.Begin 1 "203.0.113.7" "first" "t1";
                  Web.Begin 2 "203.0.113.7" "second" "t2"] in
  (∃ s, Web.run overlap s0 = Some s ∧
        Web.pending_count (Web.loadConversation "203.0.113.7" (Web.files s))
        = 2%nat) ∧
  (∃ s, Web.run (overlap ++ [Web.Fail 1]) s0 = Some s ∧
        Web.loadConversation "203.0.113.7" (Web.files s)
        = [Web.pending_entry "first" "t1"] ∧
        Web.loadConversation "203.0.113.7" (Web.files s)
        ≠ Web.loadConversation "203.0.113.7" (Web.files s0)).
Proof.
  cbn zeta. split.
  - eexists. split; [vm_compute; reflexivity|]. vm_compute. reflexivity.
  - eexists. split; [vm_compute; reflexivity|].
    split; [vm_compute; reflexivity | vm_compute; discriminate].
Qed.

(** C9 (amended): when the requests of one requester do not overlap
    (those of different requesters may) and no conversation holds a
    pending entry to begin with, no conversation ever holds more than one
    pending entry; and a request that fails after its pending entry was
    appended, with no other request of the requester running in between,
    leaves the conversation as it was before the attempt: the handler
    answers 500 and the entry is gone. *)
Theorem C9_pending_cleanup (trace : list Web.Event) (s : Web.State)
    (env : Web.Env) (ip prompt : string) (fs : Web.Files) :
  Web.inflight s = ∅ →
  (∀ dir, Web.pending_count (Web.conversation dir s) = 0%nat) →
  Web.non_overlapping trace s →
  prompt ≠ "" →
  (∃ s', Web.run trace s = Some s' ∧
         ∀ dir, (Web.pending_count (Web.conversation dir s') <= 1)%nat) ∧
  Web.loadConversation ip (fst (Web.chat_begin ip prompt (Web.now env) fs))
  = Web.loadConversation ip fs ++ [Web.pending_entry prompt (Web.now env)] ∧
  Web.loadConversation ip
    (Web.chat_failure ip (fst (Web.chat_begin ip prompt (Web.now env) fs)))
  = Web.loadConversation ip fs ∧
  (snd (Web.chat env ip (Ok prompt) fs) = 500%Z →
   Web.loadConversation ip (fst (Web.chat env ip (Ok prompt) fs))
   = Web.loadConversation ip fs).
Proof.
  intros Hin Hzero Hno Hne.
  split.
  { destruct (run_served trace s (served_idle s Hin Hzero) Hno) as (s' & Hrun & Hs').
    exists s'. split; [exact Hrun | exact (Web.sv_bound s' Hs')]. }
  pose proof (chat_failure_after_begin ip prompt (Web.now env) fs) as Hfail.
  split_and!.
  - destruct (chat_begin_spec ip prompt (Web.now env) fs) as (-> & _).
    apply load_save.
  - rewrite Hfail. apply load_save.
  - unfold Web.chat. destruct prompt as [|c p]; [congruence|].
    destruct (Web.chat_begin ip (String c p) (Web.now env) fs) as [fs1 r] eqn:E.
    cbn [fst] in Hfail.
    destruct (Web.llm env (Web.contextPrompt r)) as [result|m].
    + destruct (Web.postOnChain env (String c p) result) as [txid|m].
      * cbn [snd]. discriminate.
      * intros _. cbn [fst]. rewrite Hfail. apply load_save.
    + intros _. cbn [fst]. rewrite Hfail. apply load_save.
Qed.

(** C9 at work: a request of another requester runs while the first one
    is served; the second request of the first requester comes after the
    first has ended, and fails on the LLM timeout. *)
Lemma C9_witness :
  let s0 := {| Web.files := ∅; Web.inflight := ∅ |} in
  let env := {| Web.llm := fun _ => Throw "LLM timeout";
                Web.postOnChain := fun _ _ => Ok Sample.resid;
                Web.now := "t3" |} in
  let trace := [Web.Begin 1 "203.0.113.7" "first" "t1";
                Web.Begin 2 "198.51.100.2" "other" "t1";
                Web.Succeed 1 "4" Sample.resid "t2";
                Web.Reject "203.0.113.7";
                Web.Begin 3 "203.0.113.7" "second" "t3";
                Web.Fail 3] in
  (∃ s', Web.run trace s0 = Some s' ∧
         ∀ dir, (Web.pending_count (Web.conversation dir s') <= 1)%nat) ∧
  Web.loadConversation "203.0.113.7"
    (fst (Web.chat_begin "203.0.113.7" "second" (Web.now env) ∅))
  = Web.loadConversation "203.0.113.7" ∅
    ++ [Web.pending_entry "second" (Web.now env)] ∧
  Web.loadConversation "203.0.113.7"
    (Web.chat_failure "203.0.113.7"
       (fst (Web.chat_begin "203.0.113.7" "second" (Web.now env) ∅)))
  = Web.loadConversation "203.0.113.7" ∅ ∧
  (snd (Web.chat env "203.0.113.7" (Ok "second") ∅) = 500%Z →
   Web.loadConversation "203.0.113.7"
     (fst (Web.chat env "203.0.113.7" (Ok "second") ∅))
   = Web.loadConversation "203.0.113.7" ∅).
Proof.
  apply (C9_pending_cleanup
           [Web.Begin 1 "203.0.113.7" "first" "t1";
            Web.Begin 2 "198.51.100.2" "other" "t1";
            Web.Succeed 1 "4" Sample.resid "t2";
            Web.Reject "203.0.113.7";
            Web.Begin 3 "203.0.113.7" "second" "t3";
            Web.Fail 3]
           {| Web.files := ∅; Web.inflight := ∅ |}).
  - reflexivity.
  - intros dir. reflexivity.
  - apply non_overlappingb_sound. vm_compute. reflexivity.
  - discriminate.
Defined.

(** * The rest of the code *)

(** ** Trimming *)

Section Trim.
Import Agent.

(** [trim] on the bytes of the text. *)
Lemma trim_bytes (s : string) :
  list_byte_of_string (trim s)
  = rev (drop_leading (map (@rev byte) white_space)
           (length (drop_leading white_space (length (list_byte_of_string s))
                      (list_byte_of_string s)))
           (rev (drop_leading white_space (length (list_byte_of_string s))
                   (list_byte_of_string s)))).
Proof.
  unfold trim. cbv zeta. rewrite !rev_append_rev, !app_nil_r.
  now rewrite list_byte_of_string_of_list_byte.
Qed.

Lemma drop_one_Some pats (s s' : list byte) :
  drop_one pats s = Some s' -> exists p, In p pats /\ s = p ++ s'.
Proof.
  induction pats as [|p ps IH]; cbn [drop_one]; [discriminate|].
  case_bool_decide as E.
  - intros [= <-]. exists p. split; [now left|].
    rewrite <- E at 1. now rewrite firstn_skipn.
  - intros H. destruct (IH H) as (q & Hq & ->). exists q.
    split; [now right | reflexivity].
Qed.

Lemma drop_one_None pats (s : list byte) :
  drop_one pats s = None <-> Forall (fun p => firstn (length p) s <> p) pats.
Proof.
  induction pats as [|p ps IH]; cbn [drop_one].
  - split; [constructor | reflexivity].
  - case_bool_decide as E.
    + split; [discriminate|]. intros H. inversion H; subst. contradiction.
    + rewrite IH. split.
      * intros H. now constructor.
      * intros H. now inversion H.
Qed.

Lemma drop_leading_suffix pats fuel (s : list byte) :
  exists pre, s = pre ++ drop_leading pats fuel s.
Proof.
  revert s. induction fuel as [|fuel IH]; intros s; cbn [drop_leading].
  - now exists [].
  - destruct (drop_one pats s) as [s'|] eqn:E; [|now exists []].
    apply drop_one_Some in E as (p & _ & ->).
    destruct (IH s') as [pre Hpre]. exists (p ++ pre).
    rewrite <- app_assoc. now rewrite <- Hpre.
Qed.

Lemma drop_one_nil pats :
  Forall (fun p : list byte => p <> []) pats -> drop_one pats [] = None.
Proof.
  intros Hne. apply drop_one_None. eapply Forall_impl; [exact Hne|].
  intros p Hp. cbn beta. rewrite firstn_nil. congruence.
Qed.

Lemma drop_leading_done pats fuel (s : list byte) :
  Forall (fun p => p <> []) pats -> (length s <= fuel)%nat ->
  drop_one pats (drop_leading pats fuel s) = None.
Proof.
  intros Hne. revert s. induction fuel as [|fuel IH]; intros s Hlen;
    cbn [drop_leading].
  - destruct s; [|cbn in Hlen; lia]. now apply drop_one_nil.
  - destruct (drop_one pats s) as [s'|] eqn:E; [|exact E].
    apply IH. apply drop_one_Some in E as (p & Hin & ->).
    pose proof (proj1 (List.Forall_forall _ _) Hne p Hin) as Hp.
    rewrite length_app in Hlen. destruct p; [congruence|]. cbn in Hlen. lia.
Qed.

Lemma drop_leading_fixed pats fuel (s : list byte) :
  drop_one pats s = None -> drop_leading pats fuel s = s.
Proof. intros E. destruct fuel; cbn [drop_leading]; [reflexivity | now rewrite E]. Qed.

Lemma white_space_nonempty : Forall (fun p : list byte => p <> []) white_space.
Proof. repeat constructor; discriminate. Qed.

Lemma white_space_rev_nonempty :
  Forall (fun p : list byte => p <> []) (map (@rev byte) white_space).
Proof. repeat constructor; discriminate. Qed.

(** The text [trim] returns stands in the text it is given. *)
Lemma trim_infix (s : string) :
  exists pre post,
    list_byte_of_string s = pre ++ list_byte_of_string (trim s) ++ post.
Proof.
  rewrite trim_bytes.
  set (b := list_byte_of_string s).
  destruct (drop_leading_suffix white_space (length b) b) as [pre Hpre].
  set (b1 := drop_leading white_space (length b) b) in *.
  destruct (drop_leading_suffix (map (@rev byte) white_space) (length b1) (rev b1))
    as [post Hpost].
  set (b2 := drop_leading _ (length b1) (rev b1)) in *.
  exists pre, (rev post).
  rewrite Hpre at 1. f_equal.
  rewrite <- rev_app_distr, <- Hpost. now rewrite rev_involutive.
Qed.

(** Nothing is left to trim at either end. *)
Lemma trim_ends (s : string) :
  drop_one white_space (list_byte_of_string (trim s)) = None /\
  drop_one (map (@rev byte) white_space) (rev (list_byte_of_string (trim s))) = None.
Proof.
  rewrite trim_bytes.
  set (b := list_byte_of_string s).
  set (b1 := drop_leading white_space (length b) b).
  set (b2 := drop_leading _ (length b1) (rev b1)).
  assert (drop_one white_space b1 = None) as H1.
  { apply drop_leading_done; [apply white_space_nonempty | lia]. }
  assert (drop_one (map (@rev byte) white_space) b2 = None) as H2.
  { apply drop_leading_done; [apply white_space_rev_nonempty|].
    rewrite length_rev. lia. }
  split; [|now rewrite rev_involutive].
  destruct (drop_leading_suffix (map (@rev byte) white_space) (length b1) (rev b1))
    as [pre Hpre]. fold b2 in Hpre.
  assert (b1 = rev b2 ++ rev pre) as Hb1.
  { rewrite <- rev_app_distr, <- Hpre. now rewrite rev_involutive. }
  apply drop_one_None. rewrite drop_one_None in H1.
  eapply Forall_impl; [exact H1|]. cbn beta. intros p Hp E. apply Hp.
  rewrite Hb1. rewrite firstn_app.
  assert (length p <= length (rev b2))%nat as Hle.
  { rewrite <- E at 1. rewrite length_firstn. lia. }
  replace (length p - length (rev b2))%nat with 0%nat by lia.
  cbn [firstn]. now rewrite app_nil_r.
Qed.

Lemma trim_fixed (s : string) :
  drop_one white_space (list_byte_of_string s) = None ->
  drop_one (map (@rev byte) white_space) (rev (list_byte_of_string s)) = None ->
  trim s = s.
Proof.
  intros H1 H2.
  rewrite <- (string_of_list_byte_of_string (trim s)), trim_bytes.
  rewrite (drop_leading_fixed _ _ _ H1), (drop_leading_fixed _ _ _ H2).
  now rewrite rev_involutive, string_of_list_byte_of_string.
Qed.

Lemma trim_idempotent (s : string) : trim (trim s) = trim s.
Proof. destruct (trim_ends s). now apply trim_fixed. Qed.

End Trim.

(** ** The gateway's answer to a broadcast *)

Section Reply.
Import Agent.

Lemma occurs_bytes (c : ascii) (s : string) :
  Text.occurs c s = true <-> In (byte_of_ascii c) (list_byte_of_string s).
Proof.
  unfold list_byte_of_string.
  induction s as [|a r IH]; cbn [Text.occurs list_ascii_of_string map In].
  - split; [discriminate | tauto].
  - rewrite orb_true_iff, IH. split; (intros [H|H]; [left | now right]).
    + apply Ascii.eqb_eq in H. now subst.
    + apply Ascii.eqb_eq.
      rewrite <- (ascii_of_byte_of_ascii a), <- (ascii_of_byte_of_ascii c).
      now f_equal.
Qed.

Lemma occurs_trim (c : ascii) (s : string) :
  Text.occurs c s = false -> Text.occurs c (trim s) = false.
Proof.
  intros H. destruct (Text.occurs c (trim s)) eqn:E; [|reflexivity].
  apply occurs_bytes in E.
  destruct (trim_infix s) as (pre & post & Hs).
  assert (Text.occurs c s = true) as H'; [|congruence].
  apply occurs_bytes. rewrite Hs. apply in_or_app. right.
  apply in_or_app. now left.
Qed.

Lemma occurs_replace (c : ascii) (s : string) :
  Text.occurs c (Text.replace c "" s) = false.
Proof.
  induction s as [|a r IH]; cbn [Text.replace]; [reflexivity|].
  destruct (Ascii.eqb a c) eqn:E; [exact IH|].
  cbn [Text.occurs]. now rewrite E, IH.
Qed.

Lemma replace_absent (c : ascii) (new s : string) :
  Text.occurs c s = false -> Text.replace c new s = s.
Proof.
  induction s as [|a r IH]; cbn [Text.replace Text.occurs]; [reflexivity|].
  intros H. apply orb_false_iff in H as [-> H]. now rewrite IH.
Qed.

Lemma append_cons (a : ascii) (r s : string) :
  String a r +:+ s = String a (r +:+ s).
Proof. reflexivity. Qed.

Lemma append_empty (s : string) : "" +:+ s = s.
Proof. reflexivity. Qed.

Lemma append_assoc (s1 s2 s3 : string) :
  (s1 +:+ s2) +:+ s3 = s1 +:+ (s2 +:+ s3).
Proof.
  induction s1 as [|a r IH]; [reflexivity|].
  rewrite !append_cons. now f_equal.
Qed.

Lemma replace_app (c : ascii) (new s1 s2 : string) :
  Text.replace c new (s1 +:+ s2)
  = Text.replace c new s1 +:+ Text.replace c new s2.
Proof.
  induction s1 as [|a r IH]; [reflexivity|].
  rewrite append_cons. cbn [Text.replace]. rewrite IH.
  destruct (Ascii.eqb a c); [|reflexivity].
  now rewrite append_assoc.
Qed.

(** No white-space pattern starts, or ends, with a hex digit. *)
Lemma drop_one_head pats (x : byte) (tl : list byte) :
  forallb (fun p => match p with
                    | [] => false
                    | y :: _ => negb (bool_decide (y = x))
                    end) pats = true ->
  drop_one pats (x :: tl) = None.
Proof.
  intros H. apply drop_one_None.
  induction pats as [|p ps IH]; [constructor|].
  cbn [forallb] in H. apply andb_true_iff in H as [Hp Hps].
  constructor; [|now apply IH].
  destruct p as [|y p]; [discriminate|].
  cbn. intros [= -> _]. now rewrite bool_decide_eq_true_2 in Hp.
Qed.

Lemma hex_not_white (a : ascii) (tl : list byte) :
  Buffer.is_lower_hex a = true ->
  drop_one white_space (byte_of_ascii a :: tl) = None /\
  drop_one (map (@rev byte) white_space) (byte_of_ascii a :: tl) = None.
Proof.
  intros H. apply lower_hex_digit in H.
  split; apply drop_one_head;
    repeat (destruct H as [<-|H]; [vm_compute; reflexivity|]);
    destruct H.
Qed.

Lemma all_lower_hex_bytes (s : string) :
  Buffer.all_lower_hex s = true ->
  Forall (fun x => exists a, x = byte_of_ascii a /\ Buffer.is_lower_hex a = true)
    (list_byte_of_string s).
Proof.
  unfold list_byte_of_string.
  induction s as [|a r IH]; cbn [Buffer.all_lower_hex list_ascii_of_string map];
    [constructor|].
  intros H. apply andb_true_iff in H as [Ha Hr].
  constructor; [now exists a | now apply IH].
Qed.

(** A hex text is left as it is by [trim]. *)
Lemma trim_hex (s : string) : Buffer.all_lower_hex s = true -> trim s = s.
Proof.
  intros H. apply all_lower_hex_bytes in H.
  apply trim_fixed.
  - destruct (list_byte_of_string s) as [|x l];
      [apply drop_one_nil, white_space_nonempty|].
    inversion H as [|? ? (a & -> & Ha) _].
    destruct (hex_not_white a l Ha) as [Hfront _]. exact Hfront.
  - apply List.Forall_rev in H.
    destruct (rev (list_byte_of_string s)) as [|x l];
      [apply drop_one_nil, white_space_rev_nonempty|].
    inversion H as [|? ? (a & -> & Ha) _].
    destruct (hex_not_white a l Ha) as [_ Hback]. exact Hback.
Qed.

Lemma hex_no_quote (s : string) :
  Buffer.all_lower_hex s = true -> Text.occurs Text.double_quote s = false.
Proof.
  induction s as [|a r IH]; cbn [Buffer.all_lower_hex Text.occurs];
    [reflexivity|].
  intros H. apply andb_true_iff in H as [Ha Hr]. rewrite (IH Hr), orb_false_r.
  apply lower_hex_digit in Ha.
  repeat (destruct Ha as [<-|Ha]; [reflexivity|]). destruct Ha.
Qed.

End Reply.

(** X1: [wocBroadcast] rejects every response whose status is 400 or more
    with the message ["Broadcast: "] followed by the body; any other
    response resolves to a text that holds no double quote and has no
    white space left at either end; and the id of a transaction, sent back
    bare or as a JSON string, is resolved to that id. *)
Theorem X1_wocBroadcast_reply (statusCode : Z) (d : string) :
  ((400 <= statusCode)%Z →
   Gateway.wocBroadcast (Gateway.Responded statusCode d)
   = Throw ("Broadcast: " +:+ d)) ∧
  ((statusCode < 400)%Z →
   ∃ txid,
     Gateway.wocBroadcast (Gateway.Responded statusCode d) = Ok txid ∧
     Text.occurs Text.double_quote txid = false ∧
     Agent.trim txid = txid) ∧
  (∀ id,
     (statusCode < 400)%Z → Ledger.is_txid id →
     d = id ∨ d = String Text.double_quote (id +:+ String Text.double_quote "") →
     Gateway.wocBroadcast (Gateway.Responded statusCode d) = Ok id).
Proof.
  unfold Gateway.wocBroadcast. split_and!.
  - intros H. destruct (Z.leb_spec 400 statusCode); [reflexivity | lia].
  - intros H. destruct (Z.leb_spec 400 statusCode); [lia|].
    eexists. split; [reflexivity|]. split.
    + apply occurs_trim, occurs_replace.
    + apply trim_idempotent.
  - intros id H [_ Hhex] Hd. destruct (Z.leb_spec 400 statusCode); [lia|].
    f_equal. pose proof (hex_no_quote id Hhex) as Hq.
    assert (Text.replace Text.double_quote "" d = id) as ->;
      [|now apply trim_hex].
    destruct Hd as [-> | ->]; [now apply replace_absent|].
    cbn [Text.replace]. rewrite Ascii.eqb_refl, append_empty.
    rewrite replace_app, (replace_absent _ _ _ Hq). cbn [Text.replace].
    rewrite Ascii.eqb_refl, append_empty.
    clear. induction id as [|c r IH]; [reflexivity|].
    rewrite append_cons. now f_equal.
Qed.

(** ** Records and broadcasts *)

Section Bookkeeping.
Import Agent.
Local Open Scope Z_scope.

Variable lib : Library.
Variable wallet : Wallet.
Variable privKey : PrivateKey.

Lemma extends_refl w : Books.extends w w.
Proof.
  exists [], []. rewrite !app_nil_r. split_and!; try reflexivity; constructor.
Qed.

Lemma extends_trans w1 w2 w3 :
  Books.extends w1 w2 -> Books.extends w2 w3 -> Books.extends w1 w3.
Proof.
  intros (a1 & s1 & Hj1 & Hb1 & Hf1 & Hw1) (a2 & s2 & Hj2 & Hb2 & Hf2 & Hw2).
  exists (a1 ++ a2), (s1 ++ s2).
  rewrite Hj2, Hj1, Hb2, Hb1, !app_assoc.
  split_and!; try reflexivity.
  - now apply Forall2_app.
  - now apply Forall_app.
Qed.

(** Worlds with the same files. *)
Lemma extends_same w w' :
  jobs_json w' = jobs_json w -> broadcasts w' = broadcasts w ->
  Books.extends w w'.
Proof.
  intros Hj Hb. exists [], []. rewrite !app_nil_r.
  split_and!; try assumption; constructor.
Qed.

Lemma processJob_extends env txid w :
  Books.extends w (snd (processJob lib env wallet privKey txid w)).
Proof.
  unfold processJob, bind, await, log, try_catch, saveJob, wocBroadcast,
    loadJobs, writeJobs, ret.
  cbn -[findOurOutputs buildResponseTx askLLM parseJobFromTx].
  destruct (get_tx env txid) as [[tx|]|m];
    cbn -[findOurOutputs buildResponseTx askLLM parseJobFromTx];
    try (apply extends_same; reflexivity).
  destruct (parseJobFromTx lib tx) as [[[|c p]|]|m];
    cbn -[findOurOutputs buildResponseTx askLLM parseJobFromTx];
    try (apply extends_same; reflexivity).
  destruct (findOurOutputs tx (address wallet)) as [|u us] eqn:Eu;
    cbn -[findOurOutputs buildResponseTx askLLM parseJobFromTx];
    try (apply extends_same; reflexivity).
  rewrite <- Eu.
  destruct (buildResponseTx lib privKey (findOurOutputs tx (address wallet)) txid
              (askLLM env (String c p))) as [built|m] eqn:Eb;
    cbn -[findOurOutputs buildResponseTx askLLM parseJobFromTx];
    try (apply extends_same; reflexivity).
  destruct (buildResponseTx_inv lib privKey _ _ _ _ Eb) as (Hk & Hh & Ho).
  rewrite Eu in Hk. unfold sum_satoshis in Hk. cbn [fold_left] in Hk.
  destruct (post_tx_raw env (res_tx built)) as [resTxid|m];
    cbn -[findOurOutputs buildResponseTx askLLM parseJobFromTx].
  - destruct (res_isHashed built) eqn:E;
      cbn -[findOurOutputs buildResponseTx askLLM parseJobFromTx];
      (eexists [_], [_]; split_and!; [reflexivity | reflexivity | |]).
    + constructor; [|constructor].
      exists (askLLM env (String c p)). cbn -[askLLM].
      split; [now rewrite Ho|]. right. split; [reflexivity | congruence].
    + constructor; [|constructor]. left. unfold Books.settled.
      cbn -[findOurOutputs]. rewrite Hk. apply Z.eqb_refl.
    + constructor; [|constructor].
      exists (askLLM env (String c p)). cbn -[askLLM].
      split; [now rewrite Ho | now left].
    + constructor; [|constructor]. left. unfold Books.settled.
      cbn -[findOurOutputs]. rewrite Hk. apply Z.eqb_refl.
  - eexists [_], [_]. split_and!; try reflexivity.
    + constructor; [|constructor].
      exists (askLLM env (String c p)). cbn -[askLLM].
      split; [now rewrite Ho | now left].
    + constructor; [|constructor]. now right.
Qed.

Lemma poll_entry_extends env txid w :
  Books.extends w (snd (poll_entry lib env wallet privKey txid w)).
Proof.
  destruct (poll_entry_cases lib wallet privKey env txid w)
    as [[_ ->] | [(_ & _ & ->) | (_ & _ & ->)]]; cbn [snd].
  - apply extends_refl.
  - now apply extends_same.
  - apply (extends_trans _ (mark txid w)); [now apply extends_same|].
    apply processJob_extends.
Qed.

Lemma pollForJobs_extends env w :
  Books.extends w (snd (pollForJobs lib env wallet privKey w)).
Proof.
  unfold pollForJobs, try_catch, bind, await.
  destruct (get_history env (address wallet)) as [[history|]|m]; cbn;
    try (apply extends_same; reflexivity).
  pose proof (for_of_invariant (Books.extends w)
                (poll_entry lib env wallet privKey) history
                (fun x w1 H => extends_trans _ _ _ H (poll_entry_extends env x w1))
                w (extends_refl w)) as H.
  destruct (for_of history _ w) as [[[]|m] w1]; cbn [snd] in *; [assumption|].
  apply (extends_trans _ _ _ H). now apply extends_same.
Qed.

Lemma lifetime_extends (ps : list Phase) w :
  Books.extends w (lifetime lib wallet privKey ps w).
Proof.
  revert w. induction ps as [|p ps IH]; intros w; [apply extends_refl|].
  cbn [lifetime fold_left]. fold (lifetime lib wallet privKey ps).
  apply (extends_trans _ (phase lib wallet privKey w p)); [|apply IH].
  destruct p as [env|env]; cbn [phase].
  - apply pollForJobs_extends.
  - destruct (main_effect wallet env (restart w)) as (_ & Hj & _ & Hb).
    now apply extends_same.
Qed.

End Bookkeeping.

(** X2: through any run of ticks and restarts the agent only appends to
    its job file and hands transactions to the ledger one record at a
    time: the records added and the transactions handed over correspond
    one to one, each transaction being a settlement that refers to the job
    of its record, and every record added is either settled (a response
    id, no error, [satsKept = satsReceived - 300]) or refused (no response
    id, an error, [satsKept = 0]). *)
Theorem X2_records_match_broadcasts (lib : Library) (wallet : Agent.Wallet)
    (privKey : PrivateKey) (phases : list Agent.Phase) (w : Agent.World) :
  let w' := Agent.lifetime lib wallet privKey phases w in
  ∃ added sent,
    Agent.jobs_json w' = Agent.jobs_json w ++ added ∧
    Agent.broadcasts w' = Agent.broadcasts w ++ sent ∧
    length added = length sent ∧
    Forall2 Books.answers added sent ∧
    Forall (fun j => Books.settled j = true ∨ Books.refused j = true) added.
Proof.
  cbn zeta.
  destruct (lifetime_extends lib wallet privKey phases w)
    as (added & sent & Hj & Hb & Hf & Hw).
  exists added, sent. split_and!; try assumption.
  eapply Forall2_length; eassumption.
Qed.

(** ** The figures of the viewer *)

Section Figures.
Import Agent.
Local Open Scope Z_scope.

Lemma fold_left_sum {A} (f : A -> Z) (l : list A) (n : Z) :
  fold_left (fun s x => s + f x) l n = n + fold_left (fun s x => s + f x) l 0.
Proof.
  revert n. induction l as [|x l IH]; intros n; cbn [fold_left]; [lia|].
  rewrite IH, (IH (0 + f x)). lia.
Qed.

Lemma totalEarned_cons j jobs :
  Viewer.totalEarned (j :: jobs) = satsKept j + Viewer.totalEarned jobs.
Proof.
  unfold Viewer.totalEarned. cbn [fold_left].
  rewrite (fold_left_sum satsKept). lia.
Qed.

Lemma totalReceived_cons j jobs :
  Viewer.totalReceived (j :: jobs) = satsReceived j + Viewer.totalReceived jobs.
Proof.
  unfold Viewer.totalReceived. cbn [fold_left].
  rewrite (fold_left_sum satsReceived). lia.
Qed.

Lemma counts_partition jobs :
  (Viewer.successCount jobs + Viewer.failCount jobs = length jobs)%nat.
Proof.
  unfold Viewer.successCount, Viewer.failCount.
  induction jobs as [|j jobs IH]; [reflexivity|]. cbn [List.filter].
  destruct (Bridge.truthy (resTxid j)); cbn [negb length]; lia.
Qed.

Lemma settled_not_refused j : Books.settled j = true -> Books.refused j = false.
Proof.
  unfold Books.settled, Books.refused.
  destruct (resTxid j), (error j), (isHashed j); congruence.
Qed.

Lemma earned_of_records jobs :
  Forall (fun j => Books.settled j = true \/ Books.refused j = true) jobs ->
  Viewer.totalEarned jobs
  = Viewer.totalReceived (List.filter Books.settled jobs)
    - FEE * Z.of_nat (length (List.filter Books.settled jobs)) /\
  (Viewer.successCount jobs <= length (List.filter Books.settled jobs))%nat.
Proof.
  induction 1 as [|j jobs Hj _ [IH1 IH2]]; [split; reflexivity|].
  rewrite totalEarned_cons. cbn [List.filter].
  unfold Viewer.successCount in *. cbn [List.filter].
  destruct (Books.settled j) eqn:Es.
  - rewrite totalReceived_cons. cbn [length]. rewrite IH1.
    unfold Books.settled in Es.
    destruct (resTxid j), (error j), (isHashed j); try discriminate.
    apply Z.eqb_eq in Es. rewrite Es. split; [lia|].
    destruct (Bridge.truthy _); cbn [length]; lia.
  - destruct Hj as [Hj|Hj]; [congruence|]. unfold Books.refused in Hj.
    destruct (resTxid j), (error j), (isHashed j); try discriminate.
    apply Z.eqb_eq in Hj. rewrite Hj, IH1. cbn [Bridge.truthy]. split; lia.
Qed.

End Figures.

(** X3: the counters of the viewer split the job file in two
    ([successCount + failCount] is the number of records); and on the job
    file of the agent, after any run of ticks and restarts from a file of
    well-formed records, Total Earned is what the settled jobs paid minus
    300 for each of them (a refused job earns nothing), and no more jobs
    are counted as completed than were settled. *)
Theorem X3_viewer_figures (lib : Library) (wallet : Agent.Wallet)
    (privKey : PrivateKey) (phases : list Agent.Phase) (w : Agent.World) :
  Forall (fun j => Books.settled j = true ∨ Books.refused j = true)
    (Agent.jobs_json w) →
  let jobs := Agent.jobs_json (Agent.lifetime lib wallet privKey phases w) in
  let settled := List.filter Books.settled jobs in
  (Viewer.successCount jobs + Viewer.failCount jobs = length jobs)%nat ∧
  Viewer.totalEarned jobs
  = (Viewer.totalReceived settled - Agent.FEE * Z.of_nat (length settled))%Z ∧
  (Viewer.successCount jobs <= length settled)%nat.
Proof.
  intros Hw. cbn zeta.
  destruct (lifetime_extends lib wallet privKey phases w)
    as (added & sent & Hj & _ & _ & Ha).
  assert (Forall (fun j => Books.settled j = true ∨ Books.refused j = true)
            (Agent.jobs_json (Agent.lifetime lib wallet privKey phases w)))
    as Hall.
  { rewrite Hj. now apply Forall_app. }
  destruct (earned_of_records _ Hall) as [He Hc].
  split_and!; [apply counts_partition | exact He | exact Hc].
Qed.

(** X3 at work: a tick that settles the request of [id1], a restart, a
    tick. *)
Lemma X3_witness :
  let env := Sample.env1 (Ok Sample.resid) in
  let jobs :=
    Agent.jobs_json
      (Agent.lifetime Sample.lib Sample.wallet Sample.privKey
         [Agent.Tick env; Agent.Reboot env; Agent.Tick env] Sample.world0) in
  let settled := List.filter Books.settled jobs in
  (Viewer.successCount jobs + Viewer.failCount jobs = length jobs)%nat ∧
  Viewer.totalEarned jobs
  = (Viewer.totalReceived settled - Agent.FEE * Z.of_nat (length settled))%Z ∧
  (Viewer.successCount jobs <= length settled)%nat.
Proof.
  apply (X3_viewer_figures Sample.lib Sample.wallet Sample.privKey
           [Agent.Tick (Sample.env1 (Ok Sample.resid));
            Agent.Reboot (Sample.env1 (Ok Sample.resid));
            Agent.Tick (Sample.env1 (Ok Sample.resid))] Sample.world0).
  constructor.
Defined.

(** ** A tick that meets an error of the gateway *)

Section Abort.
Import Agent.

Variable lib : Library.
Variable wallet : Wallet.
Variable privKey : PrivateKey.

(** Ids already seen are passed over. *)
Lemma for_of_seen env (seen rest : list string) w :
  Forall (fun x => x ∈ lastSeenTxids w) seen ->
  for_of (seen ++ rest) (poll_entry lib env wallet privKey) w
  = for_of rest (poll_entry lib env wallet privKey) w.
Proof.
  induction 1 as [|x seen Hx _ IH]; [reflexivity|].
  cbn [app for_of]. unfold bind at 1.
  destruct (poll_entry_cases lib wallet privKey env x w)
    as [[_ ->] | [(Hout & _) | (Hout & _)]]; [exact IH | |]; contradiction.
Qed.

Lemma processJob_gateway_error env txid m w :
  get_tx env txid = Throw m ->
  processJob lib env wallet privKey txid w = (Throw m, grow w [] [NewTx txid] []).
Proof.
  intros Hf. unfold processJob, bind, await, log. cbn. rewrite Hf. cbn.
  unfold grow. cbn. now rewrite !app_nil_r.
Qed.

End Abort.

(** X4: a tick never throws.  When the gateway fails while the tick
    fetches the transaction of a new job, the tick ends there with one
    [Poll error] line: the job is left in the set of seen ids without a
    record, and the ids that follow it in the history are not looked at;
    through the later ticks of the process the job is never processed
    again and gets no record. *)
Theorem X4_gateway_error_ends_the_tick (lib : Library) (env : Agent.Env)
    (wallet : Agent.Wallet) (privKey : PrivateKey) (w : Agent.World)
    (seen rest : list string) (id m : string) (later : list Agent.Env) :
  Agent.get_history env (Agent.address wallet) = Ok (Some (seen ++ id :: rest)) →
  Forall (fun x => x ∈ Agent.lastSeenTxids w) seen →
  id ∉ Agent.lastSeenTxids w →
  Agent.some_job id (Agent.jobs_json w) = false →
  Agent.get_tx env id = Throw m →
  let w1 := snd (Agent.pollForJobs lib env wallet privKey w) in
  let w2 := snd (Agent.ticks lib later wallet privKey w1) in
  (∀ env' w', fst (Agent.pollForJobs lib env' wallet privKey w') = Ok tt) ∧
  w1 = Agent.grow (Agent.mark id w) [] [Agent.NewTx id; Agent.PollError m] [] ∧
  Agent.entries_for id (Agent.jobs_json w2) = [] ∧
  Agent.times_processed id (Agent.console w2)
  = (Agent.times_processed id (Agent.console w) + 1)%nat.
Proof.
  intros Hh Hseen Hout Hj Hf. cbn zeta.
  assert (snd (Agent.pollForJobs lib env wallet privKey w)
          = Agent.grow (Agent.mark id w) [] [Agent.NewTx id; Agent.PollError m] [])
    as Hw1.
  { unfold Agent.pollForJobs, Agent.try_catch, Agent.bind at 1, Agent.await.
    rewrite Hh. cbv beta iota. rewrite (for_of_seen lib wallet privKey env _ _ _ Hseen).
    cbn [Agent.for_of]. unfold Agent.bind at 1.
    destruct (poll_entry_cases lib wallet privKey env id w)
      as [[Hin _] | [(_ & Hj' & _) | (_ & _ & ->)]];
      [contradiction | congruence |].
    rewrite (processJob_gateway_error lib wallet privKey env id m _ Hf).
    unfold Agent.log, Agent.grow. cbn. now rewrite !app_nil_r, <- app_assoc. }
  split_and!.
  - intros env' w'. apply pollForJobs_returns.
  - exact Hw1.
  - rewrite Hw1.
    pose proof (ticks_invariant lib wallet privKey later id _ _
                  (poll_invariant_refl id
                     (Agent.grow (Agent.mark id w) []
                        [Agent.NewTx id; Agent.PollError m] [])))
      as [_ _ _ _ _ Hg].
    assert (id ∈ Agent.lastSeenTxids
                   (Agent.grow (Agent.mark id w) []
                      [Agent.NewTx id; Agent.PollError m] [])) as Hin.
    { cbn. set_solver. }
    specialize (Hg (or_introl Hin)). unfold Agent.about in Hg.
    injection Hg as -> _. cbn. rewrite app_nil_r.
    now apply some_job_entries.
  - rewrite Hw1.
    pose proof (ticks_invariant lib wallet privKey later id _ _
                  (poll_invariant_refl id
                     (Agent.grow (Agent.mark id w) []
                        [Agent.NewTx id; Agent.PollError m] [])))
      as [_ _ _ _ _ Hg].
    assert (id ∈ Agent.lastSeenTxids
                   (Agent.grow (Agent.mark id w) []
                      [Agent.NewTx id; Agent.PollError m] [])) as Hin.
    { cbn. set_solver. }
    specialize (Hg (or_introl Hin)). unfold Agent.about in Hg.
    injection Hg as _ ->. cbn [Agent.grow Agent.console Agent.mark].
    rewrite times_processed_app. unfold Agent.times_processed at 2.
    cbn [List.filter Agent.is_NewTx]. rewrite String.eqb_refl. reflexivity.
Qed.

(** X4 at work: the connection is reset while the request of [id1] is
    fetched; two more ticks follow. *)
Lemma X4_witness :
  let env := Sample.env (Throw "read ECONNRESET") (Sample.answer "4")
               (Ok Sample.resid) in
  let w := Sample.world0 in
  let w1 := snd (Agent.pollForJobs Sample.lib env Sample.wallet Sample.privKey w) in
  let w2 := snd (Agent.ticks Sample.lib [Sample.env1 (Ok Sample.resid); env]
                   Sample.wallet Sample.privKey w1) in
  (∀ env' w', fst (Agent.pollForJobs Sample.lib env' Sample.wallet
                     Sample.privKey w') = Ok tt) ∧
  w1 = Agent.grow (Agent.mark Sample.id1 w) []
         [Agent.NewTx Sample.id1; Agent.PollError "read ECONNRESET"] [] ∧
  Agent.entries_for Sample.id1 (Agent.jobs_json w2) = [] ∧
  Agent.times_processed Sample.id1 (Agent.console w2)
  = (Agent.times_processed Sample.id1 (Agent.console w) + 1)%nat.
Proof.
  apply (X4_gateway_error_ends_the_tick Sample.lib
           (Sample.env (Throw "read ECONNRESET") (Sample.answer "4")
              (Ok Sample.resid))
           Sample.wallet Sample.privKey Sample.world0 [] [] Sample.id1
           "read ECONNRESET"
           [Sample.env1 (Ok Sample.resid);
            Sample.env (Throw "read ECONNRESET") (Sample.answer "4")
              (Ok Sample.resid)]).
  - reflexivity.
  - constructor.
  - cbn. set_solver.
  - reflexivity.
  - reflexivity.
Defined.

(** ** The signing loop *)

Section Signing.
Import Agent.
Local Open Scope Z_scope.

Variable lib : Library.
Variable privKey : PrivateKey.

Lemma sign_input_inputs (t : Transaction.t) (i : nat) inp :
  Transaction.inputs t !! i = Some inp ->
  exists inp',
    Funding.signed privKey inp inp' /\
    Transaction.inputs
      (sign_input lib privKey (Z.lor SIGHASH_ALL SIGHASH_FORKID) t i)
    = <[i := inp']> (Transaction.inputs t).
Proof.
  intros Hi. unfold sign_input, Transaction.setScript. rewrite Hi.
  eexists. split; [|reflexivity].
  unfold Funding.signed. cbn. split_and!; try reflexivity.
  eexists. reflexivity.
Qed.

(** After the first [k] inputs are signed. *)
Lemma sign_prefix (t : Transaction.t) (k : nat) :
  (k <= length (Transaction.inputs t))%nat ->
  let t' := fold_left (sign_input lib privKey (Z.lor SIGHASH_ALL SIGHASH_FORKID))
              (seq 0 k) t in
  length (Transaction.inputs t') = length (Transaction.inputs t) /\
  forall i inp,
    Transaction.inputs t !! i = Some inp ->
    ((i < k)%nat ->
     exists inp', Transaction.inputs t' !! i = Some inp' /\
                  Funding.signed privKey inp inp') /\
    ((k <= i)%nat -> Transaction.inputs t' !! i = Some inp).
Proof.
  cbn zeta. induction k as [|k IH]; intros Hk.
  - cbn. split; [reflexivity|]. intros i inp Hi. split; [lia | now intros _].
  - rewrite seq_S, fold_left_app. cbn [fold_left Nat.add].
    destruct IH as [Hlen IH]; [lia|].
    set (t' := fold_left _ (seq 0 k) t) in *.
    destruct (lookup_lt_is_Some_2 (Transaction.inputs t) k) as [inpk Hinpk]; [lia|].
    destruct (IH k inpk Hinpk) as [_ Hk']. specialize (Hk' (le_n k)).
    destruct (sign_input_inputs t' k inpk Hk') as (inpk' & Hsigned & ->).
    split; [now rewrite length_insert|].
    intros i inp Hi. destruct (IH i inp Hi) as [Hlt Hge].
    destruct (decide (i = k)) as [->|Hne].
    + split; [|lia]. intros _. exists inpk'.
      rewrite list_lookup_insert_eq by lia.
      assert (inp = inpk) as -> by congruence. now split.
    + rewrite list_lookup_insert_ne by congruence. split.
      * intros H. apply Hlt. lia.
      * intros H. apply Hge. lia.
Qed.

(** The loop signs every input, and touches nothing else. *)
Lemma sign_spec (t : Transaction.t) :
  Forall2 (Funding.signed privKey) (Transaction.inputs t)
    (Transaction.inputs (Funding.sign lib privKey t)) /\
  Transaction.outputs (Funding.sign lib privKey t) = Transaction.outputs t.
Proof.
  unfold Funding.sign. cbv zeta. split; [|apply sign_inputs_outputs].
  destruct (sign_prefix t (length (Transaction.inputs t)) (le_n _)) as [Hlen H].
  apply Forall2_same_length_lookup_2; [now rewrite Hlen|].
  intros i inp inp' Hi Hi'.
  destruct (H i inp Hi) as [Hlt _].
  apply lookup_lt_Some in Hi as Hi2.
  destruct (Hlt Hi2) as (inp2 & E & Hs). congruence.
Qed.

Lemma add_inputs_spends (utxos : list Utxo) acc t n :
  add_inputs lib utxos acc = Ok (t, n) ->
  exists new,
    Transaction.inputs t = Transaction.inputs (fst acc) ++ new /\
    Forall2 (fun u inp =>
               Transaction.prevTxId inp = txid u /\
               Transaction.outputIndex inp = vout u /\
               Transaction.satoshis (Transaction.output inp) = satoshis u /\
               Script_fromHex lib (script u)
               = Ok (Transaction.script (Transaction.output inp)))
      utxos new.
Proof.
  revert acc. induction utxos as [|u r IH]; intros acc; cbn [add_inputs].
  - intros [= ->]. exists []. rewrite app_nil_r. split; [reflexivity | constructor].
  - unfold rbind. destruct (Script_fromHex lib (script u)) as [s|] eqn:Es;
      [|discriminate].
    intros H. apply IH in H as (new & -> & Hnew). cbn.
    eexists (_ :: new). rewrite <- app_assoc. split; [reflexivity|].
    constructor; [|exact Hnew]. cbn. now split_and!.
Qed.

Lemma spends_signed (utxos : list Utxo) (new l : list Transaction.Input) :
  Forall2 (fun u inp =>
             Transaction.prevTxId inp = txid u /\
             Transaction.outputIndex inp = vout u /\
             Transaction.satoshis (Transaction.output inp) = satoshis u /\
             Script_fromHex lib (script u)
             = Ok (Transaction.script (Transaction.output inp)))
    utxos new ->
  Forall2 (Funding.signed privKey) new l ->
  Forall2 (Books.spends lib privKey) utxos l.
Proof.
  intros Hnew. revert l.
  induction Hnew as [|u inp us new (H1 & H2 & H3 & H4) _ IH];
    intros l Hs; inversion Hs as [|? inp' ? l' (S1 & S2 & S3 & S4) Hs']; subst;
    constructor; [|now apply IH].
  unfold Books.spends. rewrite S1, S2, S3. now split_and!.
Qed.

End Signing.

(** X5: a settlement that [buildResponseTx] returns spends exactly the
    outputs it was given, each once and in their order: every input refers
    to its output by transaction id and index, carries its amount and the
    funding script the library read, and is unlocked by two pushes, the
    signature followed by the byte 0x41 ([ALL | FORKID]) and the public
    key. *)
Theorem X5_settlement_spends_the_request (lib : Library) (privKey : PrivateKey)
    (utxos : list Agent.Utxo) (jobTxid resultText : string) (r : Agent.Response) :
  Agent.buildResponseTx lib privKey utxos jobTxid resultText = Ok r →
  Forall2 (Books.spends lib privKey) utxos (Transaction.inputs (Agent.res_tx r)) ∧
  length (Transaction.inputs (Agent.res_tx r)) = length utxos ∧
  Forall (fun inp =>
            Agent.pushes_of (Transaction.in_script inp) !! 1%nat
            = Some (toPublicKey privKey))
    (Transaction.inputs (Agent.res_tx r)).
Proof.
  intros Hb.
  assert (Forall2 (Books.spends lib privKey) utxos
            (Transaction.inputs (Agent.res_tx r))) as H.
  { unfold Agent.buildResponseTx in Hb.
    destruct (Agent.resultBuf resultText) as [payload isHashed].
    destruct (Agent.add_inputs lib utxos (Transaction.new, 0%Z))
      as [[t totalIn]|m] eqn:E; cbn [Agent.rbind] in Hb; [|discriminate].
    apply add_inputs_spends in E as (new & Hin & Hnew). cbn in Hin.
    injection Hb as <-. cbn [Agent.res_tx].
    match goal with
    | |- context [fold_left _ (seq 0 (length (Transaction.inputs ?t1))) ?t1] =>
        set (t2 := t1)
    end.
    destruct (sign_spec lib privKey t2) as [Hs _].
    assert (Transaction.inputs t2 = new) as Ht2.
    { subst t2. destruct (0 <? totalIn - Agent.FEE)%Z; cbn; exact Hin. }
    eapply spends_signed; [exact Hnew|]. rewrite <- Ht2. exact Hs. }
  split_and!; [exact H | symmetry; eapply Forall2_length; exact H |].
  clear Hb. induction H as [|u inp us l (_ & _ & _ & _ & sig & Hsig) _ IH];
    constructor; [|exact IH].
  rewrite Hsig. reflexivity.
Qed.

(** X5 at work: the settlement of the request of [id1]. *)
Lemma X5_witness :
  Forall2 (Books.spends Sample.lib Sample.privKey) [Sample.utxo 3000]
    (Transaction.inputs (Agent.res_tx (Sample.built "4"))) ∧
  length (Transaction.inputs (Agent.res_tx (Sample.built "4")))
  = length [Sample.utxo 3000] ∧
  Forall (fun inp =>
            Agent.pushes_of (Transaction.in_script inp) !! 1%nat
            = Some (toPublicKey Sample.privKey))
    (Transaction.inputs (Agent.res_tx (Sample.built "4"))).
Proof.
  apply (X5_settlement_spends_the_request Sample.lib Sample.privKey
           [Sample.utxo 3000] Sample.id1 "4" (Sample.built "4")).
  vm_compute. reflexivity.
Defined.

(** ** Funding a transaction *)

Section Fund.
Local Open Scope Z_scope.

Variable lib : Library.

Lemma total_app (l1 l2 : list Funding.Unspent) :
  Funding.total (l1 ++ l2) = Funding.total l1 + Funding.total l2.
Proof.
  unfold Funding.total. induction l1 as [|u l1 IH]; cbn; [reflexivity|].
  rewrite IH. lia.
Qed.

Lemma total_nonneg (l : list Funding.Unspent) :
  Forall (fun u => 0 <= Funding.value u) l -> 0 <= Funding.total l.
Proof.
  unfold Funding.total. induction 1 as [|u l Hu _ IH]; cbn; lia.
Qed.

(** The loop takes the unspent outputs in their order, and stops after
    the first one with which the total reaches [enough]. *)
Lemma add_inputs_spec (address : string) (enough : Z)
    (utxos : list Funding.Unspent) (t0 : Transaction.t) (n0 : Z) :
  exists used unused,
    utxos = used ++ unused /\
    Funding.add_inputs lib address enough utxos (t0, n0)
    = ({| Transaction.inputs :=
            Transaction.inputs t0 ++ map (Funding.input lib address) used;
          Transaction.outputs := Transaction.outputs t0 |},
       n0 + Funding.total used) /\
    (unused <> [] -> enough <= n0 + Funding.total used) /\
    (forall p q, used = p ++ q -> p <> [] -> q <> [] ->
                 n0 + Funding.total p < enough).
Proof.
  revert t0 n0. induction utxos as [|u rest IH]; intros t0 n0.
  - exists [], []. cbn. rewrite app_nil_r, Z.add_0_r.
    split_and!; [reflexivity | now destruct t0 | congruence |].
    intros [|? ?] q; [congruence | discriminate].
  - cbn [Funding.add_inputs fst snd].
    destruct (Z.leb_spec enough (n0 + Funding.value u)) as [Hge|Hlt].
    + exists [u], rest. unfold Transaction.addInput. cbn.
      rewrite Z.add_0_r. split_and!; [reflexivity | reflexivity | now intros _ |].
      intros [|x [|y p]] q E Hp Hq; try congruence;
        injection E as ? E; destruct q; congruence || discriminate.
    + destruct (IH (Transaction.addInput t0 (Funding.input lib address u))
                  (n0 + Funding.value u))
        as (used & unused & -> & -> & Hstop & Hmin).
      exists (u :: used), unused. unfold Transaction.addInput.
      cbn [Transaction.inputs Transaction.outputs map app].
      rewrite <- app_assoc. cbn [app].
      assert (Funding.total (u :: used) = Funding.value u + Funding.total used)
        as Ht by reflexivity.
      rewrite Ht.
      split_and!; [reflexivity | f_equal; lia | intros H; specialize (Hstop H); lia |].
      intros [|x p] q E Hp Hq; [congruence|]. injection E as <- ->.
      destruct p as [|y p].
      * cbn. lia.
      * specialize (Hmin (y :: p) q eq_refl). cbn in *.
        assert (y :: p <> []) as H1 by discriminate.
        specialize (Hmin H1 Hq). lia.
Qed.

End Fund.

(** ** The sender's transaction *)

(** X6: [sendJobTx] funds its transaction with the unspent outputs of the
    wallet in the order the gateway lists them, stopping after the first
    one with which the total reaches the payment plus 1000; the outputs
    are the [JOB] data output, the payment of exactly [SATS_PER_JOB] to
    the agent, and a change of the total minus the payment minus 500 when
    that is positive, in which case outputs and the fee of 500 add up to
    the inputs; the payment is made of [SATS_PER_JOB] whatever the inputs
    hold.  The transaction is handed to the ledger with every input
    signed and nothing else changed; without unspent outputs nothing is
    sent. *)
Theorem X6_job_transaction (lib : Library)
    (Address_fromString : string → Result string) (privKey : PrivateKey)
    (AGENT_ADDRESS to : string) (SATS_PER_JOB : Z)
    (utxos : list Funding.Unspent) (prompt : string)
    (broadcast : Transaction.t → Result string) :
  Address_fromString AGENT_ADDRESS = Ok to →
  let address := toAddress privKey in
  ∃ used unused t,
    utxos = used ++ unused ∧
    Sender.jobTx lib Address_fromString privKey AGENT_ADDRESS SATS_PER_JOB
      utxos prompt = Ok t ∧
    Transaction.inputs t = map (Funding.input lib address) used ∧
    (unused ≠ [] → SATS_PER_JOB + 1000 <= Funding.total used)%Z ∧
    (∀ p q, used = p ++ q → p ≠ [] → q ≠ [] →
            Funding.total p < SATS_PER_JOB + 1000)%Z ∧
    let change := (Funding.total used - SATS_PER_JOB - 500)%Z in
    Transaction.outputs t
    = {| Transaction.script := Sender.opReturn prompt;
         Transaction.satoshis := 0 |}
      :: {| Transaction.script := Script_buildPublicKeyHashOut lib to;
            Transaction.satoshis := SATS_PER_JOB |}
      :: (if (0 <? change)%Z
          then [{| Transaction.script := Script_buildPublicKeyHashOut lib address;
                   Transaction.satoshis := change |}]
          else []) ∧
    ((0 < change)%Z →
     (Agent.sum_outputs (Transaction.outputs t) + 500 = Funding.total used)%Z) ∧
    ((change <= 0)%Z →
     Agent.sum_outputs (Transaction.outputs t) = SATS_PER_JOB) ∧
    (utxos ≠ [] →
     Sender.sendJobTx lib Address_fromString privKey AGENT_ADDRESS SATS_PER_JOB
       (Ok (Some utxos)) broadcast prompt
     = broadcast (Funding.sign lib privKey t)) ∧
    Forall2 (Funding.signed privKey) (Transaction.inputs t)
      (Transaction.inputs (Funding.sign lib privKey t)) ∧
    Transaction.outputs (Funding.sign lib privKey t) = Transaction.outputs t ∧
    Sender.sendJobTx lib Address_fromString privKey AGENT_ADDRESS SATS_PER_JOB
      (Ok (Some [])) broadcast prompt
    = Throw "No UTXOs to fund job" ∧
    Sender.sendJobTx lib Address_fromString privKey AGENT_ADDRESS SATS_PER_JOB
      (Ok None) broadcast prompt
    = Throw "No UTXOs to fund job".
Proof.
  intros Hto. cbn zeta.
  destruct (add_inputs_spec lib (toAddress privKey) (SATS_PER_JOB + 1000) utxos
              Transaction.new 0)
    as (used & unused & Hsplit & Hadd & Hstop & Hmin).
  rewrite Z.add_0_l in *.
  assert (Sender.jobTx lib Address_fromString privKey AGENT_ADDRESS SATS_PER_JOB
            utxos prompt
          = Ok {| Transaction.inputs :=
                    map (Funding.input lib (toAddress privKey)) used;
                  Transaction.outputs :=
                    {| Transaction.script := Sender.opReturn prompt;
                       Transaction.satoshis := 0 |}
                    :: {| Transaction.script := Script_buildPublicKeyHashOut lib to;
                          Transaction.satoshis := SATS_PER_JOB |}
                    :: (if (0 <? Funding.total used - SATS_PER_JOB - 500)%Z
                        then [{| Transaction.script :=
                                   Script_buildPublicKeyHashOut lib (toAddress privKey);
                                 Transaction.satoshis :=
                                   (Funding.total used - SATS_PER_JOB - 500)%Z |}]
                        else []) |}) as Hjob.
  { unfold Sender.jobTx. rewrite Hadd, Hto. cbn [Agent.rbind].
    unfold Sender.fee, Transaction.addOutput. cbn.
    destruct (0 <? Funding.total used - SATS_PER_JOB - 500)%Z; reflexivity. }
  match type of Hjob with _ = Ok ?t0 => set (t := t0) in * end.
  destruct (sign_spec lib privKey t) as [Hsigned Houts].
  exists used, unused, t.
  split; [exact Hsplit|]. split; [exact Hjob|].
  split; [reflexivity|]. split; [exact Hstop|].
  split; [intros p q E Hp Hq; specialize (Hmin p q E Hp Hq); lia|].
  split; [reflexivity|].
  split_and!.
  - intros H. subst t. cbn [Transaction.outputs].
    destruct (Z.ltb_spec 0 (Funding.total used - SATS_PER_JOB - 500));
      [|lia]. cbn. lia.
  - intros H. subst t. cbn [Transaction.outputs].
    destruct (Z.ltb_spec 0 (Funding.total used - SATS_PER_JOB - 500));
      [lia|]. cbn. lia.
  - intros Hne. unfold Sender.sendJobTx. cbn [Agent.rbind].
    destruct utxos as [|u us]; [congruence|]. now rewrite Hjob.
  - exact Hsigned.
  - exact Houts.
  - reflexivity.
  - reflexivity.
Qed.

(** X6 at work: a payment of 3000 from three unspent outputs of 2500,
    2000 and 9000; the first two are spent. *)
Lemma X6_witness :
  let address := toAddress Customer.privKey in
  ∃ used unused t,
    Customer.unspent = used ++ unused ∧
    Sender.jobTx Sample.lib Customer.Address_fromString Customer.privKey
      (Agent.address Sample.wallet) 3000 Customer.unspent "2+2?" = Ok t ∧
    Transaction.inputs t = map (Funding.input Sample.lib address) used ∧
    (unused ≠ [] → 3000 + 1000 <= Funding.total used)%Z ∧
    (∀ p q, used = p ++ q → p ≠ [] → q ≠ [] →
            Funding.total p < 3000 + 1000)%Z ∧
    let change := (Funding.total used - 3000 - 500)%Z in
    Transaction.outputs t
    = {| Transaction.script := Sender.opReturn "2+2?";
         Transaction.satoshis := 0 |}
      :: {| Transaction.script :=
              Script_buildPublicKeyHashOut Sample.lib (Agent.address Sample.wallet);
            Transaction.satoshis := 3000 |}
      :: (if (0 <? change)%Z
          then [{| Transaction.script :=
                     Script_buildPublicKeyHashOut Sample.lib address;
                   Transaction.satoshis := change |}]
          else []) ∧
    ((0 < change)%Z →
     (Agent.sum_outputs (Transaction.outputs t) + 500 = Funding.total used)%Z) ∧
    ((change <= 0)%Z →
     Agent.sum_outputs (Transaction.outputs t) = 3000%Z) ∧
    (Customer.unspent ≠ [] →
     Sender.sendJobTx Sample.lib Customer.Address_fromString Customer.privKey
       (Agent.address Sample.wallet) 3000 (Ok (Some Customer.unspent))
       (fun _ => Ok Sample.id1) "2+2?"
     = (fun _ => Ok Sample.id1) (Funding.sign Sample.lib Customer.privKey t)) ∧
    Forall2 (Funding.signed Customer.privKey) (Transaction.inputs t)
      (Transaction.inputs (Funding.sign Sample.lib Customer.privKey t)) ∧
    Transaction.outputs (Funding.sign Sample.lib Customer.privKey t)
    = Transaction.outputs t ∧
    Sender.sendJobTx Sample.lib Customer.Address_fromString Customer.privKey
      (Agent.address Sample.wallet) 3000 (Ok (Some [])) (fun _ => Ok Sample.id1)
      "2+2?"
    = Throw "No UTXOs to fund job" ∧
    Sender.sendJobTx Sample.lib Customer.Address_fromString Customer.privKey
      (Agent.address Sample.wallet) 3000 (Ok None) (fun _ => Ok Sample.id1)
      "2+2?"
    = Throw "No UTXOs to fund job".
Proof.
  apply (X6_job_transaction Sample.lib Customer.Address_fromString
           Customer.privKey (Agent.address Sample.wallet)
           (Agent.address Sample.wallet) 3000 Customer.unspent "2+2?"
           (fun _ => Ok Sample.id1)).
  reflexivity.
Defined.

(** The job transaction of the customer, as built. *)
Example job_of_3000 :
  match Sender.jobTx Sample.lib Customer.Address_fromString Customer.privKey
          (Agent.address Sample.wallet) 3000 Customer.unspent "2+2?" with
  | Ok t =>
      (map Transaction.outputIndex (Transaction.inputs t),
       map Transaction.satoshis (Transaction.outputs t))
      = ([0%Z; 1%Z], [0%Z; 3000%Z; 1000%Z])
  | Throw _ => False
  end.
Proof. vm_compute. reflexivity. Qed.

(** ** The chat transaction *)

Section ChatTx.
Local Open Scope Z_scope.

Lemma fee_floor inputs prompt result : 300 <= Chain.fee inputs prompt result.
Proof. unfold Chain.fee, Chain.MIN_FEE. cbv zeta. lia. Qed.

End ChatTx.

(** X7: [postOnChain] funds its transaction with the unspent outputs of
    the agent's wallet in their order, stopping after the first one with
    which the total reaches 5000; the fee is the larger of 300 and of
    150 per input plus the bytes of prompt and answer plus 70; the first
    output is the [CHAT] data output, and a change of the total minus the
    fee is added only when it is 546 or more, in which case outputs and
    fee add up to the inputs; no output is below 546 other than the data
    output, and the outputs never exceed the inputs.  The transaction is
    handed to the ledger with every input signed and nothing else changed;
    without unspent outputs nothing is sent. *)
Theorem X7_chat_transaction (lib : Library) (privKey : PrivateKey)
    (utxos : list Funding.Unspent) (prompt result : string) :
  Forall (fun u => 0 <= Funding.value u)%Z utxos →
  let address := toAddress privKey in
  let t := Chain.chatTx lib privKey utxos prompt result in
  ∃ used unused,
    utxos = used ++ unused ∧
    Transaction.inputs t = map (Funding.input lib address) used ∧
    (unused ≠ [] → 5000 <= Funding.total used)%Z ∧
    (∀ p q, used = p ++ q → p ≠ [] → q ≠ [] → Funding.total p < 5000)%Z ∧
    let fee := Chain.fee (length used) prompt result in
    let change := (Funding.total used - fee)%Z in
    (fee = Z.max 300 (Z.of_nat (length used) * 150
                      + Z.of_nat (length (Buffer.from_utf8 prompt))
                      + Z.of_nat (length (Buffer.from_utf8 result)) + 70))%Z ∧
    Transaction.outputs t
    = {| Transaction.script := Chain.opReturn prompt result;
         Transaction.satoshis := 0 |}
      :: (if (546 <=? change)%Z
          then [{| Transaction.script := Script_buildPublicKeyHashOut lib address;
                   Transaction.satoshis := change |}]
          else []) ∧
    ((546 <= change)%Z →
     (Agent.sum_outputs (Transaction.outputs t) + fee = Funding.total used)%Z) ∧
    (Agent.sum_outputs (Transaction.outputs t) <= Funding.total used)%Z ∧
    Forall (fun o => Transaction.satoshis o = 0 ∨ 546 <= Transaction.satoshis o)%Z
      (Transaction.outputs t) ∧
    Agent.pushes_of (Chain.opReturn prompt result)
    = [Buffer.from_utf8 "CHAT"; Buffer.from_utf8 prompt; Buffer.from_utf8 result] ∧
    (∀ broadcast,
       utxos ≠ [] →
       Chain.postOnChain lib privKey (Ok (Some utxos)) broadcast prompt result
       = broadcast (Funding.sign lib privKey t)) ∧
    Forall2 (Funding.signed privKey) (Transaction.inputs t)
      (Transaction.inputs (Funding.sign lib privKey t)) ∧
    Transaction.outputs (Funding.sign lib privKey t) = Transaction.outputs t ∧
    (∀ broadcast,
       Chain.postOnChain lib privKey (Ok (Some [])) broadcast prompt result
       = Throw (Chain.no_funds +:+ address) ∧
       Chain.postOnChain lib privKey (Ok None) broadcast prompt result
       = Throw (Chain.no_funds +:+ address)).
Proof.
  intros Hpos. cbn zeta.
  destruct (add_inputs_spec lib (toAddress privKey) 5000 utxos Transaction.new 0)
    as (used & unused & Hsplit & Hadd & Hstop & Hmin).
  rewrite Z.add_0_l in *.
  assert (0 <= Funding.total used)%Z as Hused.
  { apply total_nonneg. rewrite Hsplit in Hpos.
    now apply Forall_app in Hpos as [? _]. }
  exists used, unused.
  destruct (sign_spec lib privKey (Chain.chatTx lib privKey utxos prompt result))
    as [Hsigned Houts].
  assert (∀ broadcast,
            utxos ≠ [] →
            Chain.postOnChain lib privKey (Ok (Some utxos)) broadcast prompt result
            = broadcast (Funding.sign lib privKey
                           (Chain.chatTx lib privKey utxos prompt result)))
    as Hpost.
  { intros broadcast Hne. unfold Chain.postOnChain. cbn [Agent.rbind].
    destruct utxos; [congruence | reflexivity]. }
  revert Hsigned Houts Hpost.
  generalize (Funding.sign lib privKey
                (Chain.chatTx lib privKey utxos prompt result)) as signed.
  unfold Chain.chatTx. rewrite Hadd.
  cbv beta iota zeta. unfold Transaction.addOutput, Transaction.new.
  cbn [Transaction.inputs Transaction.outputs app].
  rewrite length_map.
  pose proof (fee_floor (length used) prompt result) as Hfee.
  set (fee := Chain.fee (length used) prompt result) in *.
  intros signed Hsigned Houts Hpost.
  split; [exact Hsplit|].
  split; [now destruct (546 <=? _)%Z|].
  split; [exact Hstop|].
  split; [intros p q E Hp Hq; specialize (Hmin p q E Hp Hq); lia|].
  split.
  { subst fee. unfold Chain.fee, Chain.MIN_FEE, Chain.FEE_RATE. cbv zeta.
    f_equal. lia. }
  destruct (Z.leb_spec 546 (Funding.total used - fee)) as [Hc|Hc];
    cbn [Transaction.outputs Transaction.inputs app] in *.
  - split_and!; [reflexivity | cbn; lia | cbn; lia | | reflexivity
                 | exact Hpost | exact Hsigned | exact Houts
                 | intros broadcast; split; reflexivity].
    repeat constructor; cbn; lia.
  - split_and!; [reflexivity | lia | cbn; lia | | reflexivity
                 | exact Hpost | exact Hsigned | exact Houts
                 | intros broadcast; split; reflexivity].
    repeat constructor.
Qed.

(** X7 at work: the wallet of three unspent outputs; all are spent, the
    fee is 525, the change 12975. *)
Lemma X7_witness :
  let address := toAddress Customer.privKey in
  let t := Chain.chatTx Sample.lib Customer.privKey Customer.unspent "2+2?" "4" in
  ∃ used unused,
    Customer.unspent = used ++ unused ∧
    Transaction.inputs t = map (Funding.input Sample.lib address) used ∧
    (unused ≠ [] → 5000 <= Funding.total used)%Z ∧
    (∀ p q, used = p ++ q → p ≠ [] → q ≠ [] → Funding.total p < 5000)%Z ∧
    let fee := Chain.fee (length used) "2+2?" "4" in
    let change := (Funding.total used - fee)%Z in
    (fee = Z.max 300 (Z.of_nat (length used) * 150
                      + Z.of_nat (length (Buffer.from_utf8 "2+2?"))
                      + Z.of_nat (length (Buffer.from_utf8 "4")) + 70))%Z ∧
    Transaction.outputs t
    = {| Transaction.script := Chain.opReturn "2+2?" "4";
         Transaction.satoshis := 0 |}
      :: (if (546 <=? change)%Z
          then [{| Transaction.script :=
                     Script_buildPublicKeyHashOut Sample.lib address;
                   Transaction.satoshis := change |}]
          else []) ∧
    ((546 <= change)%Z →
     (Agent.sum_outputs (Transaction.outputs t) + fee = Funding.total used)%Z) ∧
    (Agent.sum_outputs (Transaction.outputs t) <= Funding.total used)%Z ∧
    Forall (fun o => Transaction.satoshis o = 0 ∨ 546 <= Transaction.satoshis o)%Z
      (Transaction.outputs t) ∧
    Agent.pushes_of (Chain.opReturn "2+2?" "4")
    = [Buffer.from_utf8 "CHAT"; Buffer.from_utf8 "2+2?"; Buffer.from_utf8 "4"] ∧
    (∀ broadcast,
       Customer.unspent ≠ [] →
       Chain.postOnChain Sample.lib Customer.privKey (Ok (Some Customer.unspent))
         broadcast "2+2?" "4"
       = broadcast (Funding.sign Sample.lib Customer.privKey t)) ∧
    Forall2 (Funding.signed Customer.privKey) (Transaction.inputs t)
      (Transaction.inputs (Funding.sign Sample.lib Customer.privKey t)) ∧
    Transaction.outputs (Funding.sign Sample.lib Customer.privKey t)
    = Transaction.outputs t ∧
    (∀ broadcast,
       Chain.postOnChain Sample.lib Customer.privKey (Ok (Some [])) broadcast
         "2+2?" "4"
       = Throw (Chain.no_funds +:+ address) ∧
       Chain.postOnChain Sample.lib Customer.privKey (Ok None) broadcast
         "2+2?" "4"
       = Throw (Chain.no_funds +:+ address)).
Proof.
  apply (X7_chat_transaction Sample.lib Customer.privKey Customer.unspent
           "2+2?" "4").
  repeat constructor; cbn; lia.
Defined.

Example chat_of_the_customer :
  let t := Chain.chatTx Sample.lib Customer.privKey Customer.unspent "2+2?" "4" in
  (length (Transaction.inputs t), map Transaction.satoshis (Transaction.outputs t),
   Chain.fee 3 "2+2?" "4")
  = (3%nat, [0%Z; 12975%Z], 525%Z).
Proof. vm_compute. reflexivity. Qed.

(** ** A job, from the sender to the agent *)

Section JobRoundTrip.

Lemma job_opReturn_wf (prompt : string) :
  prompt ≠ "" -> (N.of_nat (String.length prompt) < 2 ^ 32)%N ->
  Forall Script.wf_chunk (Sender.opReturn prompt).
Proof.
  intros Hne Hlen.
  unfold Sender.opReturn, Script.add_buffer, Script.add_opcode, Script.empty.
  cbn [app].
  repeat (apply List.Forall_cons; [|]); [..|apply List.Forall_nil];
    unfold Script.wf_chunk; cbn [Script.buf Script.opcodenum].
  - now left.
  - right. unfold Script.OP_PUSHDATA4, Script.OP_RETURN. lia.
  - split_and!; [discriminate | reflexivity | cbn; lia].
  - split_and!; [|reflexivity|].
    + destruct prompt; [congruence | discriminate].
    + now rewrite length_from_utf8.
Qed.

Lemma parseJob_vouts_skip (lib : Library) (pre rest : list Ledger.Vout) :
  Forall (fun v => Agent.is_nulldata v = None) pre ->
  Agent.parseJob_vouts lib (pre ++ rest) = Agent.parseJob_vouts lib rest.
Proof.
  induction 1 as [|v pre Hv _ IH]; [reflexivity|].
  cbn [app Agent.parseJob_vouts]. now rewrite Hv.
Qed.

End JobRoundTrip.

(** X8: the agent reads back the prompt the sender wrote.  For a prompt
    that is not empty, the [JOB] data output of [sendJobTx] survives the
    wire (parsing its hex gives the script again), and [parseJobFromTx]
    returns the prompt for every transaction in which that output is the
    first null-data output. *)
Theorem X8_job_roundtrip (lib : Library) (tx : Ledger.Tx)
    (pre post : list Ledger.Vout) (v : Ledger.Vout) (spk : Ledger.ScriptPubKey)
    (prompt : string) :
  (∀ hex, Script_fromHex lib hex = Script.fromHex hex) →
  prompt ≠ "" →
  (N.of_nat (String.length prompt) < 2 ^ 32)%N →
  Ledger.vout tx = Some (pre ++ v :: post) →
  Forall (fun v => Agent.is_nulldata v = None) pre →
  Ledger.scriptPubKey v = Some spk →
  Ledger.type spk = "nulldata" →
  Ledger.hex spk = Script.toHex (Sender.opReturn prompt) →
  Script.fromHex (Script.toHex (Sender.opReturn prompt))
  = Ok (Sender.opReturn prompt) ∧
  Agent.pushes_of (Sender.opReturn prompt)
  = [Buffer.from_utf8 "JOB"; Buffer.from_utf8 prompt] ∧
  Agent.parseJobFromTx lib tx = Ok (Some prompt).
Proof.
  intros Hlib Hne Hlen Hvout Hpre Hspk Htype Hhex.
  pose proof (fromHex_toHex _ (job_opReturn_wf prompt Hne Hlen)) as Hrt.
  split_and!; [exact Hrt | reflexivity |].
  unfold Agent.parseJobFromTx. rewrite Hvout.
  change (default [] (Some (pre ++ v :: post))) with (pre ++ v :: post).
  rewrite (parseJob_vouts_skip lib pre _ Hpre).
  cbn [Agent.parseJob_vouts]. unfold Agent.is_nulldata. rewrite Hspk, Htype.
  cbn [String.eqb Ascii.eqb Bool.eqb].
  unfold Agent.job_of_script. rewrite Hlib, Hhex, Hrt. cbn [Agent.rbind].
  change (Agent.pushes_of (Sender.opReturn prompt))
    with [Buffer.from_utf8 "JOB"; Buffer.from_utf8 prompt].
  cbv beta iota.
  change (String.eqb (Buffer.toString_utf8 (Buffer.from_utf8 "JOB")) "JOB")
    with true. cbv iota.
  unfold Buffer.toString_utf8, Buffer.from_utf8.
  now rewrite string_of_list_byte_of_string.
Qed.

(** X8 at work: the request of [id1], as the ledger shows it. *)
Lemma X8_witness :
  Script.fromHex (Script.toHex (Sender.opReturn "2+2?"))
  = Ok (Sender.opReturn "2+2?") ∧
  Agent.pushes_of (Sender.opReturn "2+2?")
  = [Buffer.from_utf8 "JOB"; Buffer.from_utf8 "2+2?"] ∧
  Agent.parseJobFromTx Sample.lib Sample.request1 = Ok (Some "2+2?").
Proof.
  apply (X8_job_roundtrip Sample.lib Sample.request1 []
           [ {| Ledger.value_sat := 3000; Ledger.n := 1;
                Ledger.scriptPubKey := Some
                  {| Ledger.type := "pubkeyhash";
                     Ledger.hex :=
                       Script.toHex (Sample.p2pkh (Agent.address Sample.wallet));
                     Ledger.addresses := Some [Agent.address Sample.wallet] |} |} ]
           {| Ledger.value_sat := 0; Ledger.n := 0;
              Ledger.scriptPubKey := Some
                {| Ledger.type := "nulldata";
                   Ledger.hex := Script.toHex (Sender.opReturn "2+2?");
                   Ledger.addresses := None |} |}
           {| Ledger.type := "nulldata";
              Ledger.hex := Script.toHex (Sender.opReturn "2+2?");
              Ledger.addresses := None |}
           "2+2?").
  - intros hex. reflexivity.
  - discriminate.
  - vm_compute. reflexivity.
  - reflexivity.
  - constructor.
  - reflexivity.
  - reflexivity.
  - reflexivity.
Defined.

(** ** The directory of a conversation *)

Section Directory.

Lemma substring_length (n : nat) (s : string) :
  String.length (String.substring 0 n s) = Nat.min n (String.length s).
Proof.
  revert s. induction n as [|n IH]; intros [|c s]; cbn; try reflexivity.
  now rewrite IH.
Qed.

Lemma substring_lower_hex (n : nat) (s : string) :
  Buffer.all_lower_hex s = true ->
  Buffer.all_lower_hex (String.substring 0 n s) = true.
Proof.
  revert s. induction n as [|n IH]; intros [|c s]; cbn; try reflexivity.
  intros H. apply andb_true_iff in H as [-> H]. now apply IH.
Qed.

(** A text of hex digits holds no other character. *)
Lemma hex_only (c : ascii) (s : string) :
  Buffer.is_lower_hex c = false -> Buffer.all_lower_hex s = true ->
  Text.occurs c s = false.
Proof.
  intros Hc. induction s as [|a r IH]; cbn [Buffer.all_lower_hex Text.occurs];
    [reflexivity|].
  intros H. apply andb_true_iff in H as [Ha Hr]. rewrite (IH Hr), orb_false_r.
  destruct (Ascii.eqb_spec a c) as [->|]; [congruence | reflexivity].
Qed.

End Directory.

(** X9: whatever text stands for the requester, the directory of the
    conversation is a name of 16 lowercase hex digits: it holds no
    separator, no dot and no character other than [0-9a-f]. *)
Theorem X9_conversation_directory (ip : string) :
  String.length (Web.ipToDir ip) = 16%nat ∧
  Buffer.all_lower_hex (Web.ipToDir ip) = true ∧
  (∀ c, Buffer.is_lower_hex c = false → Text.occurs c (Web.ipToDir ip) = false) ∧
  Text.occurs "/" (Web.ipToDir ip) = false ∧
  Text.occurs "." (Web.ipToDir ip) = false.
Proof.
  destruct (hexdigest_shape (Buffer.from_utf8 ip)) as [Hlen Hhex].
  assert (Buffer.all_lower_hex (Web.ipToDir ip) = true) as H
    by now apply substring_lower_hex.
  unfold Web.ipToDir in *.
  split_and!.
  - now rewrite substring_length, Hlen.
  - exact H.
  - intros c Hc. now apply hex_only.
  - now apply hex_only.
  - now apply hex_only.
Qed.

(** ** Who is asking *)

Section ClientIP.

Lemma before_absent (c : ascii) (s : string) :
  Text.occurs c s = false -> Text.before c s = s.
Proof.
  induction s as [|a r IH]; cbn [Text.occurs Text.before]; [reflexivity|].
  intros H. apply orb_false_iff in H as [-> H]. now rewrite IH.
Qed.

Lemma before_first (c : ascii) (a b : string) :
  Text.occurs c a = false -> Text.before c (a +:+ String c b) = a.
Proof.
  induction a as [|x r IH]; cbn [Text.occurs].
  - intros _. rewrite append_empty. cbn [Text.before].
    now rewrite Ascii.eqb_refl.
  - intros H. apply orb_false_iff in H as [Hx H].
    rewrite append_cons. cbn [Text.before]. now rewrite Hx, IH.
Qed.

Lemma or_default_nonempty (a : option string) (b : string) :
  b <> "" -> Text.or_default a b <> "".
Proof.
  intros Hb. destruct a as [s|]; cbn [Text.or_default]; [|exact Hb].
  unfold Agent.or_else. now destruct (String.eqb_spec s "").
Qed.

End ClientIP.

(** X10: [getClientIP] never returns the empty text; of the
    [X-Forwarded-For] header only what stands before the first comma
    counts, with the white space around it removed, and it wins over
    [X-Real-IP] and the address of the socket unless it is empty; a
    request with none of the three is ["0.0.0.0"]. *)
Theorem X10_getClientIP (req : Front.Req) :
  (0 < String.length (Front.getClientIP req))%nat ∧
  (∀ a b,
     Text.occurs "," a = false →
     Front.getClientIP
       {| Front.x_forwarded_for := Some (a +:+ String "," b);
          Front.x_real_ip := Front.x_real_ip req;
          Front.remoteAddress := Front.remoteAddress req |}
     = Front.getClientIP
         {| Front.x_forwarded_for := Some a;
            Front.x_real_ip := Front.x_real_ip req;
            Front.remoteAddress := Front.remoteAddress req |}) ∧
  (∀ s, Front.x_forwarded_for req = Some s →
        Agent.trim (Text.before "," s) ≠ "" →
        Front.getClientIP req = Agent.trim (Text.before "," s) ∧
        Agent.trim (Front.getClientIP req) = Front.getClientIP req) ∧
  (Front.x_forwarded_for req = None → Front.x_real_ip req = None →
   Front.remoteAddress req = None → Front.getClientIP req = "0.0.0.0").
Proof.
  split_and!.
  - assert (Front.getClientIP req <> "") as H.
    { unfold Front.getClientIP. repeat apply or_default_nonempty. discriminate. }
    destruct (Front.getClientIP req); [congruence | cbn; lia].
  - intros a b Ha. unfold Front.getClientIP. cbn [Front.x_forwarded_for option_map
      Front.x_real_ip Front.remoteAddress].
    now rewrite (before_first _ _ _ Ha), (before_absent _ _ Ha).
  - intros s Hs Hne. unfold Front.getClientIP. rewrite Hs.
    cbn [option_map Text.or_default].
    unfold Agent.or_else.
    destruct (String.eqb_spec (Agent.trim (Text.before "," s)) ""); [congruence|].
    split; [reflexivity | apply trim_idempotent].
  - intros H1 H2 H3. unfold Front.getClientIP. now rewrite H1, H2, H3.
Qed.

(** ** The context of a chat *)

Section Context.
Import Web.

Lemma fold_left_append {A} (f : A -> string) (l : list A) (init : string) :
  fold_left (fun context msg => context +:+ f msg) l init
  = init +:+ fold_right (fun msg rest => f msg +:+ rest) "" l.
Proof.
  revert init. induction l as [|x l IH]; intros init; cbn [fold_left fold_right].
  - clear. induction init as [|c r IH]; [reflexivity|].
    rewrite append_cons. now f_equal.
  - now rewrite IH, append_assoc.
Qed.

Lemma skipn_window {A} (old recent : list A) :
  skipn (length (old ++ recent) - length recent) (old ++ recent) = recent.
Proof.
  rewrite length_app.
  replace (length old + length recent - length recent)%nat with (length old) by lia.
  now rewrite drop_app_length.
Qed.

End Context.

(** X11: the context given to the model is made of the last ten entries
    of the conversation and of nothing before them; with no entry the
    prompt goes as it is, otherwise it follows the header and one
    [User:]/[Assistant:] pair of lines per entry, oldest first. *)
Theorem X11_context_window (old recent : list Web.Entry) (newPrompt : string) :
  Web.buildContextPrompt [] newPrompt = newPrompt ∧
  (length recent = Web.CONTEXT_LIMIT →
   Web.buildContextPrompt (old ++ recent) newPrompt
   = Web.buildContextPrompt recent newPrompt) ∧
  (recent ≠ [] → (length recent <= Web.CONTEXT_LIMIT)%nat →
   Web.buildContextPrompt recent newPrompt
   = "Previous conversation:" +:+ Web.nl
     +:+ fold_right
           (fun msg rest =>
              ("User: " +:+ Web.prompt msg +:+ Web.nl
               +:+ "Assistant: " +:+ Web.show (Web.result msg) +:+ Web.nl)
              +:+ rest)
           "" recent
     +:+ Web.nl +:+ "User: " +:+ newPrompt).
Proof.
  split_and!.
  - reflexivity.
  - intros Hlen.
    assert (skipn (length (old ++ recent) - Web.CONTEXT_LIMIT) (old ++ recent)
            = recent) as H1 by (rewrite <- Hlen; apply skipn_window).
    assert (skipn (length recent - Web.CONTEXT_LIMIT) recent = recent) as H2
      by (rewrite Hlen, Nat.sub_diag; reflexivity).
    unfold Web.buildContextPrompt. cbv zeta. now rewrite H1, H2.
  - intros Hne Hlen. unfold Web.buildContextPrompt. cbv zeta.
    replace (length recent - Web.CONTEXT_LIMIT)%nat with 0%nat by lia.
    cbn [skipn]. destruct recent as [|e r]; [congruence|].
    rewrite (fold_left_append
               (fun msg => "User: " +:+ Web.prompt msg +:+ Web.nl
                           +:+ "Assistant: " +:+ Web.show (Web.result msg)
                           +:+ Web.nl)).
    now rewrite !append_assoc.
Qed.

(** ** A chat request served alone *)

Section ChatAlone.
Import Web.

Lemma save_other ip h (fs : Files) dir :
  dir <> ipToDir ip -> saveConversation ip h fs !! dir = fs !! dir.
Proof. intros H. unfold saveConversation. now rewrite lookup_insert_ne. Qed.

Lemma chat_failure_other ip (fs : Files) dir :
  dir <> ipToDir ip -> chat_failure ip fs !! dir = fs !! dir.
Proof.
  intros H. unfold chat_failure. cbv zeta.
  destruct (last (loadConversation ip fs)) as [e|]; [|reflexivity].
  destruct (pending e); [now apply save_other | reflexivity].
Qed.

Lemma insert_last {A} (l : list A) (x y : A) :
  <[length (l ++ [x]) - 1 := y]> (l ++ [x]) = l ++ [y].
Proof.
  rewrite length_app. cbn [length].
  replace (length l + 1 - 1)%nat with (length l + 0)%nat by lia.
  now rewrite insert_app_r.
Qed.

(** A request that is answered adds one final entry. *)
Lemma chat_answered (env : Env) ip prompt result txid (fs : Files) :
  prompt <> "" ->
  llm env (buildContextPrompt (loadConversation ip fs) prompt) = Ok result ->
  postOnChain env prompt result = Ok txid ->
  snd (chat env ip (Ok prompt) fs) = 200%Z /\
  loadConversation ip (fst (chat env ip (Ok prompt) fs))
  = loadConversation ip fs ++ [final_entry prompt result txid (now env)].
Proof.
  intros Hne Hllm Hpost. unfold chat.
  destruct prompt as [|c p]; [congruence|].
  unfold chat_begin. cbv zeta. cbn [contextPrompt].
  rewrite Hllm, Hpost. cbn [fst snd]. split; [reflexivity|].
  unfold chat_success. cbv zeta. cbn [history Web.ip req_prompt].
  rewrite load_save, insert_last. reflexivity.
Qed.

End ChatAlone.

(** X12: a chat request touches no conversation but the requester's own,
    whatever its outcome; an empty prompt is answered 400 with every file
    as it was; and when the model answers and the answer is posted, the
    request is answered 200 and the conversation has grown by exactly one
    entry, final, holding the prompt, the answer and the id of the
    transaction, the model having been given the context built from the
    conversation as it was. *)
Theorem X12_chat_served_alone (env : Web.Env) (ip : string)
    (body : Result string) (fs : Web.Files) :
  (∀ dir, dir ≠ Web.ipToDir ip →
          fst (Web.chat env ip body fs) !! dir = fs !! dir) ∧
  (body = Ok "" → Web.chat env ip body fs = (fs, 400%Z)) ∧
  (∀ prompt result txid,
     body = Ok prompt → prompt ≠ "" →
     Web.llm env (Web.buildContextPrompt (Web.loadConversation ip fs) prompt)
     = Ok result →
     Web.postOnChain env prompt result = Ok txid →
     snd (Web.chat env ip body fs) = 200%Z ∧
     Web.loadConversation ip (fst (Web.chat env ip body fs))
     = Web.loadConversation ip fs
       ++ [Web.final_entry prompt result txid (Web.now env)]) ∧
  (snd (Web.chat env ip body fs) = 200%Z ∨
   snd (Web.chat env ip body fs) = 400%Z ∨
   snd (Web.chat env ip body fs) = 500%Z).
Proof.
  split_and!.
  - intros dir Hdir. unfold Web.chat.
    destruct body as [[|c p]|m]; cbn [fst];
      [reflexivity | | now apply chat_failure_other].
    destruct (chat_begin_spec ip (String c p) (Web.now env) fs)
      as (Hfs & Hip & _ & _).
    destruct (Web.chat_begin ip (String c p) (Web.now env) fs) as [fs1 r].
    cbn [fst snd] in *. subst fs1.
    destruct (Web.llm env (Web.contextPrompt r)) as [result|m]; cbn [fst].
    + destruct (Web.postOnChain env (String c p) result) as [txid|m]; cbn [fst].
      * unfold Web.chat_success. cbv zeta. rewrite Hip.
        now rewrite !save_other.
      * now rewrite chat_failure_other, save_other.
    + now rewrite chat_failure_other, save_other.
  - intros ->. reflexivity.
  - intros prompt result txid -> Hne Hllm Hpost. now apply chat_answered.
  - unfold Web.chat. destruct body as [[|c p]|m]; cbn [snd]; auto.
    destruct (Web.chat_begin ip (String c p) (Web.now env) fs) as [fs1 r].
    destruct (Web.llm env (Web.contextPrompt r)) as [result|m]; cbn [snd]; auto.
    destruct (Web.postOnChain env (String c p) result); cbn [snd]; auto.
Qed.

(** ** Escaping for the page of the viewer *)

Section Escape.

Lemma occurs_app (c : ascii) (s1 s2 : string) :
  Text.occurs c (s1 +:+ s2) = Text.occurs c s1 || Text.occurs c s2.
Proof.
  induction s1 as [|a r IH]; [reflexivity|].
  rewrite append_cons. cbn [Text.occurs]. now rewrite IH, orb_assoc.
Qed.

(** The four replacements, one after the other, come to replacing each
    character by its entity. *)
Lemma escapeHtml_chars (s : string) :
  Viewer.escapeHtml (Some s)
  = fold_right (fun a rest => Viewer.entity a +:+ rest) "" (list_ascii_of_string s).
Proof.
  unfold Viewer.escapeHtml. cbv zeta.
  assert (Text.or_default (Some s) "" = s) as ->.
  { cbn. unfold Agent.or_else. now destruct (String.eqb_spec s ""). }
  induction s as [|a r IH]; [reflexivity|].
  cbn [list_ascii_of_string fold_right]. rewrite <- IH. clear IH.
  cbn [Text.replace]. unfold Viewer.entity.
  destruct (Ascii.eqb_spec a "&") as [->|Hamp].
  { rewrite !replace_app. reflexivity. }
  cbn [Text.replace].
  destruct (Ascii.eqb_spec a "<") as [->|Hlt].
  { rewrite !replace_app. reflexivity. }
  cbn [Text.replace].
  destruct (Ascii.eqb_spec a ">") as [->|Hgt].
  { rewrite !replace_app. reflexivity. }
  cbn [Text.replace].
  destruct (Ascii.eqb_spec a Text.double_quote) as [->|Hq]; reflexivity.
Qed.

Lemma entity_clean (c a : ascii) :
  c = "<"%char \/ c = ">"%char \/ c = Text.double_quote ->
  Text.occurs c (Viewer.entity a) = false.
Proof.
  intros Hc. unfold Viewer.entity.
  destruct (Ascii.eqb_spec a "&"); [destruct Hc as [->|[->| ->]]; reflexivity|].
  destruct (Ascii.eqb_spec a "<"); [destruct Hc as [->|[->| ->]]; reflexivity|].
  destruct (Ascii.eqb_spec a ">"); [destruct Hc as [->|[->| ->]]; reflexivity|].
  destruct (Ascii.eqb_spec a Text.double_quote);
    [destruct Hc as [->|[->| ->]]; reflexivity|].
  cbn [Text.occurs]. rewrite orb_false_r.
  destruct (Ascii.eqb_spec a c); [|reflexivity].
  destruct Hc as [->|[->| ->]]; congruence.
Qed.

Lemma entity_head (a : ascii) : exists c rest, Viewer.entity a = String c rest.
Proof.
  unfold Viewer.entity.
  repeat match goal with
         | |- context [Ascii.eqb ?x ?y] => destruct (Ascii.eqb x y)
         end;
    eexists _, _; reflexivity.
Qed.

(** The entities are told apart by what follows the ampersand. *)
Lemma entity_inj (a b : ascii) (x y : string) :
  Viewer.entity a +:+ x = Viewer.entity b +:+ y -> a = b /\ x = y.
Proof.
  unfold Viewer.entity.
  destruct (Ascii.eqb_spec a "&") as [->|Ha1];
    [|destruct (Ascii.eqb_spec a "<") as [->|Ha2];
      [|destruct (Ascii.eqb_spec a ">") as [->|Ha3];
        [|destruct (Ascii.eqb_spec a Text.double_quote) as [->|Ha4]]]];
  (destruct (Ascii.eqb_spec b "&") as [->|Hb1];
    [|destruct (Ascii.eqb_spec b "<") as [->|Hb2];
      [|destruct (Ascii.eqb_spec b ">") as [->|Hb3];
        [|destruct (Ascii.eqb_spec b Text.double_quote) as [->|Hb4]]]]);
  rewrite ?append_cons, ?append_empty; intros E;
  try (injection E as E; subst; try congruence; split; reflexivity || assumption);
  try discriminate E.
Qed.

End Escape.

(** X13: what [escapeHtml] returns holds no [<], no [>] and no double
    quote, for every text, and none is brought in by cutting it short; it
    is the text with each of [&], [<], [>] and the double quote replaced by
    its entity, so that two different texts never come out the same; a
    missing text comes out empty. *)
Theorem X13_escapeHtml (s : string) :
  (∀ c, c = "<"%char ∨ c = ">"%char ∨ c = Text.double_quote →
        Text.occurs c (Viewer.escapeHtml (Some s)) = false ∧
        ∀ n, Text.occurs c (String.substring 0 n (Viewer.escapeHtml (Some s)))
             = false) ∧
  Viewer.escapeHtml (Some s)
  = fold_right (fun a rest => Viewer.entity a +:+ rest) ""
      (list_ascii_of_string s) ∧
  (∀ s', Viewer.escapeHtml (Some s) = Viewer.escapeHtml (Some s') → s = s') ∧
  Viewer.escapeHtml None = "".
Proof.
  assert (∀ c, c = "<"%char ∨ c = ">"%char ∨ c = Text.double_quote →
               Text.occurs c (Viewer.escapeHtml (Some s)) = false) as Hclean.
  { intros c Hc. rewrite escapeHtml_chars.
    induction (list_ascii_of_string s) as [|a l IH]; [reflexivity|].
    cbn [fold_right]. now rewrite occurs_app, (entity_clean c a Hc), IH. }
  split_and!.
  - intros c Hc. split; [now apply Hclean|].
    intros n. specialize (Hclean c Hc). revert Hclean.
    generalize (Viewer.escapeHtml (Some s)). clear. intros t. revert t.
    induction n as [|n IH]; intros [|a t]; cbn; try reflexivity.
    intros H. apply orb_false_iff in H as [-> H]. now apply IH.
  - apply escapeHtml_chars.
  - intros s'. rewrite !escapeHtml_chars.
    rewrite <- (string_of_list_ascii_of_string s) at 2.
    rewrite <- (string_of_list_ascii_of_string s') at 2.
    generalize (list_ascii_of_string s') as l'.
    generalize (list_ascii_of_string s) as l. clear.
    induction l as [|a l IH]; intros [|b l']; cbn [fold_right].
    + reflexivity.
    + intros E. destruct (entity_head b) as (c & rest & Hb).
      rewrite Hb, append_cons in E. discriminate.
    + intros E. destruct (entity_head a) as (c & rest & Ha).
      rewrite Ha, append_cons in E. discriminate.
    + intros E. apply entity_inj in E as [-> E]. cbn. f_equal. now apply IH.
  - reflexivity.
Qed.

(** ** The bridge and the job file of the agent *)

Section BridgeReads.
Import Agent.

Lemma find_unrecorded (id : string) (jobs more : list Job) :
  some_job id jobs = false ->
  find (fun j => String.eqb (jobTxid j) id && Bridge.truthy (resTxid j))
       (jobs ++ more)
  = find (fun j => String.eqb (jobTxid j) id && Bridge.truthy (resTxid j)) more.
Proof.
  unfold some_job. induction jobs as [|j jobs IH]; [reflexivity|].
  cbn [existsb app find]. intros H. apply orb_false_iff in H as [-> H].
  cbn [andb]. now apply IH.
Qed.

End BridgeReads.

(** X14: once the agent has recorded a settled job, the bridge waiting
    for that job finds the answer in the job file at its first round,
    whatever the ledger says: it returns the text of the record, which is
    the answer of the model, or the fixed text that stands for it when
    the answer was hashed.  A record of a refused settlement is passed
    over. *)
Theorem X14_bridge_reads_the_job_file (lib : Library) (env : Agent.Env)
    (wallet : Agent.Wallet) (privKey : PrivateKey) (txid : string)
    (tx : Ledger.Tx) (prompt : string) (built : Agent.Response)
    (w : Agent.World) (history_now : Result (option (list string)))
    (tx_now : string → Result (option Ledger.Tx)) (rest : list Bridge.Round) :
  Agent.reaches_broadcast lib env wallet privKey txid tx prompt built →
  Agent.some_job txid (Agent.jobs_json w) = false →
  let w' := snd (Agent.processJob lib env wallet privKey txid w) in
  let round := {| Bridge.jobs_file := Some (Agent.jobs_json w');
                  Bridge.history_now := history_now;
                  Bridge.tx_now := tx_now |} in
  (∀ resTxid,
     Agent.post_tx_raw env (Agent.res_tx built) = Ok resTxid → resTxid ≠ "" →
     Bridge.waitForResponse lib (round :: rest) txid
     = Ok (Some (if Agent.res_isHashed built then Agent.hashed_marker
                 else Agent.askLLM env prompt))) ∧
  (∀ message,
     Agent.post_tx_raw env (Agent.res_tx built) = Throw message →
     find (fun j => String.eqb (Agent.jobTxid j) txid
                    && Bridge.truthy (Agent.resTxid j))
          (Agent.jobs_json w') = None).
Proof.
  intros Hreach Hj. cbn zeta. split.
  - intros resTxid Hpost Hne.
    rewrite (processJob_settled lib env wallet privKey txid tx prompt built
               resTxid w Hreach Hpost).
    cbn [snd Agent.grow Agent.jobs_json Bridge.waitForResponse Bridge.jobs_file].
    change (default [] (Some ?l)) with l.
    rewrite (find_unrecorded txid _ _ Hj). cbn [find Agent.success_record
      Agent.jobTxid Agent.resTxid Bridge.truthy Agent.result].
    rewrite String.eqb_refl.
    destruct (String.eqb_spec resTxid ""); [congruence | reflexivity].
  - intros message Hpost.
    rewrite (processJob_failed lib env wallet privKey txid tx prompt built
               message w Hreach Hpost).
    cbn [snd Agent.grow Agent.jobs_json].
    rewrite (find_unrecorded txid _ _ Hj). cbn [find Agent.failure_record
      Agent.jobTxid Agent.resTxid Bridge.truthy].
    now rewrite andb_false_r.
Qed.

(** X14 at work: the agent has settled the request of [id1]; the ledger
    does not answer the bridge. *)
Lemma X14_witness :
  let env := Sample.env1 (Ok Sample.resid) in
  let w' := snd (Agent.processJob Sample.lib env Sample.wallet Sample.privKey
                   Sample.id1 Sample.world0) in
  let round := {| Bridge.jobs_file := Some (Agent.jobs_json w');
                  Bridge.history_now := Throw "getaddrinfo ENOTFOUND";
                  Bridge.tx_now := fun _ => Ok None |} in
  (∀ resTxid,
     Agent.post_tx_raw env (Agent.res_tx (Sample.built "4")) = Ok resTxid →
     resTxid ≠ "" →
     Bridge.waitForResponse Sample.lib (round :: []) Sample.id1
     = Ok (Some (if Agent.res_isHashed (Sample.built "4")
                 then Agent.hashed_marker
                 else Agent.askLLM env "2+2?"))) ∧
  (∀ message,
     Agent.post_tx_raw env (Agent.res_tx (Sample.built "4")) = Throw message →
     find (fun j => String.eqb (Agent.jobTxid j) Sample.id1
                    && Bridge.truthy (Agent.resTxid j))
          (Agent.jobs_json w') = None).
Proof.
  apply (X14_bridge_reads_the_job_file Sample.lib
           (Sample.env1 (Ok Sample.resid)) Sample.wallet Sample.privKey
           Sample.id1 Sample.request1 "2+2?" (Sample.built "4") Sample.world0
           (Throw "getaddrinfo ENOTFOUND") (fun _ => Ok None) []).
  - split; [reflexivity | vm_compute; reflexivity | discriminate
           | vm_compute; discriminate | vm_compute; reflexivity].
  - reflexivity.
Defined.

Example bridge_reads_the_record :
  let env := Sample.env1 (Ok Sample.resid) in
  let w' := snd (Agent.processJob Sample.lib env Sample.wallet Sample.privKey
                   Sample.id1 Sample.world0) in
  Bridge.waitForResponse Sample.lib
    [ {| Bridge.jobs_file := Some (Agent.jobs_json w');
         Bridge.history_now := Throw "getaddrinfo ENOTFOUND";
         Bridge.tx_now := fun _ => Ok None |} ]
    Sample.id1
  = Ok (Some "4").
Proof. vm_compute. reflexivity. Qed.

(** ** The answer of the inference step *)

Section Answer.
Import Agent.

Lemma after_first_None (p : string) (c : ascii) (s : string) :
  after_first p (String c s) = None ->
  strip_prefix p (String c s) = None /\ after_first p s = None.
Proof.
  cbn [after_first]. destruct (strip_prefix p (String c s)); [discriminate|].
  now intros H.
Qed.

(** A text without an opening tag is left as it is. *)
Lemma strip_think_plain (fuel : nat) (s : string) :
  after_first "<think>" s = None -> strip_think fuel s = s.
Proof.
  revert s. induction fuel as [|fuel IH]; intros s H; [now destruct s|].
  destruct s as [|c s]; [reflexivity|].
  apply after_first_None in H as [Hp Hs].
  cbn [strip_think]. rewrite Hp. now rewrite IH.
Qed.

Lemma or_else_trimmed (x : string) :
  trim (or_else (trim x) "(no response)") = or_else (trim x) "(no response)".
Proof.
  unfold or_else. destruct (String.eqb_spec (trim x) "").
  - vm_compute. reflexivity.
  - apply trim_idempotent.
Qed.

End Answer.

Section Think.
Import Agent.

Ltac next_char s H :=
  destruct s as [|? s];
  [ reflexivity
  | rewrite append_cons; cbn [strip_prefix] in H |- *;
    match goal with
    | |- context [Ascii.eqb ?a ?b] => destruct (Ascii.eqb a b); [|reflexivity]
    end ].

(** The closing tag does not overlap itself: a text that does not start
    with it does not start with it either when the tag is put after it. *)
Lemma closing_tag_no_overlap (c : ascii) (s rest : string) :
  strip_prefix "</think>" (String c s) = None ->
  strip_prefix "</think>" (String c s +:+ "</think>" +:+ rest) = None.
Proof.
  intros H. rewrite append_cons. cbn [strip_prefix] in H |- *.
  destruct (Ascii.eqb "<" c); [|reflexivity].
  do 7 (next_char s H).
  discriminate H.
Qed.

Lemma after_closing_tag (body rest : string) :
  after_first "</think>" body = None ->
  after_first "</think>" (body +:+ "</think>" +:+ rest) = Some rest.
Proof.
  induction body as [|c b IH]; intros H; [reflexivity|].
  apply after_first_None in H as [Hp Hb].
  pose proof (closing_tag_no_overlap c b rest Hp) as Hq.
  rewrite append_cons in *. cbn [after_first]. rewrite Hq. now apply IH.
Qed.

(** A block of thoughts at the head of a reply goes away with its tags. *)
Lemma strip_think_block (fuel : nat) (body answer : string) :
  after_first "</think>" body = None ->
  after_first "<think>" answer = None ->
  strip_think (S fuel) ("<think>" +:+ body +:+ "</think>" +:+ answer) = answer.
Proof.
  intros Hb Ha.
  change ("<think>" +:+ body +:+ "</think>" +:+ answer)
    with (String "<" ("think>" +:+ body +:+ "</think>" +:+ answer)).
  cbn [strip_think].
  change (strip_prefix "<think>"
            (String "<" ("think>" +:+ body +:+ "</think>" +:+ answer)))
    with (Some (body +:+ "</think>" +:+ answer)).
  cbv beta iota. rewrite (after_closing_tag body answer Hb).
  now apply strip_think_plain.
Qed.

End Think.

(** X15: the inference step of the agent never returns the empty text.
    When the backend answers, what it returns has no white space at either
    end; a reply without a [<think>] tag comes out trimmed and otherwise
    unchanged, a reply that opens with a block of thoughts comes out as
    what follows the block, and an empty reply is replaced by the
    [thinking] field; whenever nothing is left the answer is
    ["(no response)"]. *)
Theorem X15_askLLM_answer (env : Agent.Env) (prompt : string) :
  (0 < String.length (Agent.askLLM env prompt))%nat ∧
  (∀ resp,
     Agent.post_generate env prompt = Ok resp →
     Agent.trim (Agent.askLLM env prompt) = Agent.askLLM env prompt) ∧
  (∀ resp,
     Agent.post_generate env prompt = Ok resp →
     Agent.response resp ≠ "" →
     Agent.after_first "<think>" (Agent.response resp) = None →
     Agent.askLLM env prompt
     = Agent.or_else (Agent.trim (Agent.response resp)) "(no response)") ∧
  (∀ resp body answer,
     Agent.post_generate env prompt = Ok resp →
     Agent.response resp = "<think>" +:+ body +:+ "</think>" +:+ answer →
     Agent.after_first "</think>" body = None →
     Agent.after_first "<think>" answer = None →
     Agent.askLLM env prompt
     = Agent.or_else (Agent.trim answer) "(no response)") ∧
  (∀ resp,
     Agent.post_generate env prompt = Ok resp →
     Agent.response resp = "" → Agent.thinking resp ≠ "" →
     Agent.after_first "<think>" (Agent.thinking resp) = None →
     Agent.askLLM env prompt
     = Agent.or_else (Agent.trim (Agent.thinking resp)) "(no response)").
Proof.
  split_and!.
  - pose proof (askLLM_nonempty env prompt) as H.
    destruct (Agent.askLLM env prompt); [congruence | cbn; lia].
  - intros resp Hr. unfold Agent.askLLM. rewrite Hr. cbv zeta.
    apply or_else_trimmed.
  - intros resp Hr Hne Hplain. unfold Agent.askLLM. rewrite Hr. cbv zeta.
    assert (Agent.or_else (Agent.response resp) "" = Agent.response resp) as ->.
    { unfold Agent.or_else. now destruct (String.eqb_spec (Agent.response resp) ""). }
    destruct (String.eqb_spec (Agent.response resp) ""); [congruence|].
    rewrite andb_false_r. now rewrite strip_think_plain.
  - intros resp body answer Hr Hresp Hb Ha. unfold Agent.askLLM.
    rewrite Hr. cbv zeta. rewrite Hresp.
    change (Agent.or_else ("<think>" +:+ body +:+ "</think>" +:+ answer) "")
      with ("<think>" +:+ body +:+ "</think>" +:+ answer).
    change (String.eqb ("<think>" +:+ body +:+ "</think>" +:+ answer) "")
      with false.
    rewrite andb_false_r.
    change (String.length ("<think>" +:+ body +:+ "</think>" +:+ answer))
      with (S (String.length ("think>" +:+ body +:+ "</think>" +:+ answer))).
    now rewrite strip_think_block.
  - intros resp Hr Hresp Hne Hplain. unfold Agent.askLLM. rewrite Hr.
    cbv zeta. rewrite Hresp.
    change (Agent.or_else "" "") with "".
    destruct (String.eqb_spec (Agent.thinking resp) ""); [congruence|].
    cbn [negb andb String.eqb]. now rewrite strip_think_plain.
Qed.

Example askLLM_strips_thoughts :
  Agent.askLLM
    (Sample.env (Ok None)
       (Ok {| Agent.response := "<think>two and two</think> 4 ";
              Agent.thinking := "" |})
       (Ok Sample.resid))
    "2+2?"
  = "4".
Proof. vm_compute. reflexivity. Qed.

(** ** The chat when the model fails *)

Section ChatModel.
Import Agent.


End ChatModel.



(** ** Requests the agent does not serve *)

Section Unserved.
Import Agent.

Lemma findOurOutputs_none (tx : Ledger.Tx) (address : string) :
  Forall (fun v => pays address v = None) (default [] (Ledger.vout tx)) ->
  findOurOutputs tx address = [].
Proof.
  unfold findOurOutputs. induction 1 as [|v vs Hv _ IH]; [reflexivity|].
  cbn. rewrite Hv. exact IH.
Qed.

End Unserved.

(** X17: the agent works only for a request that asks and pays.  When the
    transaction carries no [JOB] prompt, or an empty one, or when none of
    its outputs lists the agent's address, [processJob] returns without
    broadcasting and without writing a record; the seen set is left as it
    is. *)
Theorem X17_unasked_or_unpaid (lib : Library) (env : Agent.Env)
    (wallet : Agent.Wallet) (privKey : PrivateKey) (txid : string)
    (tx : Ledger.Tx) (w : Agent.World) :
  Agent.get_tx env txid = Ok (Some tx) →
  Agent.parseJobFromTx lib tx = Ok None ∨
  Agent.parseJobFromTx lib tx = Ok (Some "") ∨
  Forall (fun v => Agent.pays (Agent.address wallet) v = None)
    (default [] (Ledger.vout tx)) →
  let r := Agent.processJob lib env wallet privKey txid w in
  fst r = Ok tt ∧
  Agent.jobs_json (snd r) = Agent.jobs_json w ∧
  Agent.broadcasts (snd r) = Agent.broadcasts w ∧
  Agent.lastSeenTxids (snd r) = Agent.lastSeenTxids w ∧
  (Agent.console (snd r) = Agent.console w ++ [Agent.NewTx txid; Agent.NoJobFound] ∨
   Agent.console (snd r) = Agent.console w ++ [Agent.NewTx txid; Agent.NoOutputs]).
Proof.
  intros Hf Hwhy. cbn zeta.
  destruct (parseJob_vouts_total lib (default [] (Ledger.vout tx))) as [o Ho].
  fold (Agent.parseJobFromTx lib tx) in Ho.
  assert (o = None ∨ o = Some "" ∨
          Agent.findOurOutputs tx (Agent.address wallet) = []) as Ho'.
  { destruct Hwhy as [H | [H | H]]; [left | right; left | right; right].
    - congruence.
    - congruence.
    - now apply findOurOutputs_none. }
  unfold Agent.processJob, Agent.bind, Agent.await, Agent.log.
  rewrite Hf, Ho. cbv beta iota.
  destruct o as [[|c p]|]; cbv beta iota.
  - cbn. rewrite <- app_assoc. split_and!; try reflexivity. now left.
  - destruct Ho' as [H | [H | ->]]; [discriminate | discriminate |].
    cbn. rewrite <- app_assoc. split_and!; try reflexivity. now right.
  - cbn. rewrite <- app_assoc. split_and!; try reflexivity. now left.
Qed.

(** X17 at work: the request of [id1] pays another address than the one
    of the agent that looks at it. *)
Lemma X17_witness :
  let wallet := {| Agent.wif := Agent.wif Sample.wallet;
                   Agent.address := "1EHNa6Q4Jz2uvNExL497mE43ikXhwF6kZm" |} in
  let r := Agent.processJob Sample.lib (Sample.env1 (Ok Sample.resid)) wallet
             Sample.privKey Sample.id1 Sample.world0 in
  fst r = Ok tt ∧
  Agent.jobs_json (snd r) = Agent.jobs_json Sample.world0 ∧
  Agent.broadcasts (snd r) = Agent.broadcasts Sample.world0 ∧
  Agent.lastSeenTxids (snd r) = Agent.lastSeenTxids Sample.world0 ∧
  (Agent.console (snd r)
   = Agent.console Sample.world0 ++ [Agent.NewTx Sample.id1; Agent.NoJobFound] ∨
   Agent.console (snd r)
   = Agent.console Sample.world0 ++ [Agent.NewTx Sample.id1; Agent.NoOutputs]).
Proof.
  apply (X17_unasked_or_unpaid Sample.lib (Sample.env1 (Ok Sample.resid))
           {| Agent.wif := Agent.wif Sample.wallet;
              Agent.address := "1EHNa6Q4Jz2uvNExL497mE43ikXhwF6kZm" |}
           Sample.privKey Sample.id1 Sample.request1 Sample.world0).
  - reflexivity.
  - right. right. repeat constructor.
Defined.

(** ** Where an answer of the bridge comes from *)

Section Origin.
Import Agent.

Variable lib : Library.

Lemma res_of_script_origin hex jobTxid text :
  Bridge.res_of_script lib hex jobTxid = Ok (Some text) ->
  exists script tag ref payload more,
    Script_fromHex lib hex = Ok script /\
    pushes_of script = tag :: ref :: payload :: more /\
    Buffer.toString_utf8 tag = "RES" /\
    Buffer.toString_hex (rev ref) = jobTxid /\
    text = Buffer.toString_utf8 payload.
Proof.
  unfold Bridge.res_of_script, rbind.
  destruct (Script_fromHex lib hex) as [script|m]; [|discriminate].
  destruct (pushes_of script) as [|tag [|ref [|payload more]]] eqn:Ep;
    try discriminate.
  destruct (String.eqb_spec (Buffer.toString_utf8 tag) "RES") as [Htag|];
    [|discriminate].
  destruct (String.eqb_spec (Buffer.toString_hex (rev ref)) jobTxid) as [Href|];
    [|discriminate].
  intros [= <-]. now exists script, tag, ref, payload, more.
Qed.

Lemma is_nulldata_Some v spk :
  is_nulldata v = Some spk ->
  Ledger.scriptPubKey v = Some spk /\ Ledger.type spk = "nulldata".
Proof.
  unfold is_nulldata. destruct (Ledger.scriptPubKey v) as [s|]; [|discriminate].
  destruct (String.eqb_spec (Ledger.type s) "nulldata"); [|discriminate].
  intros [= <-]. now split.
Qed.

Lemma scan_vouts_origin vs jobTxid text :
  Bridge.scan_vouts lib vs jobTxid = Ok (Some text) ->
  exists v, In v vs /\ Answers.is_response lib jobTxid text v.
Proof.
  induction vs as [|v rest IH]; cbn [Bridge.scan_vouts]; [discriminate|].
  destruct (is_nulldata v) as [spk|] eqn:Ev.
  - unfold rbind.
    destruct (Bridge.res_of_script lib (Ledger.hex spk) jobTxid)
      as [[t|]|m] eqn:Er; [| |discriminate].
    + intros [= <-]. exists v. split; [now left|].
      apply is_nulldata_Some in Ev as [Hs Ht].
      apply res_of_script_origin in Er
        as (script & tag & ref & payload & more & H1 & H2 & H3 & H4 & H5).
      now exists spk, script, tag, ref, payload, more.
    + intros H. destruct (IH H) as (v' & Hin & Hv'). exists v'.
      split; [now right | assumption].
  - intros H. destruct (IH H) as (v' & Hin & Hv'). exists v'.
    split; [now right | assumption].
Qed.

Lemma scan_history_origin get_tx history jobTxid text :
  Bridge.scan_history lib get_tx history jobTxid = Some text ->
  exists h tx vouts v,
    In h history /\ get_tx h = Ok (Some tx) /\ Ledger.vout tx = Some vouts /\
    In v vouts /\ Answers.is_response lib jobTxid text v.
Proof.
  induction history as [|h rest IH]; cbn [Bridge.scan_history]; [discriminate|].
  destruct (Bridge.scan_entry lib (get_tx h) jobTxid) as [t|] eqn:Ee.
  - intros [= <-]. unfold Bridge.scan_entry, rbind in Ee.
    destruct (get_tx h) as [[tx|]|m] eqn:Eg; try discriminate.
    destruct (Ledger.vout tx) as [vs|] eqn:Evs; [|discriminate].
    destruct (Bridge.scan_vouts lib vs jobTxid) as [[t'|]|m] eqn:Es;
      try discriminate.
    injection Ee as ->.
    apply scan_vouts_origin in Es as (v & Hin & Hv).
    exists h, tx, vs, v. split_and!; try assumption. now left.
  - intros H. destruct (IH H) as (h' & tx & vs & v & Hin & Hrest).
    exists h', tx, vs, v. split; [now right | assumption].
Qed.

End Origin.

(** X18: the bridge never hands out an answer that is not the one of the
    job it waits for.  Whatever text [waitForResponse] returns comes from
    one of the rounds it went through: either the job file of that round
    holds a record of this job with a response id and this text, or a
    transaction of the agent's history has a null-data output whose script
    pushes the tag [RES], the id of this job in reverse byte order, and
    this text. *)
Theorem X18_bridge_answers_its_job (lib : Library) (rounds : list Bridge.Round)
    (jobTxid text : string) :
  Bridge.waitForResponse lib rounds jobTxid = Ok (Some text) →
  ∃ r, In r rounds ∧
       (Answers.in_job_file r jobTxid text ∨ Answers.on_ledger lib r jobTxid text).
Proof.
  induction rounds as [|r rest IH]; cbn [Bridge.waitForResponse]; [discriminate|].
  destruct (find _ (default [] (Bridge.jobs_file r))) as [job|] eqn:Ef.
  - intros [= <-]. exists r. split; [now left|]. left.
    apply find_some in Ef as [Hin Hj].
    apply andb_true_iff in Hj as [Hid Htruthy].
    apply String.eqb_eq in Hid. now exists job.
  - unfold Agent.rbind.
    destruct (Bridge.history_now r) as [[history|]|m] eqn:Eh; [| |discriminate].
    + destruct (Bridge.scan_history lib (Bridge.tx_now r) history jobTxid)
        as [t|] eqn:Es.
      * intros [= <-]. exists r. split; [now left|]. right.
        apply scan_history_origin in Es
          as (h & tx & vs & v & Hin & Htx & Hvs & Hv & Hresp).
        now exists history, h, tx, vs, v.
      * intros H. destruct (IH H) as (r' & Hin & Hr'). exists r'.
        split; [now right | assumption].
    + intros H. destruct (IH H) as (r' & Hin & Hr'). exists r'.
      split; [now right | assumption].
Qed.

(** X18 at work: the bridge reads the settlement of the request of [id1]
    from the ledger. *)
Lemma X18_witness :
  let env := Sample.env1 (Ok Sample.resid) in
  let w := snd (Agent.pollForJobs Sample.lib env Sample.wallet Sample.privKey
                  Sample.world0) in
  let ledger id :=
    if String.eqb id Sample.resid
    then Ok (option_map (Sample.on_ledger Sample.resid) (head (Agent.broadcasts w)))
    else Agent.get_tx env id in
  let rounds :=
    [ {| Bridge.jobs_file := None;
         Bridge.history_now := Ok (Some [Sample.id1; Sample.resid]);
         Bridge.tx_now := ledger |} ] in
  ∃ r, In r rounds ∧
       (Answers.in_job_file r Sample.id1 "4" ∨
        Answers.on_ledger Sample.lib r Sample.id1 "4").
Proof.
  apply (X18_bridge_answers_its_job Sample.lib).
  vm_compute. reflexivity.
Defined.

(** ** No job is answered twice *)

Section Once.
Import Agent.

Variable lib : Library.
Variable wallet : Wallet.
Variable privKey : PrivateKey.

Lemma fresh_refl w : Books.fresh w w.
Proof.
  exists []. rewrite app_nil_r. split_and!; [reflexivity | constructor | constructor].
Qed.

Lemma fresh_same w w' : jobs_json w' = jobs_json w -> Books.fresh w w'.
Proof.
  intros H. exists []. rewrite app_nil_r.
  split_and!; [assumption | constructor | constructor].
Qed.

Lemma some_job_app_false id (l1 l2 : list Job) :
  some_job id (l1 ++ l2) = false ->
  some_job id l1 = false /\ some_job id l2 = false.
Proof.
  unfold some_job. rewrite existsb_app. intros H.
  now apply orb_false_iff in H.
Qed.

Lemma fresh_trans w1 w2 w3 :
  Books.fresh w1 w2 -> Books.fresh w2 w3 -> Books.fresh w1 w3.
Proof.
  intros (a1 & Hj1 & Hd1 & Hf1) (a2 & Hj2 & Hd2 & Hf2).
  exists (a1 ++ a2). rewrite Hj2, Hj1, app_assoc.
  rewrite Hj1 in Hf2.
  split_and!; [reflexivity | |].
  - rewrite map_app. apply NoDup_app. split_and!; [assumption | | assumption].
    intros id Hin1 Hin2.
    apply list_elem_of_In, in_map_iff in Hin2 as (j & <- & Hj).
    rewrite List.Forall_forall in Hf2. specialize (Hf2 j Hj).
    apply some_job_app_false in Hf2 as [_ Hf2].
    apply some_job_elem in Hin1. congruence.
  - apply Forall_app. split; [assumption|].
    eapply Forall_impl; [exact Hf2|]. cbn beta. intros j Hj.
    now apply some_job_app_false in Hj as [Hj _].
Qed.

Lemma poll_entry_fresh env txid w :
  Books.fresh w (snd (poll_entry lib env wallet privKey txid w)).
Proof.
  destruct (poll_entry_cases lib wallet privKey env txid w)
    as [[_ ->] | [(_ & _ & ->) | (_ & Hj & ->)]]; cbn [snd].
  - apply fresh_refl.
  - now apply fresh_same.
  - destruct (processJob_effect lib env wallet privKey txid (mark txid w))
      as (added & lines & sent & -> & Hadded & _).
    exists added. cbn [grow jobs_json mark]. split; [reflexivity|].
    destruct Hadded as [-> | (j & -> & Hid)].
    + split; constructor.
    + cbn [map]. split.
      * apply NoDup_singleton.
      * constructor; [now rewrite Hid | constructor].
Qed.

Lemma pollForJobs_fresh env w :
  Books.fresh w (snd (pollForJobs lib env wallet privKey w)).
Proof.
  unfold pollForJobs, try_catch, bind, await.
  destruct (get_history env (address wallet)) as [[history|]|m]; cbn;
    try (apply fresh_same; reflexivity).
  pose proof (for_of_invariant (Books.fresh w)
                (poll_entry lib env wallet privKey) history
                (fun x w1 H => fresh_trans _ _ _ H (poll_entry_fresh env x w1))
                w (fresh_refl w)) as H.
  destruct (for_of history _ w) as [[[]|m] w1]; cbn [snd] in *; [assumption|].
  apply (fresh_trans _ _ _ H). now apply fresh_same.
Qed.

Lemma lifetime_fresh (ps : list Phase) w :
  Books.fresh w (lifetime lib wallet privKey ps w).
Proof.
  revert w. induction ps as [|p ps IH]; intros w; [apply fresh_refl|].
  cbn [lifetime fold_left]. fold (lifetime lib wallet privKey ps).
  apply (fresh_trans _ (phase lib wallet privKey w p)); [|apply IH].
  destruct p as [env|env]; cbn [phase].
  - apply pollForJobs_fresh.
  - destruct (main_effect wallet env (restart w)) as (_ & Hj & _ & _).
    now apply fresh_same.
Qed.

End Once.

(** X19: no job is answered twice.  Through any run of ticks and
    restarts, the records the agent adds are for jobs that had no record
    before, one record at most for each job, and the transactions it
    hands to the ledger are the settlements of these records, one for
    each: no job that has a record is settled again, and no job is
    settled twice. *)
Theorem X19_no_job_is_answered_twice (lib : Library) (wallet : Agent.Wallet)
    (privKey : PrivateKey) (phases : list Agent.Phase) (w : Agent.World) :
  let w' := Agent.lifetime lib wallet privKey phases w in
  ∃ added sent,
    Agent.jobs_json w' = Agent.jobs_json w ++ added ∧
    Agent.broadcasts w' = Agent.broadcasts w ++ sent ∧
    Forall2 Books.answers added sent ∧
    NoDup (map Agent.jobTxid added) ∧
    Forall (fun j => Agent.some_job (Agent.jobTxid j) (Agent.jobs_json w) = false)
      added.
Proof.
  cbn zeta.
  destruct (lifetime_extends lib wallet privKey phases w)
    as (added & sent & Hj & Hb & Hf & _).
  destruct (lifetime_fresh lib wallet privKey phases w)
    as (added' & Hj' & Hd & Hn).
  assert (added' = added) as ->.
  { rewrite Hj in Hj'. now apply app_inv_head in Hj'. }
  exists added, sent. now split_and!.
Qed.
